(** * smartling-cli: the project commands (cli/smartling/project.go)

    A shallow embedding of the three project subcommands (status, pull,
    push) and of the path helpers they rely on, followed by the properties
    the specification states about them.

    Go strings are byte sequences: they are modelled as [string] (a list
    of 8-bit [ascii]).  Go maps are modelled as stdpp's [gmap].  Goroutines
    are modelled as threads of a pool whose steps are interleaved by an
    explicit schedule. *)

From Stdlib Require Import ZArith Ascii String List Bool Lia.

From Stdlib Require Import Numbers.DecimalString.

From stdpp Require Import base option list gmap strings.

(** ** Results of fallible calls

    A Go call returning [(v, err)] is modelled as [Ok v] or [Err msg];
    [panicIfErr] turns [Err] into a panic of the calling goroutine. *)

Inductive result (A : Type) : Type :=
| Ok (a : A)
| Err (msg : string).
Arguments Ok {A} a.
Arguments Err {A} msg.

(** ** Byte strings *)

Module GoString.

Definition to_list (s : string) : list ascii := list_ascii_of_string s.

Definition of_list (l : list ascii) : string := string_of_list_ascii l.

Definition is_empty (s : string) : bool :=
  match s with EmptyString => true | String _ _ => false end.

(** [strings.HasPrefix]. *)
Fixpoint has_prefix (s p : string) : bool :=
  match p, s with
  | EmptyString, _ => true
  | String a p', String b s' => Ascii.eqb a b && has_prefix s' p'
  | String _ _, EmptyString => false
  end.

(** [strings.HasSuffix]. *)
Definition has_suffix (s suf : string) : bool :=
  has_prefix (of_list (rev (to_list s))) (of_list (rev (to_list suf))).

(** [strings.Contains]. *)
Fixpoint contains (s sub : string) : bool :=
  has_prefix s sub ||
  match s with
  | EmptyString => false
  | String _ s' => contains s' sub
  end.

(** [strings.TrimSuffix]: [s] without the trailing [suf], or [s]
    itself when it does not end in [suf]. *)
Definition TrimSuffix (s suf : string) : string :=
  if has_suffix s suf
  then of_list (firstn (List.length (to_list s) - List.length (to_list suf)) (to_list s))
  else s.

(** [strings.Repeat]. *)
Fixpoint repeat_string (s : string) (n : nat) : string :=
  match n with
  | O => ""
  | S n' => s +:+ repeat_string s n'
  end.

End GoString.

(** ** path/filepath on a Unix target

    The separator is ['/'] and volume names are empty.  The functions
    follow the standard library's algorithms; where the library walks the
    path with byte indices, the embedding walks the remaining bytes. *)

Module filepath.

Definition Separator : ascii := "/"%char.

Definition IsPathSeparator (c : ascii) : bool := Ascii.eqb c Separator.

Definition starts_with_sep (s : string) : bool :=
  match s with
  | String c _ => IsPathSeparator c
  | EmptyString => false
  end.

(** The end of a path element: the path is exhausted or a separator
    follows ([r+1 == n || IsPathSeparator(path[r+1])]). *)
Definition at_elem_end (s : string) : bool :=
  match s with
  | EmptyString => true
  | String c _ => IsPathSeparator c
  end.

(** The backtracking of a [..] element over the output buffer.  The
    buffer is kept reversed, so [out.w--] drops its head; the loop
    keeps dropping while [out.w > dotdot] and the byte just dropped is
    not a separator. *)
Fixpoint backtrack (out : list ascii) (dotdot : nat) : list ascii :=
  match out with
  | [] => []
  | c :: out' =>
      if (dotdot <? List.length out')%nat && negb (IsPathSeparator c)
      then backtrack out' dotdot
      else out'
  end.

(** The main loop of [Clean].  [out] is the (reversed) output buffer,
    [dotdot] the index where [..] must stop.  [in_elem] is set while a
    real path element is being copied (the inner [for] of the default
    case); the separator that ends the element is then skipped as an
    empty element, as the outer loop does. *)
Fixpoint clean_loop (rooted : bool) (path : string) (out : list ascii)
    (dotdot : nat) (in_elem : bool) : list ascii :=
  match path with
  | EmptyString => out
  | String c rest =>
      if IsPathSeparator c then
        (* empty path element, or the end of the element being copied *)
        clean_loop rooted rest out dotdot false
      else if in_elem then
        clean_loop rooted rest (c :: out) dotdot true
      else if Ascii.eqb c "."%char && at_elem_end rest then
        (* . element *)
        clean_loop rooted rest out dotdot false
      else
        let real_element :=
          (* add slash if needed, then copy the element *)
          let out1 :=
            if (rooted && negb (List.length out =? 1)%nat)
               || (negb rooted && negb (List.length out =? 0)%nat)
            then Separator :: out else out in
          clean_loop rooted rest (c :: out1) dotdot true in
        match rest with
        | String c2 rest2 =>
            if Ascii.eqb c "."%char && Ascii.eqb c2 "."%char && at_elem_end rest2 then
              (* .. element: remove to last separator *)
              if (dotdot <? List.length out)%nat then
                clean_loop rooted rest2 (backtrack out dotdot) dotdot false
              else if negb rooted then
                let out1 := if (0 <? List.length out)%nat then Separator :: out else out in
                let out2 := "."%char :: "."%char :: out1 in
                clean_loop rooted rest2 out2 (List.length out2) false
              else
                clean_loop rooted rest2 out dotdot false
            else real_element
        | EmptyString => real_element
        end
  end.

(** [filepath.Clean]. *)
Definition Clean (path : string) : string :=
  match path with
  | EmptyString => "."
  | String c rest =>
      let rooted := IsPathSeparator c in
      let out :=
        if rooted
        then clean_loop true rest [Separator] 1 false
        else clean_loop false path [] 0 false in
      match out with
      | [] => "."
      | _ => GoString.of_list (rev out)
      end
  end.

(** [strings.Join(elem, "/")]. *)
Fixpoint join_sep (elem : list string) : string :=
  match elem with
  | [] => ""
  | [e] => e
  | e :: rest => e +:+ String Separator (join_sep rest)
  end.

(** [filepath.Join]: the elements from the first non-empty one on are
    joined and cleaned; all empty gives the empty string. *)
Fixpoint Join (elem : list string) : string :=
  match elem with
  | [] => ""
  | e :: rest =>
      if GoString.is_empty e then Join rest else Clean (join_sep elem)
  end.

(** [filepath.Rel(".", targpath)], the one use project.go makes of [Rel].
    The base cleans to ["."] and is emptied, so the loop over the common
    elements has nothing to walk: the result is the cleaned target.  A
    rooted target cannot be made relative to a relative base. *)
Definition Rel_dot (targpath : string) : result string :=
  let targ := Clean targpath in
  if String.eqb targ "." then Ok "."
  else if starts_with_sep targ then
    Err ("Rel: can't make " +:+ targpath +:+ " relative to .")
  else Ok targ.

(** The last element of a reversed path: the bytes before the first
    separator, and what follows from that separator on. *)
Fixpoint rev_last_elem (r : list ascii) : list ascii * list ascii :=
  match r with
  | [] => ([], [])
  | c :: r' =>
      if IsPathSeparator c then ([], r)
      else let '(e, q) := rev_last_elem r' in (c :: e, q)
  end.

Fixpoint drop_seps (r : list ascii) : list ascii :=
  match r with
  | c :: r' => if IsPathSeparator c then drop_seps r' else r
  | [] => []
  end.

(** [filepath.Ext]: the suffix beginning at the final dot of the final
    element. *)
Fixpoint rev_ext (r : list ascii) (acc : list ascii) : option (list ascii) :=
  match r with
  | [] => None
  | c :: r' =>
      if IsPathSeparator c then None
      else if Ascii.eqb c "."%char then Some (c :: acc)
      else rev_ext r' (c :: acc)
  end.

Definition Ext (path : string) : string :=
  match rev_ext (rev (GoString.to_list path)) [] with
  | Some e => GoString.of_list e
  | None => ""
  end.

(** [filepath.Base]. *)
Definition Base (path : string) : string :=
  if GoString.is_empty path then "."
  else
    let stripped := drop_seps (rev (GoString.to_list path)) in
    let '(e, _) := rev_last_elem stripped in
    match e with
    | [] => String Separator ""
    | _ => GoString.of_list (rev e)
    end.

(** [filepath.Dir]. *)
Definition Dir (path : string) : string :=
  let '(_, q) := rev_last_elem (rev (GoString.to_list path)) in
  Clean (GoString.of_list (rev q)).

End filepath.

(** ** fmt: the formatting the commands use *)

Module fmt.

(** [%d] / the default format of an [int]. *)
Definition d (z : Z) : string := NilZero.string_of_int (Z.to_int z).

Inductive operand :=
| OStr (s : string)
| OInt (z : Z).

Definition is_string (o : operand) : bool :=
  match o with OStr _ => true | OInt _ => false end.

Definition default_format (o : operand) : string :=
  match o with OStr s => s | OInt z => d z end.

(** [fmt.Sprint]: operands in their default formats; a space is added
    between two operands when neither is a string. *)
Fixpoint sprint_from (prev_string : bool) (ops : list operand) : string :=
  match ops with
  | [] => ""
  | o :: rest =>
      (if negb (is_string o) && negb prev_string then " " else "")
      +:+ default_format o +:+ sprint_from (is_string o) rest
  end.

Definition Sprint (ops : list operand) : string :=
  match ops with
  | [] => ""
  | o :: rest => default_format o +:+ sprint_from (is_string o) rest
  end.

(** [fmt.Sprintln]: a space between all operands, a newline at the end. *)
Fixpoint spaced (ops : list operand) : string :=
  match ops with
  | [] => ""
  | [o] => default_format o
  | o :: rest => default_format o +:+ " " +:+ spaced rest
  end.

Definition newline : string := String "010"%char "".

Definition Sprintln (ops : list operand) : string := spaced ops +:+ newline.

(** [%3d]: right-justified in a field of width 3. *)
Definition d3 (z : Z) : string :=
  let s := d z in
  GoString.repeat_string " " (3 - String.length s) +:+ s.

End fmt.

(** ** text/template: the fragment the pull-path templates use

    A template is text interleaved with actions.  The embedding covers the
    actions [{{.Field}}] and [{{TrimSuffix .Field .Field}}] (the one
    function the command registers), with optional blanks inside the
    delimiters.  [Parse] answers [None] on a template outside this
    fragment: the embedding then says nothing about what the command
    does. *)

Module template.

Inductive node :=
| Text (s : string)
| Field (name : string)
| CallTrimSuffix (a b : string).

Definition is_space (c : ascii) : bool := Ascii.eqb c " "%char.

Definition is_ident_char (c : ascii) : bool :=
  let n := nat_of_ascii c in
  ((65 <=? n) && (n <=? 90) || (97 <=? n) && (n <=? 122)
   || (48 <=? n) && (n <=? 57) || (n =? 95))%nat.

Definition is_digit (c : ascii) : bool :=
  let n := nat_of_ascii c in ((48 <=? n) && (n <=? 57))%nat.

Fixpoint skip_spaces (l : list ascii) : list ascii :=
  match l with
  | c :: l' => if is_space c then skip_spaces l' else l
  | [] => []
  end.

Fixpoint take_ident (l : list ascii) : list ascii * list ascii :=
  match l with
  | c :: l' =>
      if is_ident_char c
      then let '(i, r) := take_ident l' in (c :: i, r)
      else ([], l)
  | [] => ([], [])
  end.

(** [.Name]: a dot followed by an identifier that does not start with
    a digit. *)
Definition take_field (l : list ascii) : option (string * list ascii) :=
  match l with
  | "."%char :: (c :: _) as l' =>
      if is_ident_char c && negb (is_digit c)
      then let '(i, r) := take_ident l' in Some (GoString.of_list i, r)
      else None
  | _ => None
  end.

(** The body of one action, between [{{] and [}}]. *)
Definition parse_action (body : list ascii) : option node :=
  let b := skip_spaces body in
  match take_field b with
  | Some (f, r) =>
      match skip_spaces r with
      | [] => Some (Field f)
      | _ => None
      end
  | None =>
      let '(i, r) := take_ident b in
      if String.eqb (GoString.of_list i) "TrimSuffix" then
        match r with
        | c :: _ =>
            if is_space c then
              match take_field (skip_spaces r) with
              | Some (fa, r1) =>
                  match r1 with
                  | c1 :: _ =>
                      if is_space c1 then
                        match take_field (skip_spaces r1) with
                        | Some (fb, r2) =>
                            match skip_spaces r2 with
                            | [] => Some (CallTrimSuffix fa fb)
                            | _ => None
                            end
                        | None => None
                        end
                      else None
                  | [] => None
                  end
              | None => None
              end
            else None
        | [] => None
        end
      else None
  end.

(** The lexer state: outside an action (collecting text) or inside one
    (collecting its body up to the closing delimiter). *)
Fixpoint lex (l : list ascii) (in_action : bool) (acc : list ascii)
    : option (list node) :=
  match l with
  | [] =>
      if in_action then None
      else Some (match acc with [] => [] | _ => [Text (GoString.of_list (rev acc))] end)
  | c :: l' =>
      if in_action then
        match c, l' with
        | "}"%char, "}"%char :: l'' =>
            match parse_action (rev acc), lex l'' false [] with
            | Some n, Some ns => Some (n :: ns)
            | _, _ => None
            end
        | _, _ =>
            (* quotes, braces and line breaks inside an action are
               outside the fragment *)
            if is_ident_char c || is_space c || Ascii.eqb c "."%char
            then lex l' true (c :: acc) else None
        end
      else
        match c, l' with
        | "{"%char, "{"%char :: l'' =>
            match lex l'' true [] with
            | Some ns =>
                Some (match acc with
                      | [] => ns
                      | _ => Text (GoString.of_list (rev acc)) :: ns
                      end)
            | None => None
            end
        | _, _ => lex l' false (c :: acc)
        end
  end.

(** [template.New("name").Parse(text)] on the fragment. *)
Definition Parse (text : string) : option (list node) :=
  lex (GoString.to_list text) false [].

End template.

(** ** The client library's data (package smartling) *)

Module smartling.

(** Modelled from the spec: the type [smartling.Locale] is declared in
    the client library, outside project.go, which only reads its field
    [Locale].  The spec: "Locale — an opaque identifier string returned
    by the remote service". *)
Record LocaleInfo := { Locale : string }.

(** Go's [int] on a 64-bit target. *)
Definition wrap_int (z : Z) : Z := ((z + 2 ^ 63) mod 2 ^ 64 - 2 ^ 63)%Z.

Definition int_sum (l : list Z) : Z :=
  fold_left (fun acc x => wrap_int (acc + x)) l 0%Z.

(** Modelled from the spec: the type [smartling.FileStatus] and its
    methods [AwaitingAuthorizationCount] and [InProgressCount] are
    declared in the client library, outside project.go.  The spec:
    "Awaiting-authorization and in-progress are each derived as sums
    over finer-grained sub-states; completed is a single field."  The
    sub-state counts are kept as the lists the sums range over. *)
Record FileStatus := {
  AwaitingSubStates : list Z;
  InProgressSubStates : list Z;
  CompletedStringCount : Z
}.

Definition AwaitingAuthorizationCount (fs : FileStatus) : Z :=
  int_sum (AwaitingSubStates fs).

Definition InProgressCount (fs : FileStatus) : Z :=
  int_sum (InProgressSubStates fs).

(** The zero value, which a Go map read yields for a missing key. *)
Definition zero_status : FileStatus :=
  {| AwaitingSubStates := []; InProgressSubStates := []; CompletedStringCount := 0 |}.

End smartling.

(** ** The project configuration *)

Definition ParserConfigT := list (string * string).

Record FileConfigT := {
  FileType : string;
  ParserConfig : ParserConfigT;
  PullFilePath : string
}.

Record Config := {
  path : string;
  Files : list string;
  FileConfig : FileConfigT
}.

Record FilenameParts := {
  Path : string;
  Base : string;
  Dir : string;
  Ext : string;
  PathWithoutExt : string;
  Locale : string
}.

(** [Execute] on the fragment: a field of [FilenameParts] by name; a name
    the struct does not have is an execution error. *)
Definition field_of (parts : FilenameParts) (name : string) : result string :=
  if String.eqb name "Path" then Ok (Path parts)
  else if String.eqb name "Base" then Ok (Base parts)
  else if String.eqb name "Dir" then Ok (Dir parts)
  else if String.eqb name "Ext" then Ok (Ext parts)
  else if String.eqb name "PathWithoutExt" then Ok (PathWithoutExt parts)
  else if String.eqb name "Locale" then Ok (Locale parts)
  else Err ("template: name: can't evaluate field " +:+ name +:+ " in type main.FilenameParts").

Definition exec_node (parts : FilenameParts) (n : template.node) : result string :=
  match n with
  | template.Text s => Ok s
  | template.Field f => field_of parts f
  | template.CallTrimSuffix a b =>
      match field_of parts a, field_of parts b with
      | Ok x, Ok y => Ok (GoString.TrimSuffix x y)
      | Err m, _ => Err m
      | _, Err m => Err m
      end
  end.

Fixpoint Execute (t : list template.node) (parts : FilenameParts) : result string :=
  match t with
  | [] => Ok ""
  | n :: t' =>
      match exec_node parts n with
      | Ok s =>
          match Execute t' parts with
          | Ok s' => Ok (s +:+ s')
          | Err m => Err m
          end
      | Err m => Err m
      end
  end.

(** ** The pure helpers of project.go *)

Section Helpers.

(** The process-wide configuration [ProjectConfig]. *)
Variable ProjectConfig : Config.

(** The package constant [defaultPullDestination] is declared outside
    project.go; it is a parameter of the development. *)
Variable defaultPullDestination : string.

(** [smartling.FileTypeByExtension], the client library's table from
    extensions to file types ([""] when the extension is unknown). *)
Variable FileTypeByExtension : string -> string.

Definition cleanPrefix (s : string) : string :=
  let s := filepath.Clean ("/" +:+ s) in
  if String.eqb s "/" then "" else s.

(** The remote path of a pushed file (project.go, line 183). *)
Definition remoteFile (prefix projectFilepath : string) : string :=
  filepath.Clean (prefix +:+ "/" +:+ projectFilepath).

Definition filetypeForProjectFile (projectFilepath : string) : result string :=
  let ft := FileTypeByExtension (filepath.Ext projectFilepath) in
  let ft := if String.eqb ft "" then FileType (FileConfig ProjectConfig) else ft in
  if String.eqb ft "" then Err ("Can't determine file type for " +:+ projectFilepath)
  else Ok ft.

Definition localRelativeFilePath (remotepath : string) : result string :=
  filepath.Rel_dot (filepath.Join [path ProjectConfig; remotepath]).

(** The template the pull destination is rendered from (lines 250-253). *)
Definition pullTemplate : string :=
  let dt := defaultPullDestination in
  if negb (String.eqb dt "") then PullFilePath (FileConfig ProjectConfig) else dt.

Definition pullParts (p locale : string) : FilenameParts :=
  {| Path := p;
     Dir := filepath.Dir p;
     Base := filepath.Base p;
     Ext := filepath.Ext p;
     PathWithoutExt := "";
     Locale := locale |}.

(** [None]: the template is outside the modelled fragment. *)
Definition localPullFilePath (p locale : string) : option (result string) :=
  let parts := pullParts p locale in
  let dt := pullTemplate in
  match template.Parse dt with
  | None => None
  | Some tmpl =>
      Some match Execute tmpl parts with
           | Err m => Err m
           | Ok out => localRelativeFilePath out
           end
  end.

End Helpers.

(** ** unicode/utf8 and text/tabwriter

    The status table is written through a [tabwriter.Writer] created with
    [NewWriter(os.Stdout, 0, 0, 1, ' ', 0)]: minimal width 0, padding 1,
    padded with blanks, cells left-aligned, no flags. *)

Module utf8.

Definition between (lo hi : nat) (c : ascii) : bool :=
  let n := nat_of_ascii c in ((lo <=? n) && (n <=? hi))%nat.

Definition cont (c : ascii) : bool := between 128 191 c.

(** The length of the encoding that starts [l], 1 for an invalid or
    short one. *)
Definition rune_len (l : list ascii) : nat :=
  match l with
  | [] => 0
  | c :: l' =>
      let n := nat_of_ascii c in
      if (n <? 128)%nat then 1
      else if between 194 223 c then
        match l' with c1 :: _ => if cont c1 then 2 else 1 | _ => 1 end
      else if between 224 239 c then
        match l' with
        | c1 :: c2 :: _ =>
            let ok1 :=
              if (n =? 224)%nat then between 160 191 c1
              else if (n =? 237)%nat then between 128 159 c1
              else cont c1 in
            if ok1 && cont c2 then 3 else 1
        | _ => 1
        end
      else if between 240 244 c then
        match l' with
        | c1 :: c2 :: c3 :: _ =>
            let ok1 :=
              if (n =? 240)%nat then between 144 191 c1
              else if (n =? 244)%nat then between 128 143 c1
              else cont c1 in
            if ok1 && cont c2 && cont c3 then 4 else 1
        | _ => 1
        end
      else 1
  end.

Fixpoint count_from (fuel : nat) (l : list ascii) : nat :=
  match fuel, l with
  | S fuel', _ :: _ => S (count_from fuel' (skipn (rune_len l) l))
  | _, _ => 0
  end.

(** [utf8.RuneCount]. *)
Definition RuneCount (s : string) : nat :=
  let l := GoString.to_list s in count_from (List.length l) l.

End utf8.

Module tabwriter.

Definition minwidth : nat := 0.

Definition padding : nat := 1.

(** A line is the list of its cells; every cell but the last one was
    terminated by a tab. *)
Definition line := list string.

Definition is_cell_end (c : ascii) : bool :=
  Ascii.eqb c "009"%char || Ascii.eqb c "011"%char.

Definition is_line_end (c : ascii) : bool :=
  Ascii.eqb c "010"%char || Ascii.eqb c "012"%char.

(** [Write]: the buffered text is cut into cells and lines.  A form
    feed, or a line of a single cell, flushes the lines buffered so far:
    they are formatted as a block of their own.  The result lists the
    blocks; the last one is what [Flush] finds in the buffer, its last
    line being the text after the final line end. *)
Fixpoint cut (l : list ascii) (cell : list ascii) (cells : line) (lines : list line)
    : list (list line) :=
  match l with
  | [] =>
      (* Flush terminates the pending cell only when it is not empty *)
      let last := match cell with [] => cells | _ => GoString.of_list (rev cell) :: cells end in
      [rev (rev last :: lines)]
  | c :: l' =>
      if is_cell_end c then
        cut l' [] (GoString.of_list (rev cell) :: cells) lines
      else if is_line_end c then
        let ln := rev (GoString.of_list (rev cell) :: cells) in
        if Ascii.eqb c "012"%char || (List.length ln =? 1)%nat
        then rev ([] :: ln :: lines) :: cut l' [] [] []
        else cut l' [] [] (ln :: lines)
      else cut l' (c :: cell) cells lines
  end.

(** [column >= len(line)-1] fails: the line has a cell in this column. *)
Definition has_column (column : nat) (ln : line) : bool :=
  (S column <? List.length ln)%nat.

Definition column_width (column : nat) (block : list line) : nat :=
  fold_left
    (fun width ln =>
       match nth_error ln column with
       | Some c => Nat.max width (utf8.RuneCount c + padding)
       | None => width
       end)
    block minwidth.

(** [writeLines] for one line: each cell, left-aligned, padded to the
    width of its column when that width is known. *)
Fixpoint write_cells (j : nat) (widths : list nat) (ln : line) : string :=
  match ln with
  | [] => ""
  | c :: rest =>
      (c +:+
       match nth_error widths j with
       | Some cellw => GoString.repeat_string " " (cellw - utf8.RuneCount c)
       | None => ""
       end) +:+ write_cells (S j) widths rest
  end.

(** [format]: lines that have a cell in the current column form column
    blocks; the width of a block's column is the widest cell plus the
    padding, and the columns to its right are formatted recursively.
    The result is one string per line. *)
Fixpoint format (fuel : nat) (widths : list nat) (lines : list line) : list string :=
  match fuel with
  | O => map (write_cells 0 widths) lines
  | S fuel' =>
      let column := List.length widths in
      let flush (block : list line) : list string :=
        match block with
        | [] => []
        | _ =>
            let blk := rev block in
            format fuel' (widths ++ [column_width column blk]) blk
        end in
      (fix go (ls : list line) (block : list line) : list string :=
         match ls with
         | [] => flush block
         | ln :: rest =>
             if has_column column ln then go rest (ln :: block)
             else flush block ++ write_cells 0 widths ln :: go rest []
         end) lines []
  end.

(** All lines of a block but the last are followed by a newline; the
    last line is the text not yet ended by one. *)
Fixpoint unlines (ls : list string) : string :=
  match ls with
  | [] => ""
  | [s] => s
  | s :: rest => s +:+ fmt.newline +:+ unlines rest
  end.

Definition format_block (block : list line) : string :=
  let depth := fold_left (fun n ln => Nat.max n (List.length ln)) block 0 in
  unlines (format depth [] block).

(** Everything the writer sends to its output for the text written to
    it, after the final [Flush]. *)
Definition Flush (text : string) : string :=
  fold_right (fun block out => format_block block +:+ out) ""
    (cut (GoString.to_list text) [] [] []).

End tabwriter.

Definition tab : string := String "009"%char "".

(** ** Goroutines as threads of effectful programs

    Every call that leaves the goroutine (the remote service, the cache,
    the local disk, standard output, the shared status map) is one atomic
    step.  A program is the tree of the calls it may make; [Spawn] is the
    [go] statement (with its [wg.Add(1)]), [Wait] is [wg.Wait()].  Every
    goroutine begins with [defer wg.Done()], so its [wg.Done()] has run
    once it has returned ([Done]) and also once it has panicked
    ([Panic]). *)

Definition CacheKey : Type := string * string * string * ParserConfigT.

Abbreviation StatusMatrix := (gmap string (gmap string smartling.FileStatus)).

(** The calls of project.go that leave the goroutine:
    - [CLocales] is [client.Locales()];
    - [CUploadTemp] is [uploadAsTempFile(localpath, filetype, parserConfig)],
      a helper declared outside project.go that uploads the file as a
      disposable remote artifact and returns its identifier;
    - [CUpload] is [client.Upload(localpath, &UploadRequest{FileUri: remote,
      FileType: filetype, ParserConfig: pc})];
    - [CStatus] is [client.Status(remote, locale)];
    - [CDelete] is [client.Delete(remote)];
    - [CTranslate] is [translateViaCache] on its four-part key;
    - [CWriteFile] is [ioutil.WriteFile(fp, b, 0644)];
    - [CPrint] writes to standard output;
    - the [CMap] calls are the operations on the shared map [statuses]. *)
Inductive Call : Type -> Type :=
| CLocales : Call (result (list smartling.LocaleInfo))
| CUploadTemp (localpath filetype : string) (pc : ParserConfigT) : Call (result string)
| CUpload (localpath remote filetype : string) (pc : ParserConfigT) : Call (result unit)
| CStatus (remote locale : string) : Call (result smartling.FileStatus)
| CDelete (remote : string) : Call (result unit)
| CTranslate (key : CacheKey) : Call (result (bool * string))
| CWriteFile (fp : string) (b : string) : Call (result unit)
| CPrint (s : string) : Call unit
| CMapInit : Call unit
| CMapHas (f : string) : Call bool
| CMapMake (f : string) : Call unit
| CMapStore (f l : string) (fs : smartling.FileStatus) : Call (result unit)
| CMapRead : Call StatusMatrix.

(** A goroutine: it has returned ([Done]), it has panicked ([Panic]), it
    has reached a template outside the modelled fragment ([Unmodelled]),
    or its next step is a call, a [go] statement or [wg.Wait()]. *)
Inductive Prog : Type :=
| Done
| Panic (msg : string)
| Unmodelled
| Do {A : Type} (c : Call A) (k : A -> Prog)
| Spawn (child : Prog) (k : Prog)
| Wait (k : Prog).

(** [panicIfErr], followed by the rest of the goroutine. *)
Definition orPanic {A} (r : result A) (k : A -> Prog) : Prog :=
  match r with
  | Ok a => k a
  | Err m => Panic m
  end.

(** What a thread did in one step: a call together with what it
    returned, the start of a goroutine, or the return of [wg.Wait()]. *)
Inductive Event : Type :=
| EvSpawn (child : Prog)
| EvWait
| EvLocales (r : result (list smartling.LocaleInfo))
| EvUploadTemp (localpath filetype : string) (pc : ParserConfigT) (r : result string)
| EvUpload (localpath remote filetype : string) (pc : ParserConfigT) (r : result unit)
| EvStatus (remote locale : string) (r : result smartling.FileStatus)
| EvDelete (remote : string) (r : result unit)
| EvTranslate (key : CacheKey) (r : result (bool * string))
| EvWriteFile (fp : string) (b : string) (r : result unit)
| EvPrint (s : string)
| EvMapInit
| EvMapHas (f : string) (ok : bool)
| EvMapMake (f : string)
| EvMapStore (f l : string) (fs : smartling.FileStatus) (r : result unit)
| EvMapRead (m : StatusMatrix).

Definition event_of {A} (c : Call A) : A -> Event :=
  match c in Call A return A -> Event with
  | CLocales => EvLocales
  | CUploadTemp lp ft pc => EvUploadTemp lp ft pc
  | CUpload lp rem ft pc => EvUpload lp rem ft pc
  | CStatus rem l => EvStatus rem l
  | CDelete rem => EvDelete rem
  | CTranslate key => EvTranslate key
  | CWriteFile fp b => EvWriteFile fp b
  | CPrint s => fun _ => EvPrint s
  | CMapInit => fun _ => EvMapInit
  | CMapHas f => EvMapHas f
  | CMapMake f => fun _ => EvMapMake f
  | CMapStore f l fs => EvMapStore f l fs
  | CMapRead => EvMapRead
  end.

(** The world outside the goroutines.  The remote service and the local
    disk are an arbitrary state machine [Backend] over a state [E]; the
    theorems hold for every such machine. *)
Record Backend (E : Type) := {
  be_locales : E -> result (list smartling.LocaleInfo) * E;
  be_upload_temp : string -> string -> ParserConfigT -> E -> result string * E;
  be_upload : string -> string -> string -> ParserConfigT -> E -> result unit * E;
  be_status : string -> string -> E -> result smartling.FileStatus * E;
  be_delete : string -> E -> result unit * E;
  be_fetch : CacheKey -> E -> result string * E;
  be_write_file : string -> string -> E -> result unit * E
}.
Arguments be_locales {E}.
Arguments be_upload_temp {E}.
Arguments be_upload {E}.
Arguments be_status {E}.
Arguments be_delete {E}.
Arguments be_fetch {E}.
Arguments be_write_file {E}.

Record World (E : Type) := {
  env : E;
  (** the map [statuses] of the status command *)
  statuses : StatusMatrix;
  (** the translation cache *)
  cache : gmap CacheKey string
}.
Arguments env {E}.
Arguments statuses {E}.
Arguments cache {E}.

Section Exec.

Context {E : Type} (B : Backend E).

Definition with_env (w : World E) (e : E) : World E :=
  {| env := e; statuses := statuses w; cache := cache w |}.

Definition with_statuses (w : World E) (m : StatusMatrix) : World E :=
  {| env := env w; statuses := m; cache := cache w |}.

Definition lift_env {A} (f : E -> A * E) (w : World E) : A * World E :=
  let '(a, e) := f (env w) in (a, with_env w e).

(** Modelled from the spec: the function [translateViaCache] is declared
    outside project.go.  The spec: "On miss it must perform the fresh
    remote retrieval and persist the result keyed exactly on its
    four-part key before returning; subsequent calls with an identical
    key before the entry is invalidated must return hit=true with
    byte-identical payload."  Concurrent misses are serialized by the
    cache, so the call is one atomic step. *)
Definition translateViaCache (key : CacheKey) (w : World E)
    : result (bool * string) * World E :=
  match cache w !! key with
  | Some b => (Ok (true, b), w)
  | None =>
      match be_fetch B key (env w) with
      | (Ok b, e) =>
          (Ok (false, b),
           {| env := e; statuses := statuses w; cache := <[key := b]> (cache w) |})
      | (Err m, e) => (Err m, with_env w e)
      end
  end.

(** What one call does to the world and what it returns.
    - [CMapInit] is [statuses := make(map...)];
    - [CMapHas f] is [_, ok := statuses[f]];
    - [CMapMake f] is [statuses[f] = make(map...)];
    - [CMapStore f l fs] is [statuses[f][l] = fs], which panics
      (assignment to entry in nil map) when [statuses[f]] is missing. *)
Definition exec {A} (c : Call A) (w : World E) : A * World E :=
  match c in Call A return A * World E with
  | CLocales => lift_env (be_locales B) w
  | CUploadTemp lp ft pc => lift_env (be_upload_temp B lp ft pc) w
  | CUpload lp rem ft pc => lift_env (be_upload B lp rem ft pc) w
  | CStatus rem l => lift_env (be_status B rem l) w
  | CDelete rem => lift_env (be_delete B rem) w
  | CTranslate key => translateViaCache key w
  | CWriteFile fp b => lift_env (be_write_file B fp b) w
  | CPrint s => (tt, w)
  | CMapInit => (tt, with_statuses w ∅)
  | CMapHas f => (bool_decide (is_Some (statuses w !! f)), w)
  | CMapMake f => (tt, with_statuses w (<[f := ∅]> (statuses w)))
  | CMapStore f l fs =>
      match statuses w !! f with
      | Some mm => (Ok tt, with_statuses w (<[f := <[l := fs]> mm]> (statuses w)))
      | None => (Err "assignment to entry in nil map", w)
      end
  | CMapRead => (statuses w, w)
  end.

(** *** The pool of goroutines

    Thread 0 is the command's [Action]; the threads it spawns follow in
    spawning order.  Each thread keeps the program it started as next to
    what is left of it.  [trace] lists the steps made so far with the
    thread that made them. *)
Record Pool := {
  threads : list (Prog * Prog);
  world : World E;
  trace : list (nat * Event)
}.

Definition init (main : Prog) (w : World E) : Pool :=
  {| threads := [(main, main)]; world := w; trace := [] |}.

(** The deferred [wg.Done()] of a goroutine (lines 60, 114, 181) has
    run: the goroutine has returned, or it has panicked (deferred calls
    run while a goroutine panics).  A goroutine at [Unmodelled] has left
    the modelled fragment; nothing is said about what follows it, so no
    [Wait] passes on it. *)
Definition wg_done (p : Prog) : bool :=
  match p with Done | Panic _ => true | _ => false end.

(** [wg.Wait()] of thread [i] returns once the [wg.Done()] of every
    other goroutine has run. *)
Fixpoint others_done (i : nat) (ts : list (Prog * Prog)) : bool :=
  match ts, i with
  | [], _ => true
  | _ :: ts', O => forallb (fun t => wg_done (snd t)) ts'
  | t :: ts', S i' => wg_done (snd t) && others_done i' ts'
  end.

(** One step of thread [i].  A thread that is done, has panicked or is
    blocked in [Wait] does not move.  A panic ends the process, but not
    at once: the other goroutines may still move after it, and a
    schedule may as well stop there. *)
Definition step (i : nat) (P : Pool) : Pool :=
  match threads P !! i with
  | Some (o, Do c k) =>
      let '(a, w) := exec c (world P) in
      {| threads := <[i := (o, k a)]> (threads P);
         world := w;
         trace := trace P ++ [(i, event_of c a)] |}
  | Some (o, Spawn child k) =>
      {| threads := <[i := (o, k)]> (threads P) ++ [(child, child)];
         world := world P;
         trace := trace P ++ [(i, EvSpawn child)] |}
  | Some (o, Wait k) =>
      if others_done i (threads P)
      then {| threads := <[i := (o, k)]> (threads P);
              world := world P;
              trace := trace P ++ [(i, EvWait)] |}
      else P
  | _ => P
  end.

Definition run_sched (sched : list nat) (P : Pool) : Pool :=
  fold_left (fun P i => step i P) sched P.

(** What is left of thread [i]. *)
Definition current (i : nat) (P : Pool) : option Prog :=
  snd <$> threads P !! i.

(** The steps thread [i] has made, in order. *)
Definition events_of (i : nat) (tr : list (nat * Event)) : list Event :=
  map snd (filter (fun te => fst te = i) tr).

(** The command has returned. *)
Definition returned (P : Pool) : Prop := current 0 P = Some Done.

End Exec.

Arguments Pool : clear implicits.

(** ** The three commands

    The [Action] of each subcommand.  ([ProjectCommand.Before] lets them
    run only when the project configuration was loaded; its [After]
    removes temporary files once the command has returned.) *)

Section Commands.

Variable ProjectConfig : Config.

Variable defaultPullDestination : string.

Variable FileTypeByExtension : string -> string.

(** [pushPrefix()], the default prefix taken from the environment (the
    git branch or the user name); declared outside project.go. *)
Variable pushPrefix : string.

Local Abbreviation filetypeFor := (filetypeForProjectFile ProjectConfig FileTypeByExtension).

Local Abbreviation localRel := (localRelativeFilePath ProjectConfig).

Local Abbreviation parserConfig := (ParserConfig (FileConfig ProjectConfig)).

(** [for _, x := range xs { go ... }]: one goroutine per element. *)
Fixpoint spawn_each {X} (xs : list X) (unit_of : X -> Prog) (k : Prog) : Prog :=
  match xs with
  | [] => k
  | x :: xs' => Spawn (unit_of x) (spawn_each xs' unit_of k)
  end.

(** *** status (lines 36-99) *)

(** The goroutine of one (file, locale) pair, lines 59-71. *)
Definition status_unit (tmpfile locale projectFilepath : string) : Prog :=
  Do (CStatus tmpfile locale) (fun r =>
  orPanic r (fun fs =>
  let store :=
    Do (CMapStore projectFilepath locale fs) (fun r => orPanic r (fun _ => Done)) in
  Do (CMapHas projectFilepath) (fun ok =>
  if ok then store
  else Do (CMapMake projectFilepath) (fun _ => store)))).

Definition status_cell (m : StatusMatrix) (projectFilepath locale : string) : string :=
  let status := default smartling.zero_status (m !! projectFilepath ≫= (.!! locale)) in
  fmt.Sprint [fmt.OStr tab;
              fmt.OInt (smartling.AwaitingAuthorizationCount status); fmt.OStr "->";
              fmt.OInt (smartling.InProgressCount status); fmt.OStr "->";
              fmt.OInt (smartling.CompletedStringCount status)].

Definition status_row (m : StatusMatrix) (locales : list smartling.LocaleInfo)
    (projectFilepath : string) : string :=
  fmt.Sprint [fmt.OStr projectFilepath]
  +:+ String.concat "" (map (fun l => status_cell m projectFilepath (smartling.Locale l)) locales)
  +:+ fmt.Sprint [fmt.OStr fmt.newline].

Definition status_header (locales : list smartling.LocaleInfo) : string :=
  fmt.Sprint [fmt.OStr " "]
  +:+ String.concat "" (map (fun l => fmt.Sprint [fmt.OStr tab; fmt.OStr (smartling.Locale l)]) locales)
  +:+ fmt.Sprint [fmt.OStr fmt.newline].

(** Everything written to the tabwriter, lines 83-96. *)
Definition status_table (m : StatusMatrix) (locales : list smartling.LocaleInfo)
    (files : list string) : string :=
  status_header locales +:+ String.concat "" (map (status_row m locales) files).

Definition status_legend : string :=
  "Translation counts: Awaiting Authorization -> In Progress -> Completed".

(** Lines 76-97, after [wg.Wait()]. *)
Definition status_render (locales : list smartling.LocaleInfo) : Prog :=
  Do (CPrint fmt.newline) (fun _ =>
  Do (CPrint (fmt.Sprintln [fmt.OStr status_legend])) (fun _ =>
  Do (CPrint fmt.newline) (fun _ =>
  Do CMapRead (fun m =>
  Do (CPrint (tabwriter.Flush (status_table m locales (Files ProjectConfig)))) (fun _ =>
  Done))))).

(** The loop over the files, lines 49-73: the temporary upload is made
    by the command itself, then one goroutine per locale is started. *)
Fixpoint status_files (files : list string) (locales : list smartling.LocaleInfo)
    (k : Prog) : Prog :=
  match files with
  | [] => k
  | projectFilepath :: files' =>
      orPanic (localRel projectFilepath) (fun lp =>
      orPanic (filetypeFor projectFilepath) (fun ft =>
      Do (CUploadTemp lp ft parserConfig) (fun r =>
      orPanic r (fun tmpfile =>
      spawn_each locales
        (fun l => status_unit tmpfile (smartling.Locale l) projectFilepath)
        (status_files files' locales k)))))
  end.

Definition projectStatusCommand : Prog :=
  Do CLocales (fun r =>
  orPanic r (fun locales =>
  Do CMapInit (fun _ =>
  status_files (Files ProjectConfig) locales
    (Wait (status_render locales))))).

(** *** pull (lines 101-137) *)

Definition pull_key (locale lp ft : string) : CacheKey := (locale, lp, ft, parserConfig).

(** The goroutine of one (file, locale) pair, lines 113-132. *)
Definition pull_unit (locale projectFilepath : string) : Prog :=
  orPanic (localRel projectFilepath) (fun lp =>
  orPanic (filetypeFor projectFilepath) (fun ft =>
  Do (CTranslate (pull_key locale lp ft)) (fun r =>
  orPanic r (fun '(hit, b) =>
  match localPullFilePath ProjectConfig defaultPullDestination projectFilepath locale with
  | None => Unmodelled
  | Some r =>
      orPanic r (fun fp =>
      let cached := if hit : bool then "(using cache)" else "" in
      Do (CPrint (fmt.Sprintln [fmt.OStr fp; fmt.OStr cached])) (fun _ =>
      Do (CWriteFile fp b) (fun r =>
      orPanic r (fun _ => Done))))
  end)))).

Definition pairs_of (files : list string) (locales : list smartling.LocaleInfo)
    : list (string * string) :=
  flat_map (fun f => map (fun l => (f, smartling.Locale l)) locales) files.

Definition projectPullCommand : Prog :=
  Do CLocales (fun r =>
  orPanic r (fun locales =>
  spawn_each (pairs_of (Files ProjectConfig) locales)
    (fun '(f, l) => pull_unit l f)
    (Wait Done))).

(** *** push (lines 139-212) *)

(** The prefix [getPrefix] returns for the value of the [--prefix] flag. *)
Definition prefixOf (flag : string) : string :=
  cleanPrefix (if String.eqb flag "" then pushPrefix else flag).

Definition getPrefix (flag : string) (k : string -> Prog) : Prog :=
  let prefix := prefixOf flag in
  if negb (String.eqb prefix "")
  then Do (CPrint (fmt.Sprintln [fmt.OStr "Using prefix"; fmt.OStr prefix])) (fun _ => k prefix)
  else k prefix.

Definition push_line (fs : smartling.FileStatus) (remote : string) : string :=
  fmt.d3 (smartling.AwaitingAuthorizationCount fs)
  +:+ " unauthorised strings in " +:+ remote +:+ fmt.newline.

(** Lines 204-206. *)
Definition push_report (hasNewStrings : bool) (fs : smartling.FileStatus)
    (remote : string) : Prog :=
  if hasNewStrings then Do (CPrint (push_line fs remote)) (fun _ => Done) else Done.

(** The goroutine of one file, lines 180-208. *)
Definition push_unit (prefix firstLocale projectFilepath : string) : Prog :=
  let remote := remoteFile prefix projectFilepath in
  orPanic (filetypeFor projectFilepath) (fun ft =>
  Do (CUpload projectFilepath remote ft parserConfig) (fun r =>
  orPanic r (fun _ =>
  Do (CStatus remote firstLocale) (fun r =>
  orPanic r (fun fs =>
  if negb (String.eqb prefix "") then
    if (smartling.AwaitingAuthorizationCount fs =? 0)%Z then
      Do (CDelete remote) (fun r =>
      orPanic r (fun _ => push_report false fs remote))
    else push_report true fs remote
  else push_report true fs remote))))).

Definition projectPushCommand (flag : string) : Prog :=
  getPrefix flag (fun prefix =>
  Do CLocales (fun r =>
  orPanic r (fun locales =>
  match locales with
  | [] => Panic "runtime error: index out of range"
  | l0 :: _ =>
      let firstLocale := smartling.Locale l0 in
      spawn_each (Files ProjectConfig) (push_unit prefix firstLocale) (Wait Done)
  end))).

End Commands.

(** * The vocabulary of the properties *)

(** ** Programs and their steps *)

(** [replays p es q]: program [p], making the steps [es] (with the
    answers recorded there), becomes [q]. *)
Fixpoint replays (p : Prog) (es : list Event) (q : Prog) : Prop :=
  (es = [] /\ q = p) \/
  match p with
  | Do c k => exists a es', es = event_of c a :: es' /\ replays (k a) es' q
  | Spawn child k => exists es', es = EvSpawn child :: es' /\ replays k es' q
  | Wait k => exists es', es = EvWait :: es' /\ replays k es' q
  | _ => False
  end.

(** [spawns Q p]: every goroutine started by [p], or by a goroutine it
    starts, is a program satisfying [Q]. *)
Fixpoint spawns (Q : Prog -> Prop) (p : Prog) : Prop :=
  match p with
  | Do c k => forall a, spawns Q (k a)
  | Spawn child k => Q child /\ spawns Q child /\ spawns Q k
  | Wait k => spawns Q k
  | _ => True
  end.

(** [nospawn p]: [p] starts no goroutine. *)
Fixpoint nospawn (p : Prog) : Prop :=
  match p with
  | Do c k => forall a, nospawn (k a)
  | Spawn _ _ => False
  | Wait k => nospawn k
  | _ => True
  end.

(** [joins p]: [p] cannot return without passing a [Wait], after which it
    starts no goroutine; the goroutines it starts start none. *)
Fixpoint joins (p : Prog) : Prop :=
  match p with
  | Done => False
  | Do c k => forall a, joins (k a)
  | Spawn child k => nospawn child /\ joins k
  | Wait k => nospawn k
  | _ => True
  end.

(** [own ok p]: every step [p] itself makes satisfies [ok]. *)
Fixpoint own (ok : Event -> Prop) (p : Prog) : Prop :=
  match p with
  | Do c k => forall a, ok (event_of c a) /\ own ok (k a)
  | Spawn child k => ok (EvSpawn child) /\ own ok k
  | Wait k => ok EvWait /\ own ok k
  | _ => True
  end.

(** A goroutine run alone, up to its end (or to a [go] or a [Wait]):
    what is left of it, the world it leaves and the calls it made. *)
Fixpoint run_alone {E : Type} (B : Backend E) (p : Prog) (w : World E)
    : Prog * World E * list Event :=
  match p with
  | Do c k =>
      let '(a, w1) := exec B c w in
      let '(q, w2, es) := run_alone B (k a) w1 in
      (q, w2, event_of c a :: es)
  | _ => (p, w, [])
  end.

(** What the command printed, in order. *)
Definition stdout_of (tr : list (nat * Event)) : string :=
  String.concat "" (flat_map (fun te => match te.2 with EvPrint s => [s] | _ => [] end) tr).

(** The entry of a (file, locale) pair in the status matrix. *)
Definition cell_of (m : StatusMatrix) (f l : string) : option smartling.FileStatus :=
  m !! f ≫= (.!! l).

(** ** Invariants of the pool *)

(** The steps that change the pool. *)
Inductive Step {E : Type} (B : Backend E) (i : nat) (P : Pool E) : Pool E -> Prop :=
| Step_do {A} o (c : Call A) k :
    threads P !! i = Some (o, Do c k) ->
    Step B i P {| threads := <[i := (o, k (exec B c (world P)).1)]> (threads P);
                world := (exec B c (world P)).2;
                trace := trace P ++ [(i, event_of c (exec B c (world P)).1)] |}
| Step_spawn o child k :
    threads P !! i = Some (o, Spawn child k) ->
    Step B i P {| threads := <[i := (o, k)]> (threads P) ++ [(child, child)];
                world := world P;
                trace := trace P ++ [(i, EvSpawn child)] |}
| Step_wait o k :
    threads P !! i = Some (o, Wait k) ->
    others_done i (threads P) = true ->
    Step B i P {| threads := <[i := (o, k)]> (threads P);
                world := world P;
                trace := trace P ++ [(i, EvWait)] |}.

(** Only existing threads occur in the trace, and the steps of every
    thread replay the program it was started as. *)
Definition traced {E : Type} (P : Pool E) : Prop :=
  (forall j e, (j, e) ∈ trace P -> j < length (threads P)) /\
  (forall i o c, threads P !! i = Some (o, c) -> replays o (events_of i (trace P)) c).

(** Every goroutine is a program satisfying [Q], and so is every one
    still to be started. *)
Definition spawning {E : Type} (Q : Prog -> Prop) (P : Pool E) : Prop :=
  forall i o c, threads P !! i = Some (o, c) -> spawns Q c /\ (0 < i -> Q o).

(** Every goroutine was started by a [go] statement of the trace. *)
Definition started {E : Type} (P : Pool E) : Prop :=
  forall i o c, 0 < i -> threads P !! i = Some (o, c) ->
    exists j, (j, EvSpawn o) ∈ trace P.

(** A goroutine has finished: it has returned or it has panicked. *)
Definition finished (p : Prog) : Prop := p = Done \/ exists m, p = Panic m.

(** The command is thread 0; its goroutines start none; and either it
    has still to pass its [Wait] or all its goroutines have finished. *)
Definition joining {E : Type} (P : Pool E) : Prop :=
  exists o c rest,
    threads P = (o, c) :: rest /\
    Forall (fun t => nospawn t.2) rest /\
    (joins c \/ (nospawn c /\ Forall (fun t => finished t.2) rest)).

(** ** The steps of the goroutines *)

(** What a push goroutine may do: upload its file to its remote path,
    ask for the status of that path in the first locale, delete that
    path (with a prefix only), print. *)
Definition push_unit_step (prefix first f : string) (e : Event) : Prop :=
  match e with
  | EvUpload f' remote _ _ _ => f' = f /\ remote = remoteFile prefix f
  | EvStatus remote l _ => remote = remoteFile prefix f /\ l = first
  | EvDelete remote _ => remote = remoteFile prefix f /\ prefix <> ""
  | EvPrint _ => True
  | _ => False
  end.

(** The steps of a push goroutine that has finished. *)
Definition push_unit_run (ProjectConfig : Config) (prefix first f ft : string)
    (fs : smartling.FileStatus) : list Event :=
  let remote := remoteFile prefix f in
  [EvUpload f remote ft (ParserConfig (FileConfig ProjectConfig)) (Ok tt);
   EvStatus remote first (Ok fs)]
  ++ (if negb (String.eqb prefix "") && (smartling.AwaitingAuthorizationCount fs =? 0)%Z
      then [EvDelete remote (Ok tt)]
      else [EvPrint (push_line fs remote)]).

(** What the command itself may do: print the prefix, list the
    locales, start the goroutines, wait. *)
Definition push_main_step (e : Event) : Prop :=
  match e with
  | EvPrint _ | EvLocales _ | EvSpawn _ | EvWait => True
  | _ => False
  end.

(** The steps of a pull goroutine, given what the cache and the disk
    answer. *)
Definition pull_unit_run (key : CacheKey) (hit : bool) (b fp : string)
    (r : result unit) : list Event :=
  [EvTranslate key (Ok (hit, b));
   EvPrint (fmt.Sprintln [fmt.OStr fp; fmt.OStr (if hit then "(using cache)" else "")]);
   EvWriteFile fp b r].

(** The steps of the loops that start the goroutines. *)
Definition loop_step (e : Event) : Prop :=
  match e with
  | EvUploadTemp _ _ _ _ | EvSpawn _ => True
  | _ => False
  end.

(** The steps of the status command after the join. *)
Definition status_render_run (ProjectConfig : Config) (m : StatusMatrix)
    (locales : list smartling.LocaleInfo) : list Event :=
  [EvWait; EvPrint fmt.newline; EvPrint (fmt.Sprintln [fmt.OStr status_legend]);
   EvPrint fmt.newline; EvMapRead m;
   EvPrint (tabwriter.Flush (status_table m locales (Files ProjectConfig)))].

(** ** Paths in clean form *)

(** [strings.Split(p, "/")]. *)
Fixpoint split_sep (s : string) : list string :=
  match s with
  | EmptyString => [""]
  | String c s' =>
      if filepath.IsPathSeparator c then "" :: split_sep s'
      else match split_sep s' with
           | e :: r => String c e :: r
           | [] => [String c ""]
           end
  end.

(** No separator occurs in [e]. *)
Fixpoint no_sep (e : string) : bool :=
  match e with
  | EmptyString => true
  | String c e' => negb (filepath.IsPathSeparator c) && no_sep e'
  end.

(** A path element that [Clean] keeps as it is. *)
Definition plain_elem (e : string) : bool :=
  negb (String.eqb e "") && negb (String.eqb e ".") && negb (String.eqb e "..") && no_sep e.

(** A relative path in clean form that does not climb out of its root:
    elements separated by single slashes, none of them empty, [.] or
    [..]. *)
Definition plain_path (p : string) : bool := forallb plain_elem (split_sep p).

(** The output buffer after the separator that precedes an element: none
    when the buffer holds just the root. *)
Definition with_sep (out : list ascii) : list ascii :=
  if (List.length out =? 1)%nat then out else filepath.Separator :: out.

(** What [Clean] writes for a list of plain elements. *)
Fixpoint emit (elems : list string) (out : list ascii) : list ascii :=
  match elems with
  | [] => out
  | e :: rest => emit rest (rev (GoString.to_list e) ++ with_sep out)
  end.

(** ** A small backend to run the commands on

    A remote service that lists the given locales, accepts every upload,
    answers status queries for uploaded paths from a table, and a disk
    that accepts every write. *)

Record DemoEnv := {
  demo_remote : list string;
  demo_disk : list (string * string)
}.

Definition demo_backend (locales : list string)
    (status_of : string -> string -> smartling.FileStatus) : Backend DemoEnv :=
  {| be_locales := fun e => (Ok (map smartling.Build_LocaleInfo locales), e);
     be_upload_temp := fun lp ft pc e =>
       let tmp := "/tmp/" +:+ lp in
       (Ok tmp, {| demo_remote := tmp :: demo_remote e; demo_disk := demo_disk e |});
     be_upload := fun lp remote ft pc e =>
       (Ok tt, {| demo_remote := remote :: demo_remote e; demo_disk := demo_disk e |});
     be_status := fun remote locale e =>
       if existsb (String.eqb remote) (demo_remote e)
       then (Ok (status_of remote locale), e)
       else (Err ("no such file: " +:+ remote), e);
     be_delete := fun remote e =>
       (Ok tt, {| demo_remote := List.filter (fun r => negb (String.eqb remote r)) (demo_remote e);
                  demo_disk := demo_disk e |});
     be_fetch := fun '(locale, lp, _, _) e => (Ok (locale +:+ ":" +:+ lp), e);
     be_write_file := fun fp b e =>
       (Ok tt, {| demo_remote := demo_remote e; demo_disk := (fp, b) :: demo_disk e |}) |}.

Definition demo_world : World DemoEnv :=
  {| env := {| demo_remote := []; demo_disk := [] |}; statuses := ∅; cache := ∅ |}.

(** The file types by extension: only [.json] is known. *)
Definition demo_filetypes (ext : string) : string :=
  if String.eqb ext ".json" then "json" else "".

(** A project rooted in the working directory. *)
Definition demo_config (files : list string) (pull_template : string) : Config :=
  {| path := ".";
     Files := files;
     FileConfig := {| FileType := ""; ParserConfig := []; PullFilePath := pull_template |} |}.

(** A status with the given three counts. *)
Definition counts (awaiting in_progress completed : Z) : smartling.FileStatus :=
  {| smartling.AwaitingSubStates := [awaiting];
     smartling.InProgressSubStates := [in_progress];
     smartling.CompletedStringCount := completed |}.

(** Every file has two strings awaiting authorization, except
    [copy.json] under a prefix, which has none. *)
Definition demo_push_status (remote locale : string) : smartling.FileStatus :=
  if String.eqb remote "/feature-x/copy.json" then counts 0 0 7 else counts 2 1 5.

(** A push run over [copy.json] and [new.json]. *)
Definition demo_push (flag : string) (sched : list nat) : Pool DemoEnv :=
  run_sched (demo_backend ["fr-FR"; "de-DE"] demo_push_status) sched
    (init (projectPushCommand (demo_config ["copy.json"; "new.json"] "") demo_filetypes "" flag)
       demo_world).

(** A service that lists no locale. *)
Definition no_locales_backend : Backend DemoEnv := demo_backend [] demo_push_status.

Definition no_locales_push (sched : list nat) : Pool DemoEnv :=
  run_sched no_locales_backend sched
    (init (projectPushCommand (demo_config ["copy.json"] "") demo_filetypes "" "feature-x")
       demo_world).

Definition demo_pull_config : Config :=
  demo_config ["a/b.json"] "{{.Dir}}/{{.Locale}}/{{.Base}}".

(** One pull of ([a/b.json], [fr-FR]), run alone. *)
Definition demo_pull (w : World DemoEnv) : Prog * World DemoEnv * list Event :=
  run_alone (demo_backend ["fr-FR"] demo_push_status)
    (pull_unit demo_pull_config "{{.Path}}" demo_filetypes "fr-FR" "a/b.json") w.

(** The statuses of the scenario: (2, 1, 5) for [fr-FR], (0, 0, 7) for the
    other locale. *)
Definition demo_status_of (tmpfile locale : string) : smartling.FileStatus :=
  if String.eqb locale "fr-FR" then counts 2 1 5 else counts 0 0 7.

Definition demo_status_config : Config := demo_config ["strings.json"] "".

(** A status run over [strings.json] for [fr-FR] and [de-DE]. *)
Definition demo_status (sched : list nat) : Pool DemoEnv :=
  run_sched (demo_backend ["fr-FR"; "de-DE"] demo_status_of) sched
    (init (projectStatusCommand demo_status_config demo_filetypes) demo_world).

(** The command starts both goroutines; then one goroutine runs after
    the other; then the command joins and prints. *)
Definition sched_one_by_one : list nat :=
  [0; 0; 0; 0; 0] ++ [1; 1; 1; 1] ++ [2; 2; 2] ++ [0; 0; 0; 0; 0; 0].

(** Both goroutines look [statuses[projectFilepath]] up (line 65) before
    either of them creates the inner map (line 68). *)
Definition sched_interleaved : list nat :=
  [0; 0; 0; 0; 0] ++ [1; 2] ++ [1; 2] ++ [1; 1] ++ [2; 2] ++ [0; 0; 0; 0; 0; 0].

Definition fr_FR : smartling.LocaleInfo := {| smartling.Locale := "fr-FR" |}.

Definition de_DE : smartling.LocaleInfo := {| smartling.Locale := "de-DE" |}.

(** The table of the scenario, as the tabwriter lays it out. *)
Definition scenario_table : string :=
  "             fr-FR   de-DE" +:+ fmt.newline +:+
  "strings.json 2->1->5 0->0->7" +:+ fmt.newline.

(** A service that cannot be reached: listing the locales fails. *)
Definition offline_backend : Backend DemoEnv :=
  {| be_locales := fun e => (Err "connection refused", e);
     be_upload_temp := be_upload_temp (demo_backend [] demo_push_status);
     be_upload := be_upload (demo_backend [] demo_push_status);
     be_status := be_status (demo_backend [] demo_push_status);
     be_delete := be_delete (demo_backend [] demo_push_status);
     be_fetch := be_fetch (demo_backend [] demo_push_status);
     be_write_file := be_write_file (demo_backend [] demo_push_status) |}.

(** ** The steps of the status and pull commands *)

(** What the status command itself may do. *)
Definition status_main_step (e : Event) : Prop :=
  match e with
  | EvLocales _ | EvMapInit | EvUploadTemp _ _ _ _ | EvSpawn _ | EvWait
  | EvPrint _ | EvMapRead _ => True
  | _ => False
  end.

(** What a status goroutine may do: ask for the status of its temporary
    file in its locale, and look up, create and fill the row of its
    project file. *)
Definition status_unit_step (tmpfile locale f : string) (e : Event) : Prop :=
  match e with
  | EvStatus remote l _ => remote = tmpfile /\ l = locale
  | EvMapHas f' _ => f' = f
  | EvMapMake f' => f' = f
  | EvMapStore f' l _ _ => f' = f /\ l = locale
  | _ => False
  end.

(** What the pull command itself may do. *)
Definition pull_main_step (e : Event) : Prop :=
  match e with
  | EvLocales _ | EvSpawn _ | EvWait => True
  | _ => False
  end.

(** What a pull goroutine may do: translate, print, write. *)
Definition pull_unit_step (e : Event) : Prop :=
  match e with
  | EvTranslate _ _ | EvPrint _ | EvWriteFile _ _ _ => True
  | _ => False
  end.

(** The steps of a status goroutine that has finished: [made] tells
    whether it created the row of its file. *)
Definition status_unit_run (tmpfile locale f : string) (fs : smartling.FileStatus)
    (made : bool) : list Event :=
  [EvStatus tmpfile locale (Ok fs)]
  ++ (if made then [EvMapHas f false; EvMapMake f] else [EvMapHas f true])
  ++ [EvMapStore f locale fs (Ok tt)].

(** A pull run over [a/b.json] for [fr-FR] and [de-DE]. *)
Definition demo_pull_run (sched : list nat) : Pool DemoEnv :=
  run_sched (demo_backend ["fr-FR"; "de-DE"] demo_push_status) sched
    (init (projectPullCommand demo_pull_config "{{.Path}}" demo_filetypes) demo_world).

(** A project whose path is absolute. *)
Definition rooted_config : Config :=
  {| path := "/srv/project";
     Files := ["a/b.json"];
     FileConfig := {| FileType := "json"; ParserConfig := [];
                      PullFilePath := "{{.Dir}}/{{.Locale}}/{{.Base}}" |} |}.

(** ** The steps of a goroutine that has panicked *)

(** The steps of a push goroutine that has panicked with [m]: the file
    type could not be determined, or the upload, the status query or
    the delete failed. *)
Definition push_unit_panic (ProjectConfig : Config) (FileTypeByExtension : string -> string)
    (prefix first f m : string) (es : list Event) : Prop :=
  let remote := remoteFile prefix f in
  let pc := ParserConfig (FileConfig ProjectConfig) in
  (filetypeForProjectFile ProjectConfig FileTypeByExtension f = Err m /\ es = []) \/
  exists ft,
    filetypeForProjectFile ProjectConfig FileTypeByExtension f = Ok ft /\
    (es = [EvUpload f remote ft pc (Err m)] \/
     es = [EvUpload f remote ft pc (Ok tt); EvStatus remote first (Err m)] \/
     exists fs,
       prefix <> "" /\ smartling.AwaitingAuthorizationCount fs = 0%Z /\
       es = [EvUpload f remote ft pc (Ok tt); EvStatus remote first (Ok fs);
             EvDelete remote (Err m)]).

(** The steps of a status goroutine that has panicked with [m]: the
    status query failed, or the store into the map did. *)
Definition status_unit_panic (tmpfile locale f m : string) (es : list Event) : Prop :=
  es = [EvStatus tmpfile locale (Err m)] \/
  exists fs made,
    es = [EvStatus tmpfile locale (Ok fs)]
         ++ (if made : bool then [EvMapHas f false; EvMapMake f] else [EvMapHas f true])
         ++ [EvMapStore f locale fs (Err m)].

(** The steps of a pull goroutine that has panicked with [m]: the local
    path or the file type could not be determined, the translation
    failed, the destination could not be computed, or the write failed. *)
Definition pull_unit_panic (ProjectConfig : Config) (defaultPullDestination : string)
    (FileTypeByExtension : string -> string) (locale f m : string) (es : list Event) : Prop :=
  (localRelativeFilePath ProjectConfig f = Err m /\ es = []) \/
  exists lp,
    localRelativeFilePath ProjectConfig f = Ok lp /\
    ((filetypeForProjectFile ProjectConfig FileTypeByExtension f = Err m /\ es = []) \/
     exists ft,
       filetypeForProjectFile ProjectConfig FileTypeByExtension f = Ok ft /\
       let key := (locale, lp, ft, ParserConfig (FileConfig ProjectConfig)) in
       (es = [EvTranslate key (Err m)] \/
        exists hit b,
          (localPullFilePath ProjectConfig defaultPullDestination f locale = Some (Err m) /\
           es = [EvTranslate key (Ok (hit, b))]) \/
          exists fp,
            localPullFilePath ProjectConfig defaultPullDestination f locale = Some (Ok fp) /\
            es = pull_unit_run key hit b fp (Err m))).

(** A service whose status query fails for [fr-FR]. *)
Definition no_french_backend : Backend DemoEnv :=
  {| be_locales := be_locales (demo_backend ["fr-FR"; "de-DE"] demo_status_of);
     be_upload_temp := be_upload_temp (demo_backend ["fr-FR"; "de-DE"] demo_status_of);
     be_upload := be_upload (demo_backend ["fr-FR"; "de-DE"] demo_status_of);
     be_status := fun remote locale e =>
       if String.eqb locale "fr-FR" then (Err "no status for fr-FR", e)
       else be_status (demo_backend ["fr-FR"; "de-DE"] demo_status_of) remote locale e;
     be_delete := be_delete (demo_backend ["fr-FR"; "de-DE"] demo_status_of);
     be_fetch := be_fetch (demo_backend ["fr-FR"; "de-DE"] demo_status_of);
     be_write_file := be_write_file (demo_backend ["fr-FR"; "de-DE"] demo_status_of) |}.

(** A status run over [strings.json] on that service. *)
Definition demo_status_panic (sched : list nat) : Pool DemoEnv :=
  run_sched no_french_backend sched
    (init (projectStatusCommand demo_status_config demo_filetypes) demo_world).

(** The command starts both goroutines; the first panics on its status
    query, the second runs to its end; then the command joins and
    prints. *)
Definition sched_after_panic : list nat :=
  [0; 0; 0; 0; 0] ++ [1] ++ [2; 2; 2; 2] ++ [0; 0; 0; 0; 0; 0].

(** * Properties *)

(** ** The library functions on concrete inputs *)

Example Clean_examples :
  map filepath.Clean
    ["abc"; "abc/def"; "a/b/c"; "."; ".."; "../.."; "../../abc"; "/abc"; "/"; "";
     "abc/"; "abc/def/"; "a/b/c/"; "./"; "../"; "../../"; "/abc/";
     "abc//def//ghi"; "//abc"; "///abc"; "//abc//"; "abc//";
     "abc/./def"; "/./abc/def"; "abc/.";
     "abc/def/ghi/../jkl"; "abc/def/../ghi/../jkl"; "abc/def/.."; "abc/def/../..";
     "/abc/def/../.."; "abc/def/../../.."; "/abc/def/../../..";
     "abc/def/../../../ghi/jkl/../../../mno"; "/../abc";
     "abc/./../def"; "abc//./../def"; "abc/../../././../def";
     "/feature-x/copy.json"; "..a/..."; "//feature-x//"]
  = ["abc"; "abc/def"; "a/b/c"; "."; ".."; "../.."; "../../abc"; "/abc"; "/"; ".";
     "abc"; "abc/def"; "a/b/c"; "."; ".."; "../.."; "/abc";
     "abc/def/ghi"; "/abc"; "/abc"; "/abc"; "abc";
     "abc/def"; "/abc/def"; "abc";
     "abc/def/jkl"; "abc/jkl"; "abc"; ".";
     "/"; ".."; "/";
     "../../mno"; "/abc";
     "def"; "def"; "../../def";
     "/feature-x/copy.json"; "..a/..."; "/feature-x"].
Proof. vm_compute. reflexivity. Qed.

Example Rel_dot_examples :
  map filepath.Rel_dot [""; "."; "a/b"; "a/b.json"; "proj/a/../b"; ".."; "../x"]
  = map Ok ["."; "."; "a/b"; "a/b.json"; "proj/b"; ".."; "../x"]
  /\ filepath.Rel_dot "/abs/x" = Err "Rel: can't make /abs/x relative to .".
Proof. vm_compute. split; reflexivity. Qed.

Example Base_Dir_Ext_Join_examples :
  map filepath.Base
    [""; "."; "/."; "/"; "////"; "x/"; "abc"; "abc/def"; "a/b/.x"; "a/b/c."; "a/b/c.x"]
  = ["."; "."; "."; "/"; "/"; "x"; "abc"; "def"; ".x"; "c."; "c.x"]
  /\ map filepath.Dir
       [""; "."; "/."; "/"; "////"; "/foo"; "x/"; "abc"; "abc/def"; "a/b/.x"; "a/b/c.";
        "a/b/c.x"; "a/b.json"]
     = ["."; "."; "/"; "/"; "/"; "/"; "x"; "."; "abc"; "a/b"; "a/b"; "a/b"; "a"]
  /\ map filepath.Ext ["path.go"; "path.pb.go"; "a.dir/b"; "a.dir/b.go"; "a.dir/"; "x/y.tar.gz"]
     = [".go"; ".go"; ""; ".go"; ""; ".gz"]
  /\ map filepath.Join
       [["a"; "b"]; ["a"; ""]; [""; "b"]; ["/"; "a"]; ["/"; ""]; ["a/"; "b"];
        ["a/"; ""]; [""; ""]; []; [""]; ["a"]; ["."; "a/fr-FR/b.json"]; ["."; ""]]
     = ["a/b"; "a"; "b"; "/a"; "/"; "a/b"; "a"; ""; ""; ""; "a"; "a/fr-FR/b.json"; "."].
Proof. vm_compute. repeat split; reflexivity. Qed.

Example fmt_examples :
  (fmt.Sprint [fmt.OStr "a"; fmt.OInt 2; fmt.OInt (-3); fmt.OStr "->"; fmt.OInt 0],
   fmt.Sprintln [fmt.OStr "a/b"; fmt.OStr ""],
   map fmt.d3 [0; 7; 42; 1234; -5]%Z)
  = ("a2 -3->0", String.append "a/b " (String "010"%char ""),
     ["  0"; "  7"; " 42"; "1234"; " -5"]).
Proof. vm_compute. reflexivity. Qed.

Example template_Parse_examples :
  map template.Parse
    [""; "{{.Dir}}/{{.Locale}}/{{.Base}}"; "{{ TrimSuffix .Path .Ext }}.{{.Locale}}{{.Ext}}";
     "{{.Path}}"; "x{y}"; "{{.Dir"; "{{- .Dir}}"; "{{.}}"; "{{.a.b}}"; "{{ if .X }}a{{end}}"]
  = [Some [];
     Some [template.Field "Dir"; template.Text "/"; template.Field "Locale";
           template.Text "/"; template.Field "Base"];
     Some [template.CallTrimSuffix "Path" "Ext"; template.Text "."; template.Field "Locale";
           template.Field "Ext"];
     Some [template.Field "Path"]; Some [template.Text "x{y}"];
     None; None; None; None; None].
Proof. vm_compute. reflexivity. Qed.

Example cleanPrefix_examples :
  map cleanPrefix [""; "/"; "feature-x"; "/feature-x/"; "a/../"; "users/bob"; ".."]
  = [""; ""; "/feature-x"; "/feature-x"; ""; "/users/bob"; ""].
Proof. vm_compute. reflexivity. Qed.

Example remoteFile_examples :
  map (fun '(pre, f) => remoteFile (cleanPrefix pre) f)
    [("feature-x", "copy.json"); ("", "copy.json"); ("", "a/b.json"); ("x", "../y")]
  = ["/feature-x/copy.json"; "/copy.json"; "/a/b.json"; "/y"].
Proof. vm_compute. reflexivity. Qed.

Example tabwriter_examples :
  map tabwriter.Flush
    [" " +:+ tab +:+ "fr-FR" +:+ tab +:+ "de-DE" +:+ fmt.newline +:+
     "strings.json" +:+ tab +:+ "2->1->5" +:+ tab +:+ "0->0->7" +:+ fmt.newline;
     "a" +:+ tab +:+ "b" +:+ tab +:+ "c" +:+ fmt.newline +:+
     "aa" +:+ tab +:+ "bb" +:+ tab +:+ "cc" +:+ fmt.newline +:+
     "aaa" +:+ tab +:+ fmt.newline +:+
     "aaaa" +:+ tab +:+ "dddd" +:+ tab +:+ "eeee" +:+ fmt.newline;
     " " +:+ fmt.newline +:+ "f.json" +:+ fmt.newline]
  = ["             fr-FR   de-DE" +:+ fmt.newline +:+
     "strings.json 2->1->5 0->0->7" +:+ fmt.newline;
     "a    b  c" +:+ fmt.newline +:+
     "aa   bb cc" +:+ fmt.newline +:+
     "aaa  " +:+ fmt.newline +:+
     "aaaa dddd eeee" +:+ fmt.newline;
     " " +:+ fmt.newline +:+ "f.json" +:+ fmt.newline].
Proof. vm_compute. reflexivity. Qed.

(** ** Programs and the traces of their threads *)

Lemma replays_refl p : replays p [] p.
Proof. destruct p; simpl; auto. Qed.

Lemma replays_trans p : forall es q es' r,
  replays p es q -> replays q es' r -> replays p (es ++ es') r.
Proof.
  induction p as [| | |A c k IH|child _ k IH|k IH]; intros es q es' r H1 H2;
    simpl in H1; destruct H1 as [[-> ->]|H1]; simpl app; try assumption; try contradiction.
  - destruct H1 as (a & es1 & -> & H1). simpl. right.
    exists a, (es1 ++ es'). split; [reflexivity|]. eapply IH; eassumption.
  - destruct H1 as (es1 & -> & H1). simpl. right.
    exists (es1 ++ es'). split; [reflexivity|]. eapply IH; eassumption.
  - destruct H1 as (es1 & -> & H1). simpl. right.
    exists (es1 ++ es'). split; [reflexivity|]. eapply IH; eassumption.
Qed.

Lemma replays_do {A} (c : Call A) k a : replays (Do c k) [event_of c a] (k a).
Proof. simpl. right. exists a, []. split; [reflexivity|apply replays_refl]. Qed.

Lemma replays_spawn child k : replays (Spawn child k) [EvSpawn child] k.
Proof. simpl. right. exists []. split; [reflexivity|apply replays_refl]. Qed.

Lemma replays_wait k : replays (Wait k) [EvWait] k.
Proof. simpl. right. exists []. split; [reflexivity|apply replays_refl]. Qed.

Lemma events_of_app i tr tr' :
  events_of i (tr ++ tr') = events_of i tr ++ events_of i tr'.
Proof. unfold events_of. rewrite filter_app, map_app. reflexivity. Qed.

Lemma events_of_one_eq i e : events_of i [(i, e)] = [e].
Proof.
  unfold events_of. rewrite filter_cons_True by reflexivity. reflexivity.
Qed.

Lemma events_of_one_ne i j e : i <> j -> events_of i [(j, e)] = [].
Proof.
  intros Hne. unfold events_of. rewrite filter_cons_False; [reflexivity|].
  simpl. congruence.
Qed.

Lemma events_of_none i tr :
  (forall j e, (j, e) ∈ tr -> j <> i) -> events_of i tr = [].
Proof.
  induction tr as [|[j e] tr IH]; intros H; [reflexivity|].
  unfold events_of. rewrite filter_cons_False.
  - apply IH. intros j' e' Hin. apply (H j' e'). right. exact Hin.
  - simpl. apply (H j e). left.
Qed.

Lemma elem_of_events_of i e tr : e ∈ events_of i tr <-> (i, e) ∈ tr.
Proof.
  unfold events_of. rewrite list_elem_of_fmap. split.
  - intros ([j e'] & -> & Hin). apply list_elem_of_filter in Hin as [Hj Hin].
    simpl in Hj. subst j. exact Hin.
  - intros Hin. exists (i, e). split; [reflexivity|].
    apply list_elem_of_filter. split; [reflexivity|exact Hin].
Qed.

Section PoolTheory.

Context {E : Type} (B : Backend E).

Lemma step_spec i P : step B i P = P \/ Step B i P (step B i P).
Proof.
  unfold step. destruct (threads P !! i) as [[o c]|] eqn:Hi; [|left; reflexivity].
  destruct c as [| | |A c k|child k|k]; try (left; reflexivity).
  - right. destruct (exec B c (world P)) as [a w] eqn:He.
    pose proof (Step_do B i P o c k Hi) as H. rewrite He in H. exact H.
  - right. apply Step_spawn. exact Hi.
  - destruct (others_done i (threads P)) eqn:Hd; [right|left; reflexivity].
    apply Step_wait; assumption.
Qed.

(** An invariant of the steps holds along every schedule. *)
Lemma run_sched_ind (I : Pool E -> Prop) :
  (forall i P P', I P -> Step B i P P' -> I P') ->
  forall sched P, I P -> I (run_sched B sched P).
Proof.
  intros Hstep sched. induction sched as [|i sched IH]; intros P HP; [exact HP|].
  simpl. apply IH. destruct (step_spec i P) as [->|HS]; [exact HP|].
  eapply Hstep; eassumption.
Qed.

(** *** Every thread's calls replay its program *)

Lemma traced_init main (w : World E) : traced (init main w).
Proof.
  split; simpl.
  - intros j e H. inversion H.
  - intros [|i] o c H; simpl in H; [|discriminate].
    injection H as <- <-. apply replays_refl.
Qed.

Lemma traced_step i P P' : traced P -> Step B i P P' -> traced P'.
Proof.
  intros [Hlt Hrep] HS.
  destruct HS as [A o c k Hi|o child k Hi|o k Hi Hd]; split; simpl.
  - intros j e Hin. rewrite length_insert. apply elem_of_app in Hin as [Hin|Hin].
    + eapply Hlt; eassumption.
    + apply list_elem_of_singleton in Hin. injection Hin as -> _.
      eapply lookup_lt_Some; eassumption.
  - intros j o' c' Hj. rewrite events_of_app.
    destruct (decide (j = i)) as [->|Hne].
    + rewrite list_lookup_insert_eq in Hj by (eapply lookup_lt_Some; eassumption).
      injection Hj as <- <-. rewrite events_of_one_eq.
      eapply replays_trans; [apply Hrep; eassumption|apply replays_do].
    + rewrite list_lookup_insert_ne in Hj by congruence.
      rewrite events_of_one_ne by exact Hne. rewrite app_nil_r. apply Hrep; assumption.
  - intros j e Hin. rewrite length_app, length_insert. simpl.
    apply elem_of_app in Hin as [Hin|Hin].
    + specialize (Hlt j e Hin). lia.
    + apply list_elem_of_singleton in Hin. injection Hin as -> _.
      apply lookup_lt_Some in Hi. lia.
  - intros j o' c' Hj. rewrite events_of_app.
    apply lookup_app_Some in Hj as [Hj|[Hge Hj]].
    + destruct (decide (j = i)) as [->|Hne].
      * rewrite list_lookup_insert_eq in Hj by (eapply lookup_lt_Some; eassumption).
        injection Hj as <- <-. rewrite events_of_one_eq.
        eapply replays_trans; [apply Hrep; eassumption|apply replays_spawn].
      * rewrite list_lookup_insert_ne in Hj by congruence.
        rewrite events_of_one_ne by exact Hne. rewrite app_nil_r. apply Hrep; assumption.
    + rewrite length_insert in Hge, Hj.
      destruct (j - length (threads P)) as [|n] eqn:Hn; simpl in Hj; [|discriminate].
      injection Hj as <- <-.
      apply lookup_lt_Some in Hi.
      rewrite events_of_one_ne by lia. rewrite app_nil_r.
      rewrite events_of_none; [apply replays_refl|].
      intros j' e' Hin Heq. subst j'. specialize (Hlt j e' Hin). lia.
  - intros j e Hin. rewrite length_insert. apply elem_of_app in Hin as [Hin|Hin].
    + eapply Hlt; eassumption.
    + apply list_elem_of_singleton in Hin. injection Hin as -> _.
      eapply lookup_lt_Some; eassumption.
  - intros j o' c' Hj. rewrite events_of_app. destruct (decide (j = i)) as [->|Hne].
    + rewrite list_lookup_insert_eq in Hj by (eapply lookup_lt_Some; eassumption).
      injection Hj as <- <-. rewrite events_of_one_eq.
      eapply replays_trans; [apply Hrep; eassumption|apply replays_wait].
    + rewrite list_lookup_insert_ne in Hj by congruence.
      rewrite events_of_one_ne by exact Hne. rewrite app_nil_r. apply Hrep; assumption.
Qed.

Lemma traced_run sched main w : traced (run_sched B sched (init main w)).
Proof. apply run_sched_ind; [apply traced_step|apply traced_init]. Qed.

(** *** The goroutines a command starts *)

Lemma spawning_step Q i P P' : spawning Q P -> Step B i P P' -> spawning Q P'.
Proof.
  intros Hth HS.
  destruct HS as [A o c k Hi|o child k Hi|o k Hi Hd]; unfold spawning; simpl;
    intros j o' c' Hj; destruct (Hth _ _ _ Hi) as [Hs Ho]; simpl in Hs.
  - destruct (decide (j = i)) as [->|Hne].
    + rewrite list_lookup_insert_eq in Hj by (eapply lookup_lt_Some; eassumption).
      injection Hj as <- <-. split; [apply Hs|exact Ho].
    + rewrite list_lookup_insert_ne in Hj by congruence. eapply Hth; eassumption.
  - apply lookup_app_Some in Hj as [Hj|[Hge Hj]].
    + destruct (decide (j = i)) as [->|Hne].
      * rewrite list_lookup_insert_eq in Hj by (eapply lookup_lt_Some; eassumption).
        injection Hj as <- <-. split; [apply Hs|exact Ho].
      * rewrite list_lookup_insert_ne in Hj by congruence. eapply Hth; eassumption.
    + destruct (j - _) as [|n]; simpl in Hj; [|discriminate].
      injection Hj as <- <-. split; [apply Hs|intros _; apply Hs].
  - destruct (decide (j = i)) as [->|Hne].
    + rewrite list_lookup_insert_eq in Hj by (eapply lookup_lt_Some; eassumption).
      injection Hj as <- <-. split; [apply Hs|exact Ho].
    + rewrite list_lookup_insert_ne in Hj by congruence. eapply Hth; eassumption.
Qed.

Lemma spawning_run Q sched main w :
  spawns Q main ->
  forall i o c, 0 < i ->
    threads (run_sched B sched (init main w)) !! i = Some (o, c) -> Q o.
Proof.
  intros Hmain i o c Hi Hth.
  assert (spawning Q (run_sched B sched (init main w))) as H.
  { apply run_sched_ind; [apply spawning_step|].
    intros [|j] o' c' Hj; simpl in Hj; [|discriminate].
    injection Hj as <- <-. split; [exact Hmain|lia]. }
  destruct (H _ _ _ Hth) as [_ HQ]. apply HQ. exact Hi.
Qed.

(** *** Every goroutine was started by a [go] statement of the trace *)

Lemma started_step i P P' : 0 < length (threads P) -> started P -> Step B i P P' -> started P'.
Proof.
  intros Hpos Hst HS.
  destruct HS as [A o c k Hi|o child k Hi|o k Hi Hd]; unfold started; simpl;
    intros j o' c' Hpj Hj.
  - destruct (decide (j = i)) as [->|Hne].
    + rewrite list_lookup_insert_eq in Hj by (eapply lookup_lt_Some; eassumption).
      injection Hj as <- <-. destruct (Hst _ _ _ Hpj Hi) as [j' Hin].
      exists j'. apply elem_of_app. left. exact Hin.
    + rewrite list_lookup_insert_ne in Hj by congruence.
      destruct (Hst _ _ _ Hpj Hj) as [j' Hin]. exists j'. apply elem_of_app. left. exact Hin.
  - apply lookup_app_Some in Hj as [Hj|[Hge Hj]].
    + destruct (decide (j = i)) as [->|Hne].
      * rewrite list_lookup_insert_eq in Hj by (eapply lookup_lt_Some; eassumption).
        injection Hj as <- <-. destruct (Hst _ _ _ Hpj Hi) as [j' Hin].
        exists j'. apply elem_of_app. left. exact Hin.
      * rewrite list_lookup_insert_ne in Hj by congruence.
        destruct (Hst _ _ _ Hpj Hj) as [j' Hin]. exists j'. apply elem_of_app. left. exact Hin.
    + destruct (j - _) as [|n]; simpl in Hj; [|discriminate].
      injection Hj as <- <-. exists i. apply elem_of_app. right. left.
  - destruct (decide (j = i)) as [->|Hne].
    + rewrite list_lookup_insert_eq in Hj by (eapply lookup_lt_Some; eassumption).
      injection Hj as <- <-. destruct (Hst _ _ _ Hpj Hi) as [j' Hin].
      exists j'. apply elem_of_app. left. exact Hin.
    + rewrite list_lookup_insert_ne in Hj by congruence.
      destruct (Hst _ _ _ Hpj Hj) as [j' Hin]. exists j'. apply elem_of_app. left. exact Hin.
Qed.

Lemma started_run sched main w : started (run_sched B sched (init main w)).
Proof.
  assert (0 < length (threads (run_sched B sched (init main w)))
          /\ started (run_sched B sched (init main w))) as [_ H]; [|exact H].
  apply (run_sched_ind (fun P => 0 < length (threads P) /\ started P)).
  - intros i P P' [Hpos Hst] HS. split; [|eapply started_step; eassumption].
    destruct HS; simpl; rewrite ?length_app, ?length_insert; lia.
  - split; [simpl; lia|]. intros [|i] o c Hi Hth; [lia|]. simpl in Hth. discriminate.
Qed.

(** *** A command that has returned has joined its goroutines *)

Lemma forallb_done rest :
  forallb (fun t : Prog * Prog => wg_done t.2) rest = true ->
  Forall (fun t => finished t.2) rest.
Proof.
  intros H. apply Forall_forall. intros [o c] Hin.
  rewrite forallb_forall in H. apply list_elem_of_In in Hin.
  specialize (H _ Hin). unfold finished. simpl in *.
  destruct c; simpl in H; try discriminate; eauto.
Qed.

Lemma finished_Do {A} (c : Call A) k : ~ finished (Do c k).
Proof. intros [H|[m H]]; discriminate. Qed.

Lemma finished_Wait k : ~ finished (Wait k).
Proof. intros [H|[m H]]; discriminate. Qed.

Lemma joining_step i P P' : joining P -> Step B i P P' -> joining P'.
Proof.
  intros (o0 & c0 & rest & Hts & Hns & Hmain) HS.
  destruct HS as [A o c k Hi|o child k Hi|o k Hi Hd]; unfold joining; simpl;
    rewrite Hts in *; destruct i as [|i]; simpl in *.
  - injection Hi as -> ->. eexists _, _, _. split; [reflexivity|]. split; [exact Hns|].
    destruct Hmain as [Hj|[Hn Hd]]; [left|right; split; [|exact Hd]]; simpl in *; auto.
  - eexists _, _, _. split; [reflexivity|].
    destruct Hmain as [Hj|[Hn Hd]].
    + split; [|left; exact Hj]. apply Forall_insert; [exact Hns|].
      simpl. eapply (Forall_lookup_1 _ _ _ _ Hns) in Hi. simpl in Hi. apply Hi.
    + eapply (Forall_lookup_1 _ _ _ _ Hd) in Hi. simpl in Hi. destruct Hi as [Hi|[? Hi]]; discriminate.
  - injection Hi as -> ->. eexists _, _, _. split; [reflexivity|].
    destruct Hmain as [Hj|[Hn Hd]]; simpl in *; [|contradiction].
    destruct Hj as [Hc Hj]. split; [|left; exact Hj].
    apply Forall_app. split; [exact Hns|]. constructor; [exact Hc|constructor].
  - pose proof (Forall_lookup_1 _ _ _ _ Hns Hi) as Hc. simpl in Hc. contradiction.
  - injection Hi as -> ->. eexists _, _, _. split; [reflexivity|]. split; [exact Hns|].
    right. destruct Hmain as [Hj|[Hn Hd']]; simpl in *.
    + split; [exact Hj|]. apply forallb_done. exact Hd.
    + split; assumption.
  - eexists _, _, _. split; [reflexivity|].
    destruct Hmain as [Hj|[Hn Hd']].
    + split; [|left; exact Hj]. apply Forall_insert; [exact Hns|].
      simpl. eapply (Forall_lookup_1 _ _ _ _ Hns) in Hi. simpl in Hi. apply Hi.
    + eapply (Forall_lookup_1 _ _ _ _ Hd') in Hi. simpl in Hi. destruct Hi as [Hi|[? Hi]]; discriminate.
Qed.

Lemma joining_run sched main w :
  joins main ->
  let P := run_sched B sched (init main w) in
  returned P ->
  forall i o c, threads P !! i = Some (o, c) -> finished c.
Proof.
  intros Hmain P Hret.
  assert (joining P) as (o0 & c0 & rest & Hts & _ & Hm).
  { apply run_sched_ind; [apply joining_step|].
    exists main, main, []. split; [reflexivity|]. split; [constructor|]. left. exact Hmain. }
  unfold returned, current in Hret. rewrite Hts in *. simpl in Hret.
  injection Hret as ->. destruct Hm as [[]|[_ Hd]].
  intros [|i] o c Hi; simpl in Hi.
  - injection Hi as _ <-. left. reflexivity.
  - apply (Forall_lookup_1 _ _ _ _ Hd Hi).
Qed.

End PoolTheory.

(** ** Replaying a finished thread *)

Lemma replays_Do_Done {A} (c : Call A) k es :
  replays (Do c k) es Done ->
  exists a es', es = event_of c a :: es' /\ replays (k a) es' Done.
Proof. simpl. intros [[_ H]|H]; [discriminate|exact H]. Qed.

Lemma replays_Panic_Done m es : replays (Panic m) es Done -> False.
Proof. simpl. intros [[_ H]|[]]. discriminate. Qed.

Lemma replays_Unmodelled_Done es : replays Unmodelled es Done -> False.
Proof. simpl. intros [[_ H]|[]]. discriminate. Qed.

Lemma replays_Done es q : replays Done es q -> es = [] /\ q = Done.
Proof. simpl. intros [H|[]]. exact H. Qed.

Lemma replays_orPanic_Done {A} (r : result A) k es :
  replays (orPanic r k) es Done -> exists a, r = Ok a /\ replays (k a) es Done.
Proof.
  destruct r as [a|m]; simpl orPanic; intros H.
  - exists a. split; [reflexivity|exact H].
  - destruct (replays_Panic_Done _ _ H).
Qed.

Lemma nospawn_spawns Q p : nospawn p -> spawns Q p.
Proof.
  induction p as [| | |A c k IH|child _ k IH|k IH]; simpl; auto.
  intros [].
Qed.

Lemma nospawn_replays p : forall es q child,
  nospawn p -> replays p es q -> EvSpawn child ∉ es.
Proof.
  induction p as [| | |A c k IH|ch _ k IH|k IH]; intros es q child Hn Hr Hin;
    simpl in Hr, Hn; destruct Hr as [[-> _]|Hr]; try (inversion Hin; fail);
    try contradiction.
  - destruct Hr as (a & es' & -> & Hr). apply elem_of_cons in Hin as [Heq|Hin].
    + destruct c; discriminate.
    + eapply IH; eauto.
  - destruct Hr as (es' & -> & Hr). apply elem_of_cons in Hin as [Heq|Hin].
    + discriminate.
    + eapply IH; eauto.
Qed.

Lemma nospawn_orPanic {A} (r : result A) k :
  (forall a, nospawn (k a)) -> nospawn (orPanic r k).
Proof. destruct r; simpl; auto. Qed.

Lemma spawn_each_spawns {X} Q (xs : list X) u k :
  (forall x, x ∈ xs -> Q (u x) /\ nospawn (u x)) -> spawns Q k ->
  spawns Q (spawn_each xs u k).
Proof.
  induction xs as [|x xs IH]; intros Hu Hk; simpl; [exact Hk|].
  destruct (Hu x) as [HQ Hn]; [left|].
  split; [exact HQ|]. split; [apply nospawn_spawns; exact Hn|].
  apply IH; [|exact Hk]. intros y Hy. apply Hu. right. exact Hy.
Qed.

Lemma spawn_each_joins {X} (xs : list X) u k :
  (forall x, x ∈ xs -> nospawn (u x)) -> joins k -> joins (spawn_each xs u k).
Proof.
  induction xs as [|x xs IH]; intros Hu Hk; simpl; [exact Hk|].
  split; [apply Hu; left|]. apply IH; [|exact Hk].
  intros y Hy. apply Hu. right. exact Hy.
Qed.

(** The goroutines [spawn_each] starts are the units of its elements. *)
Lemma spawn_each_replays {X} (xs : list X) u k : forall es q child,
  replays (spawn_each xs u k) es q -> EvSpawn child ∈ es ->
  (exists x, x ∈ xs /\ child = u x) \/
  (exists es', replays k es' q /\ EvSpawn child ∈ es').
Proof.
  induction xs as [|x xs IH]; intros es q child Hr Hin; simpl in Hr.
  - right. exists es. split; assumption.
  - destruct Hr as [[-> _]|(es' & -> & Hr)]; [inversion Hin|].
    apply elem_of_cons in Hin as [Heq|Hin].
    + injection Heq as ->. left. exists x. split; [left|reflexivity].
    + destruct (IH _ _ _ Hr Hin) as [(y & Hy & ->)|H]; [left|right; exact H].
      exists y. split; [right; exact Hy|reflexivity].
Qed.

Lemma own_replays ok p : forall es q e,
  own ok p -> replays p es q -> e ∈ es -> ok e.
Proof.
  induction p as [| | |A c k IH|ch _ k IH|k IH]; intros es q e Ho Hr Hin;
    simpl in Hr, Ho; destruct Hr as [[-> _]|Hr]; try (inversion Hin; fail);
    try contradiction.
  - destruct Hr as (a & es' & -> & Hr). apply elem_of_cons in Hin as [->|Hin].
    + apply Ho.
    + eapply IH; [apply Ho|eassumption|exact Hin].
  - destruct Hr as (es' & -> & Hr). apply elem_of_cons in Hin as [->|Hin].
    + apply Ho.
    + eapply IH; [apply Ho|eassumption|exact Hin].
  - destruct Hr as (es' & -> & Hr). apply elem_of_cons in Hin as [->|Hin].
    + apply Ho.
    + eapply IH; [apply Ho|eassumption|exact Hin].
Qed.

Lemma own_orPanic {A} ok (r : result A) k :
  (forall a, own ok (k a)) -> own ok (orPanic r k).
Proof. destruct r; simpl; auto. Qed.

Lemma spawn_each_own {X} ok (xs : list X) u k :
  (forall x, ok (EvSpawn (u x))) -> own ok k -> own ok (spawn_each xs u k).
Proof.
  induction xs as [|x xs IH]; intros Hu Hk; simpl; [exact Hk|].
  split; [apply Hu|]. apply IH; assumption.
Qed.

(** The goroutines [spawn_each] starts before a command that returns. *)
Lemma spawn_each_done_exact {X} (xs : list X) u k : forall es,
  replays (spawn_each xs u k) es Done ->
  exists es', es = map (fun x => EvSpawn (u x)) xs ++ es' /\ replays k es' Done.
Proof.
  induction xs as [|x xs IH]; intros es Hr; simpl in Hr.
  - exists es. split; [reflexivity|exact Hr].
  - destruct Hr as [[_ Hd]|(es1 & -> & Hr)]; [discriminate Hd|].
    destruct (IH _ Hr) as (es' & -> & Hk). exists es'. split; [reflexivity|exact Hk].
Qed.

Lemma replays_orPanic_elem {A} (r : result A) k es q e :
  replays (orPanic r k) es q -> e ∈ es -> exists a, r = Ok a /\ replays (k a) es q.
Proof.
  destruct r as [a|m]; simpl orPanic; intros H Hin.
  - exists a. split; [reflexivity|exact H].
  - simpl in H. destruct H as [[-> _]|[]]. inversion Hin.
Qed.

Lemma replays_Do_elem {A} (c : Call A) k es q e :
  replays (Do c k) es q -> e ∈ es ->
  exists a es', es = event_of c a :: es' /\ replays (k a) es' q.
Proof. simpl. intros [[-> _]|H] Hin; [inversion Hin|exact H]. Qed.

(** How far a loop of [go] statements has come. *)
Lemma spawn_each_partial {X} (xs : list X) u k : forall es q,
  replays (spawn_each xs u k) es q ->
  (exists xs1 xs2, xs = xs1 ++ xs2 /\ es = map (fun x => EvSpawn (u x)) xs1) \/
  (exists es', es = map (fun x => EvSpawn (u x)) xs ++ es' /\ replays k es' q).
Proof.
  induction xs as [|x xs IH]; intros es q Hr; simpl in Hr.
  - right. exists es. split; [reflexivity|exact Hr].
  - destruct Hr as [[-> _]|(es1 & -> & Hr)].
    + left. exists [], (x :: xs). split; reflexivity.
    + destruct (IH _ _ Hr) as [(xs1 & xs2 & -> & ->)|(es' & -> & Hk)].
      * left. exists (x :: xs1), xs2. split; reflexivity.
      * right. exists es'. split; [reflexivity|exact Hk].
Qed.

Lemma replays_Panic m es q : replays (Panic m) es q -> es = [] /\ q = Panic m.
Proof. simpl. intros [H|[]]. exact H. Qed.

Lemma replays_Do_Panic {A} (c : Call A) k es m :
  replays (Do c k) es (Panic m) ->
  exists a es', es = event_of c a :: es' /\ replays (k a) es' (Panic m).
Proof. simpl. intros [[_ H]|H]; [discriminate|exact H]. Qed.

Lemma replays_orPanic_Panic {A} (r : result A) k es m :
  replays (orPanic r k) es (Panic m) ->
  (r = Err m /\ es = []) \/ exists a, r = Ok a /\ replays (k a) es (Panic m).
Proof.
  destruct r as [a|m']; simpl orPanic; intros H.
  - right. exists a. split; [reflexivity|exact H].
  - left. apply replays_Panic in H as [-> Heq]. injection Heq as ->. split; reflexivity.
Qed.

Section PoolFacts.

Context {E : Type} (B : Backend E).

Lemma run_sched_ind_step (I : Pool E -> Prop) :
  (forall i P, I P -> I (step B i P)) ->
  forall sched P, I P -> I (run_sched B sched P).
Proof.
  intros Hstep sched. induction sched as [|i sched IH]; intros P HP; [exact HP|].
  simpl. apply IH. apply Hstep. exact HP.
Qed.

(** Thread 0 is the command. *)
Lemma main_thread sched main w :
  exists c, threads (run_sched B sched (init main w)) !! 0 = Some (main, c).
Proof.
  apply (run_sched_ind B (fun P => exists c, threads P !! 0 = Some (main, c))).
  - intros i P P' [c Hc] HS.
    assert (forall o' k', threads P !! i = Some (o', k') ->
            forall x, exists c', <[i := (o', x)]> (threads P) !! 0 = Some (main, c')) as Hins.
    { intros o' k' Hi x. destruct i as [|i].
      - rewrite Hc in Hi. injection Hi as <- <-.
        rewrite list_lookup_insert_eq by (eapply lookup_lt_Some; eassumption). eauto.
      - rewrite list_lookup_insert_ne by lia. eauto. }
    destruct HS as [A o c' k Hi|o child k Hi|o k Hi Hd]; simpl.
    + eapply Hins; eassumption.
    + destruct (Hins _ _ Hi k) as [c' Hc']. exists c'.
      apply lookup_app_l_Some. exact Hc'.
    + eapply Hins; eassumption.
  - exists main. reflexivity.
Qed.

(** The steps of thread [i] replay the program it was started as. *)
Lemma thread_replays sched main w i o c :
  threads (run_sched B sched (init main w)) !! i = Some (o, c) ->
  replays o (events_of i (trace (run_sched B sched (init main w)))) c.
Proof. intros H. destruct (traced_run B sched main w) as [_ Hr]. apply Hr. exact H. Qed.

(** Only existing threads occur in the trace. *)
Lemma trace_thread sched main w i e :
  (i, e) ∈ trace (run_sched B sched (init main w)) ->
  exists o c, threads (run_sched B sched (init main w)) !! i = Some (o, c).
Proof.
  intros H. destruct (traced_run B sched main w) as [Hlt _].
  specialize (Hlt _ _ H). apply lookup_lt_is_Some in Hlt as [[o c] Hoc]. eauto.
Qed.

(** When the goroutines of a command start no goroutine themselves,
    every goroutine was started by the command, and every one is a
    program the command may start. *)
Lemma child_of_main sched main w i o c :
  spawns nospawn main ->
  0 < i ->
  threads (run_sched B sched (init main w)) !! i = Some (o, c) ->
  nospawn o /\ EvSpawn o ∈ events_of 0 (trace (run_sched B sched (init main w))).
Proof.
  intros Hmain Hi Hth.
  split; [eapply spawning_run; eassumption|].
  destruct (started_run B sched main w _ _ _ Hi Hth) as [j Hin].
  destruct j as [|j]; [apply elem_of_events_of; exact Hin|].
  destruct (trace_thread _ _ _ _ _ Hin) as (oj & cj & Hj).
  assert (nospawn oj) as Hn by (eapply (spawning_run B nospawn); [exact Hmain| |exact Hj]; lia).
  apply elem_of_events_of in Hin.
  destruct (nospawn_replays _ _ _ _ Hn (thread_replays _ _ _ _ _ _ Hj) Hin).
Qed.

End PoolFacts.

(** The pure helpers stay folded while programs are unfolded. *)
Arguments remoteFile : simpl never.
Arguments cleanPrefix : simpl never.
Arguments prefixOf : simpl never.
Arguments filetypeForProjectFile : simpl never.
Arguments localRelativeFilePath : simpl never.
Arguments localPullFilePath : simpl never.
Arguments push_line : simpl never.
Arguments fmt.Sprintln : simpl never.
Arguments fmt.Sprint : simpl never.
Arguments tabwriter.Flush : simpl never.
Arguments status_table : simpl never.
Arguments smartling.AwaitingAuthorizationCount : simpl never.

(** Case analysis over the answers a program branches on. *)
Ltac prog_cases :=
  repeat first
    [ progress (simpl; intros)
    | match goal with
      | |- context [orPanic ?r _] => destruct r
      | |- context [if ?b then _ else _] => destruct b
      | |- _ /\ _ => split
      end ].

(** ** push *)

Section PushFacts.

Context {E : Type} (B : Backend E).

Variable ProjectConfig : Config.

Variable FileTypeByExtension : string -> string.

Variable pushPrefix : string.

Local Abbreviation push := (projectPushCommand ProjectConfig FileTypeByExtension pushPrefix).

Local Abbreviation unit_of := (push_unit ProjectConfig FileTypeByExtension).

Local Abbreviation parserConfig := (ParserConfig (FileConfig ProjectConfig)).

Lemma push_report_nospawn b fs remote : nospawn (push_report b fs remote).
Proof. destruct b; simpl; auto. Qed.

Lemma push_unit_nospawn prefix first f : nospawn (unit_of prefix first f).
Proof. unfold push_unit, push_report. prog_cases; exact I. Qed.

Lemma push_unit_own prefix first f :
  own (push_unit_step prefix first f) (unit_of prefix first f).
Proof.
  unfold push_unit, push_report. destruct (String.eqb_spec prefix "") as [->|Hne];
    prog_cases; auto.
Qed.

Lemma push_unit_done prefix first f es :
  replays (unit_of prefix first f) es Done ->
  exists ft fs, es = push_unit_run ProjectConfig prefix first f ft fs.
Proof.
  unfold push_unit, push_unit_run. intros H.
  apply replays_orPanic_Done in H as (ft & _ & H).
  apply replays_Do_Done in H as (r & es1 & -> & H).
  apply replays_orPanic_Done in H as ([] & -> & H).
  apply replays_Do_Done in H as (r & es2 & -> & H).
  apply replays_orPanic_Done in H as (fs & -> & H).
  exists ft, fs. simpl. do 2 f_equal.
  destruct (negb (String.eqb prefix "")); simpl.
  - destruct (_ =? _)%Z.
    + apply replays_Do_Done in H as (r & es3 & -> & H).
      apply replays_orPanic_Done in H as ([] & -> & H).
      simpl in H. apply replays_Done in H as [-> _]. reflexivity.
    + simpl in H. apply replays_Do_Done in H as ([] & es3 & -> & H).
      apply replays_Done in H as [-> _]. reflexivity.
  - simpl in H. apply replays_Do_Done in H as ([] & es3 & -> & H).
    apply replays_Done in H as [-> _]. reflexivity.
Qed.

Lemma push_main_own flag : own push_main_step (push flag).
Proof.
  unfold projectPushCommand, getPrefix.
  assert (forall prefix, own push_main_step
    (Do CLocales (fun r => orPanic r (fun locales =>
       match locales with
       | [] => Panic "runtime error: index out of range"
       | l0 :: _ =>
           spawn_each (Files ProjectConfig) (unit_of prefix (smartling.Locale l0)) (Wait Done)
       end)))) as Hk.
  { intros prefix. simpl. intros r. split; [exact I|]. apply own_orPanic.
    intros [|l0 ls]; simpl; [exact I|]. apply spawn_each_own; simpl; auto. }
  destruct (negb _); simpl; [intros _; split; [exact I|]|]; apply Hk.
Qed.

Lemma push_main_spawns flag : spawns nospawn (push flag).
Proof.
  unfold projectPushCommand, getPrefix.
  assert (forall prefix, spawns nospawn
    (Do CLocales (fun r => orPanic r (fun locales =>
       match locales with
       | [] => Panic "runtime error: index out of range"
       | l0 :: _ =>
           spawn_each (Files ProjectConfig) (unit_of prefix (smartling.Locale l0)) (Wait Done)
       end)))) as Hk.
  { intros prefix. simpl. intros [[|l0 ls]|m]; simpl; auto.
    apply spawn_each_spawns; simpl; auto.
    intros f _. split; apply push_unit_nospawn. }
  destruct (negb _); simpl; [intros _|]; apply Hk.
Qed.

Lemma push_main_joins flag : joins (push flag).
Proof.
  unfold projectPushCommand, getPrefix.
  assert (forall prefix, joins
    (Do CLocales (fun r => orPanic r (fun locales =>
       match locales with
       | [] => Panic "runtime error: index out of range"
       | l0 :: _ =>
           spawn_each (Files ProjectConfig) (unit_of prefix (smartling.Locale l0)) (Wait Done)
       end)))) as Hk.
  { intros prefix. simpl. intros [[|l0 ls]|m]; simpl; auto.
    apply spawn_each_joins; simpl; auto.
    intros f _. apply push_unit_nospawn. }
  destruct (negb _); simpl; [intros _|]; apply Hk.
Qed.

(** The goroutines the command starts: one per project file, for the
    first of the locales the service listed. *)
Lemma push_main_replays flag es q child :
  replays (push flag) es q -> EvSpawn child ∈ es ->
  exists l0 ls f,
    EvLocales (Ok (l0 :: ls)) ∈ es /\ f ∈ Files ProjectConfig /\
    child = unit_of (prefixOf pushPrefix flag) (smartling.Locale l0) f.
Proof.
  unfold projectPushCommand, getPrefix.
  assert (forall es,
    replays (Do CLocales (fun r => orPanic r (fun locales =>
       match locales with
       | [] => Panic "runtime error: index out of range"
       | l0 :: _ =>
           spawn_each (Files ProjectConfig)
             (unit_of (prefixOf pushPrefix flag) (smartling.Locale l0)) (Wait Done)
       end))) es q ->
    EvSpawn child ∈ es ->
    exists l0 ls f,
      EvLocales (Ok (l0 :: ls)) ∈ es /\ f ∈ Files ProjectConfig /\
      child = unit_of (prefixOf pushPrefix flag) (smartling.Locale l0) f) as Hk.
  { intros es0 Hr Hin. simpl in Hr.
    destruct Hr as [[-> _]|(r & es1 & -> & Hr)]; [inversion Hin|].
    apply elem_of_cons in Hin as [Heq|Hin]; [discriminate|].
    destruct r as [[|l0 ls]|m]; simpl in Hr.
    - destruct Hr as [[-> _]|[]]. inversion Hin.
    - destruct (spawn_each_replays _ _ _ _ _ _ Hr Hin) as [(f & Hf & ->)|(es2 & Hr2 & Hin2)].
      + exists l0, ls, f. split; [left|]. split; [exact Hf|reflexivity].
      + simpl in Hr2. destruct Hr2 as [[-> _]|(es3 & -> & [[-> _]|[]])].
        * inversion Hin2.
        * apply elem_of_cons in Hin2 as [Heq|Hin2]; [discriminate|inversion Hin2].
    - destruct Hr as [[-> _]|[]]. inversion Hin. }
  destruct (negb _); simpl; [|apply Hk].
  intros [[-> _]|([] & es1 & -> & Hr)] Hin; [inversion Hin|].
  apply elem_of_cons in Hin as [Heq|Hin]; [discriminate|].
  destruct (Hk _ Hr Hin) as (l0 & ls & f & H1 & H2 & H3).
  exists l0, ls, f. split; [right; exact H1|]. split; assumption.
Qed.

(** Every goroutine of a push run is the unit of a project file. *)
Lemma push_thread flag (w : World E) sched i o c :
  let P := run_sched B sched (init (push flag) w) in
  0 < i -> threads P !! i = Some (o, c) ->
  exists l0 ls f,
    (0, EvLocales (Ok (l0 :: ls))) ∈ trace P /\ f ∈ Files ProjectConfig /\
    o = unit_of (prefixOf pushPrefix flag) (smartling.Locale l0) f.
Proof.
  intros P Hi Hth.
  destruct (child_of_main B sched _ w i o c (push_main_spawns flag) Hi Hth) as [_ Hin].
  destruct (main_thread B sched (push flag) w) as [c0 Hc0].
  pose proof (thread_replays B sched _ w 0 _ _ Hc0) as Hr.
  destruct (push_main_replays _ _ _ _ Hr Hin) as (l0 & ls & f & H1 & H2 & H3).
  exists l0, ls, f. split; [apply elem_of_events_of; exact H1|]. split; assumption.
Qed.

(** Whoever uploads a file is the goroutine of that file. *)
Lemma push_uploader flag (w : World E) sched i f remote ft pc r :
  let P := run_sched B sched (init (push flag) w) in
  (i, EvUpload f remote ft pc r) ∈ trace P ->
  exists l0 ls c,
    (0, EvLocales (Ok (l0 :: ls))) ∈ trace P /\
    remote = remoteFile (prefixOf pushPrefix flag) f /\
    threads P !! i = Some (unit_of (prefixOf pushPrefix flag) (smartling.Locale l0) f, c).
Proof.
  intros P Hin. destruct (trace_thread B sched _ w _ _ Hin) as (o & c & Hth).
  pose proof (thread_replays B sched _ w _ _ _ Hth) as Hr.
  apply elem_of_events_of in Hin.
  destruct i as [|i].
  - destruct (main_thread B sched (push flag) w) as [c0 Hc0].
    rewrite Hc0 in Hth. injection Hth as <- <-.
    destruct (own_replays _ _ _ _ _ (push_main_own flag) Hr Hin).
  - destruct (push_thread flag w sched (S i) o c ltac:(lia) Hth)
      as (l0 & ls & f' & H1 & H2 & ->).
    destruct (own_replays _ _ _ _ _ (push_unit_own _ _ _) Hr Hin) as [-> ->].
    exists l0, ls, c. split; [exact H1|]. split; [reflexivity|exact Hth].
Qed.

End PushFacts.

Section PushDone.

Context {E : Type} (B : Backend E).

Variable ProjectConfig : Config.

Variable FileTypeByExtension : string -> string.

Variable pushPrefix : string.

Local Abbreviation push := (projectPushCommand ProjectConfig FileTypeByExtension pushPrefix).

Local Abbreviation unit_of := (push_unit ProjectConfig FileTypeByExtension).

Local Abbreviation parserConfig := (ParserConfig (FileConfig ProjectConfig)).

(** The steps of a finished push goroutine, with the file type the
    upload was made with. *)
Lemma push_unit_done_ft prefix first f es :
  replays (unit_of prefix first f) es Done ->
  exists ft fs,
    filetypeForProjectFile ProjectConfig FileTypeByExtension f = Ok ft /\
    es = push_unit_run ProjectConfig prefix first f ft fs.
Proof.
  intros H. destruct (push_unit_done _ _ _ _ _ _ H) as (ft & fs & ->).
  unfold push_unit in H. apply replays_orPanic_Done in H as (ft' & Hft & H).
  apply replays_Do_Done in H as (r & es1 & Heq & _).
  unfold push_unit_run in Heq. simpl in Heq. injection Heq as -> _ _.
  exists ft', fs. split; [exact Hft|reflexivity].
Qed.

(** A push command that has returned has listed the locales and started
    the goroutine of every project file. *)
Lemma push_main_done flag es :
  replays (push flag) es Done ->
  exists l0 ls,
    EvLocales (Ok (l0 :: ls)) ∈ es /\
    forall f, f ∈ Files ProjectConfig ->
      EvSpawn (unit_of (prefixOf pushPrefix flag) (smartling.Locale l0) f) ∈ es.
Proof.
  unfold projectPushCommand, getPrefix.
  assert (forall es,
    replays (Do CLocales (fun r => orPanic r (fun locales =>
       match locales with
       | [] => Panic "runtime error: index out of range"
       | l0 :: _ =>
           spawn_each (Files ProjectConfig)
             (unit_of (prefixOf pushPrefix flag) (smartling.Locale l0)) (Wait Done)
       end))) es Done ->
    exists l0 ls,
      EvLocales (Ok (l0 :: ls)) ∈ es /\
      forall f, f ∈ Files ProjectConfig ->
        EvSpawn (unit_of (prefixOf pushPrefix flag) (smartling.Locale l0) f) ∈ es) as Hk.
  { intros es0 Hr.
    apply replays_Do_Done in Hr as (r & es1 & -> & Hr).
    apply replays_orPanic_Done in Hr as (locales & -> & Hr).
    destruct locales as [|l0 ls]; [destruct (replays_Panic_Done _ _ Hr)|].
    apply spawn_each_done_exact in Hr as (es' & -> & _).
    exists l0, ls. split; [left|]. intros f Hf. right. apply elem_of_app. left.
    apply list_elem_of_fmap. exists f. split; [reflexivity|exact Hf]. }
  destruct (negb _); [|apply Hk].
  intros Hr. apply replays_Do_Done in Hr as ([] & es1 & -> & Hr).
  destruct (Hk _ Hr) as (l0 & ls & H1 & H2). exists l0, ls.
  split; [right; exact H1|]. intros f Hf. right. apply H2, Hf.
Qed.

(** What led to a delete: the goroutine uploaded its file, got a status
    without strings awaiting authorization, and there is a prefix. *)
Lemma push_unit_delete prefix first f es q remote r :
  replays (unit_of prefix first f) es q -> EvDelete remote r ∈ es ->
  exists ft fs,
    remote = remoteFile prefix f /\ prefix <> "" /\
    smartling.AwaitingAuthorizationCount fs = 0%Z /\
    es = [EvUpload f remote ft parserConfig (Ok tt); EvStatus remote first (Ok fs);
          EvDelete remote r].
Proof.
  unfold push_unit. intros Hr Hin.
  destruct (replays_orPanic_elem _ _ _ _ _ Hr Hin) as (ft & _ & Hr1).
  destruct (replays_Do_elem _ _ _ _ _ Hr1 Hin) as (r0 & es1 & -> & Hr2).
  apply elem_of_cons in Hin as [Heq|Hin]; [discriminate|].
  destruct (replays_orPanic_elem _ _ _ _ _ Hr2 Hin) as ([] & -> & Hr3).
  destruct (replays_Do_elem _ _ _ _ _ Hr3 Hin) as (r1 & es2 & -> & Hr4).
  apply elem_of_cons in Hin as [Heq|Hin]; [discriminate|].
  destruct (replays_orPanic_elem _ _ _ _ _ Hr4 Hin) as (fs & -> & Hr5).
  assert (forall b, replays (push_report b fs (remoteFile prefix f)) es2 q -> False) as Hrep.
  { intros [|]; simpl; intros [[-> _]|H]; try (inversion Hin; fail); try contradiction.
    destruct H as ([] & es3 & -> & [[-> _]|[]]).
    apply elem_of_cons in Hin as [Heq|Hin]; [discriminate|inversion Hin]. }
  destruct (String.eqb_spec prefix "") as [Hp|Hp]; simpl in Hr5;
    [destruct (Hrep true Hr5)|].
  destruct (Z.eqb_spec (smartling.AwaitingAuthorizationCount fs) 0) as [Hz|Hz];
    [|destruct (Hrep true Hr5)].
  destruct (replays_Do_elem _ _ _ _ _ Hr5 Hin) as (r2 & es3 & -> & Hr6).
  assert (es3 = []) as ->.
  { destruct r2 as [[]|m]; simpl in Hr6; destruct Hr6 as [[-> _]|[]]; reflexivity. }
  apply list_elem_of_singleton in Hin. injection Hin as -> ->.
  exists ft, fs. repeat split; auto.
Qed.

(** What led to a count line: the goroutine uploaded its file and got a
    status; without a prefix every file is reported, with a prefix only
    a file with strings awaiting authorization. *)
Lemma push_unit_print prefix first f es q s :
  replays (unit_of prefix first f) es q -> EvPrint s ∈ es ->
  exists ft fs,
    s = push_line fs (remoteFile prefix f) /\
    (prefix = "" \/ smartling.AwaitingAuthorizationCount fs <> 0%Z) /\
    es = [EvUpload f (remoteFile prefix f) ft parserConfig (Ok tt);
          EvStatus (remoteFile prefix f) first (Ok fs); EvPrint s].
Proof.
  unfold push_unit. intros Hr Hin.
  destruct (replays_orPanic_elem _ _ _ _ _ Hr Hin) as (ft & _ & Hr1).
  destruct (replays_Do_elem _ _ _ _ _ Hr1 Hin) as (r0 & es1 & -> & Hr2).
  apply elem_of_cons in Hin as [Heq|Hin]; [discriminate|].
  destruct (replays_orPanic_elem _ _ _ _ _ Hr2 Hin) as ([] & -> & Hr3).
  destruct (replays_Do_elem _ _ _ _ _ Hr3 Hin) as (r1 & es2 & -> & Hr4).
  apply elem_of_cons in Hin as [Heq|Hin]; [discriminate|].
  destruct (replays_orPanic_elem _ _ _ _ _ Hr4 Hin) as (fs & -> & Hr5).
  assert (replays (push_report true fs (remoteFile prefix f)) es2 q ->
          es2 = [EvPrint s] /\ s = push_line fs (remoteFile prefix f)) as Hrep.
  { simpl. intros [[-> _]|([] & es3 & -> & [[-> _]|[]])]; [inversion Hin|].
    apply list_elem_of_singleton in Hin. injection Hin as ->. split; reflexivity. }
  exists ft, fs.
  destruct (String.eqb_spec prefix "") as [Hp|Hp]; simpl in Hr5.
  - destruct (Hrep Hr5) as [-> ->]. repeat split; auto.
  - destruct (Z.eqb_spec (smartling.AwaitingAuthorizationCount fs) 0) as [Hz|Hz].
    + destruct (replays_Do_elem _ _ _ _ _ Hr5 Hin) as (r2 & es3 & -> & Hr6).
      apply elem_of_cons in Hin as [Heq|Hin]; [discriminate|].
      destruct r2 as [[]|m]; simpl in Hr6; destruct Hr6 as [[-> _]|[]]; inversion Hin.
    + destruct (Hrep Hr5) as [-> ->]. repeat split; auto.
Qed.

(** The file type and the parser configuration of an upload. *)
Lemma push_unit_upload prefix first f :
  own (fun e => match e with
                | EvUpload _ _ ft pc _ =>
                    filetypeForProjectFile ProjectConfig FileTypeByExtension f = Ok ft /\
                    pc = parserConfig
                | _ => True
                end)
      (unit_of prefix first f).
Proof.
  unfold push_unit, push_report.
  destruct (filetypeForProjectFile ProjectConfig FileTypeByExtension f) as [ft|m];
    prog_cases; auto.
Qed.

(** How a push goroutine that has finished got there. *)
Lemma push_unit_finished prefix first f es c :
  replays (unit_of prefix first f) es c -> finished c ->
  (c = Done /\
   exists ft fs,
     filetypeForProjectFile ProjectConfig FileTypeByExtension f = Ok ft /\
     es = push_unit_run ProjectConfig prefix first f ft fs) \/
  (exists m, c = Panic m /\
     push_unit_panic ProjectConfig FileTypeByExtension prefix first f m es).
Proof.
  intros Hr [->|[m ->]].
  - left. split; [reflexivity|]. apply push_unit_done_ft. exact Hr.
  - right. exists m. split; [reflexivity|]. unfold push_unit in Hr. unfold push_unit_panic.
    apply replays_orPanic_Panic in Hr as [[Hft ->]|(ft & Hft & Hr)]; [left; auto|right].
    exists ft. split; [exact Hft|].
    apply replays_Do_Panic in Hr as (r & es1 & -> & Hr).
    apply replays_orPanic_Panic in Hr as [[-> ->]|([] & -> & Hr)]; [left; reflexivity|right].
    apply replays_Do_Panic in Hr as (r & es2 & -> & Hr).
    apply replays_orPanic_Panic in Hr as [[-> ->]|(fs & -> & Hr)]; [left; reflexivity|right].
    exists fs.
    assert (forall b es,
              replays (push_report b fs (remoteFile prefix f)) es (Panic m) -> False) as Hrep.
    { intros [|] es; simpl; intros [[_ H]|H]; try discriminate; try contradiction.
      destruct H as ([] & es3 & -> & [[_ H]|[]]). discriminate. }
    destruct (String.eqb_spec prefix "") as [Hp|Hp]; simpl in Hr;
      [destruct (Hrep true _ Hr)|].
    destruct (Z.eqb_spec (smartling.AwaitingAuthorizationCount fs) 0) as [Hz|Hz];
      [|destruct (Hrep true _ Hr)].
    apply replays_Do_Panic in Hr as (r & es3 & -> & Hr).
    apply replays_orPanic_Panic in Hr as [[-> ->]|([] & -> & Hr)];
      [auto|destruct (Hrep false _ Hr)].
Qed.

End PushDone.

Example demo_push_prefix_trace :
  let tr := trace (demo_push "feature-x" [0; 0; 0; 0; 1; 2; 1; 2; 1; 2; 0]) in
  map fst tr = [0; 0; 0; 0; 1; 2; 1; 2; 1; 2; 0]
  /\ events_of 1 tr
     = [EvUpload "copy.json" "/feature-x/copy.json" "json" [] (Ok tt);
        EvStatus "/feature-x/copy.json" "fr-FR" (Ok (counts 0 0 7));
        EvDelete "/feature-x/copy.json" (Ok tt)]
  /\ events_of 2 tr
     = [EvUpload "new.json" "/feature-x/new.json" "json" [] (Ok tt);
        EvStatus "/feature-x/new.json" "fr-FR" (Ok (counts 2 1 5));
        EvPrint ("  2 unauthorised strings in /feature-x/new.json" +:+ fmt.newline)].
Proof. vm_compute. repeat split; reflexivity. Qed.

Example demo_push_no_prefix_trace :
  map fst (trace (demo_push "" [0; 0; 0; 1; 2; 1; 2; 1; 2; 0])) = [0; 0; 0; 1; 2; 1; 2; 1; 2; 0]
  /\ events_of 1 (trace (demo_push "" [0; 0; 0; 1; 2; 1; 2; 1; 2; 0]))
     = [EvUpload "copy.json" "/copy.json" "json" [] (Ok tt);
        EvStatus "/copy.json" "fr-FR" (Ok (counts 2 1 5));
        EvPrint ("  2 unauthorised strings in /copy.json" +:+ fmt.newline)].
Proof. vm_compute. split; reflexivity. Qed.

(** ** push: the claims *)

(** C1. In a push run with a non-empty (normalized) prefix, for every
    uploaded file whose goroutine has finished: the file went to the
    remote path [prefix/file]; its status was then asked for the first
    locale the service listed; a delete of that remote path was issued if
    and only if that status has an awaiting-authorization count of exactly
    zero; and when the delete fired, the goroutine went on with
    [hasNewStrings = false] and printed no count line. *)
Theorem push_prefix_delete_iff_no_new_strings
    {E : Type} (B : Backend E) (ProjectConfig : Config)
    (FileTypeByExtension : string -> string) (pushPrefix flag : string)
    (w : World E) (sched : list nat) :
  let prefix := prefixOf pushPrefix flag in
  let P := run_sched B sched
             (init (projectPushCommand ProjectConfig FileTypeByExtension pushPrefix flag) w) in
  prefix <> "" ->
  forall i f remote ft pc r,
    (i, EvUpload f remote ft pc r) ∈ trace P ->
    current i P = Some Done ->
    exists l0 ls fs,
      (0, EvLocales (Ok (l0 :: ls))) ∈ trace P /\
      remote = remoteFile prefix f /\
      (i, EvStatus remote (smartling.Locale l0) (Ok fs)) ∈ trace P /\
      ((exists r', (i, EvDelete remote r') ∈ trace P)
       <-> smartling.AwaitingAuthorizationCount fs = 0%Z) /\
      (smartling.AwaitingAuthorizationCount fs = 0%Z ->
       replays (push_unit ProjectConfig FileTypeByExtension prefix (smartling.Locale l0) f)
         (events_of i (trace P)) (push_report false fs remote) /\
       forall s, (i, EvPrint s) ∉ trace P).
Proof.
  intros prefix P Hpre i f remote ft pc r Hup Hdone.
  destruct (push_uploader B _ _ _ _ _ _ _ _ _ _ _ _ Hup) as (l0 & ls & c & Hloc & -> & Hth).
  fold P prefix in Hloc, Hth.
  unfold current in Hdone. rewrite Hth in Hdone. injection Hdone as ->.
  pose proof (thread_replays B sched _ w _ _ _ Hth) as Hr. fold P in Hr.
  destruct (push_unit_done _ _ _ _ _ _ Hr) as (ft' & fs & Hes).
  exists l0, ls, fs. split; [exact Hloc|]. split; [reflexivity|].
  unfold push_unit_run in Hes.
  assert (negb (String.eqb prefix "") = true) as Hne.
  { destruct (String.eqb_spec prefix ""); [contradiction|reflexivity]. }
  rewrite Hne in Hes. simpl in Hes.
  split; [apply elem_of_events_of; rewrite Hes; right; left|].
  destruct (Z.eqb_spec (smartling.AwaitingAuthorizationCount fs) 0) as [Hz|Hnz].
  - split.
    + split; [intros _; exact Hz|]. intros _. exists (Ok tt).
      apply elem_of_events_of. rewrite Hes. do 2 right. left.
    + intros _. split.
      * exact Hr.
      * intros s Hin. apply elem_of_events_of in Hin. rewrite Hes in Hin.
        repeat (apply elem_of_cons in Hin as [Heq|Hin]; [discriminate|]). inversion Hin.
  - split; [|intros Hz; contradiction].
    split; [|intros Hz; contradiction].
    intros [r' Hin]. apply elem_of_events_of in Hin. rewrite Hes in Hin.
    repeat (apply elem_of_cons in Hin as [Heq|Hin]; [discriminate|]). inversion Hin.
Qed.

Lemma push_prefix_delete_iff_no_new_strings_witness :
  exists l0 ls fs,
    (0, EvLocales (Ok (l0 :: ls))) ∈ trace (demo_push "feature-x" [0; 0; 0; 0; 1; 1; 1]) /\
    "/feature-x/copy.json" = remoteFile (prefixOf "" "feature-x") "copy.json" /\
    (1, EvStatus "/feature-x/copy.json" (smartling.Locale l0) (Ok fs))
      ∈ trace (demo_push "feature-x" [0; 0; 0; 0; 1; 1; 1]) /\
    ((exists r', (1, EvDelete "/feature-x/copy.json" r')
                   ∈ trace (demo_push "feature-x" [0; 0; 0; 0; 1; 1; 1]))
     <-> smartling.AwaitingAuthorizationCount fs = 0%Z) /\
    (smartling.AwaitingAuthorizationCount fs = 0%Z ->
     replays (push_unit (demo_config ["copy.json"; "new.json"] "") demo_filetypes
                (prefixOf "" "feature-x") (smartling.Locale l0) "copy.json")
       (events_of 1 (trace (demo_push "feature-x" [0; 0; 0; 0; 1; 1; 1])))
       (push_report false fs "/feature-x/copy.json") /\
     forall s, (1, EvPrint s) ∉ trace (demo_push "feature-x" [0; 0; 0; 0; 1; 1; 1])).
Proof.
  apply (push_prefix_delete_iff_no_new_strings
           (demo_backend ["fr-FR"; "de-DE"] demo_push_status)
           (demo_config ["copy.json"; "new.json"] "") demo_filetypes "" "feature-x"
           demo_world [0; 0; 0; 0; 1; 1; 1]
           ltac:(vm_compute; discriminate)
           1 "copy.json" "/feature-x/copy.json" "json" [] (Ok tt)).
  - apply elem_of_events_of, list_elem_of_In. vm_compute. auto.
  - vm_compute. reflexivity.
Defined.

(** C2. In a push run whose prefix is empty after normalization, no
    delete call is ever issued, whatever the schedule and whatever the
    service answers. *)
Theorem push_without_prefix_never_deletes
    {E : Type} (B : Backend E) (ProjectConfig : Config)
    (FileTypeByExtension : string -> string) (pushPrefix flag : string)
    (w : World E) (sched : list nat) :
  let P := run_sched B sched
             (init (projectPushCommand ProjectConfig FileTypeByExtension pushPrefix flag) w) in
  prefixOf pushPrefix flag = "" ->
  forall i remote r, (i, EvDelete remote r) ∉ trace P.
Proof.
  intros P Hpre i remote r Hin.
  destruct (trace_thread B sched _ w _ _ Hin) as (o & c & Hth).
  pose proof (thread_replays B sched _ w _ _ _ Hth) as Hr.
  apply elem_of_events_of in Hin.
  destruct i as [|i].
  - destruct (main_thread B sched
                (projectPushCommand ProjectConfig FileTypeByExtension pushPrefix flag) w)
      as [c0 Hc0].
    rewrite Hc0 in Hth. injection Hth as <- <-.
    destruct (own_replays _ _ _ _ _ (push_main_own _ _ _ flag) Hr Hin).
  - destruct (push_thread B _ _ _ _ _ _ (S i) o c ltac:(lia) Hth)
      as (l0 & ls & f' & _ & _ & ->).
    destruct (own_replays _ _ _ _ _ (push_unit_own _ _ _ _ _) Hr Hin) as [_ Hne].
    apply Hne. exact Hpre.
Qed.

Lemma push_without_prefix_never_deletes_witness :
  prefixOf "" "" = "" /\
  forall i remote r,
    (i, EvDelete remote r) ∉ trace (demo_push "" [0; 0; 0; 1; 2; 1; 2; 1; 2; 0]).
Proof.
  assert (prefixOf "" "" = "") as Hpre by (vm_compute; reflexivity).
  split; [exact Hpre|].
  exact (push_without_prefix_never_deletes
           (demo_backend ["fr-FR"; "de-DE"] demo_push_status)
           (demo_config ["copy.json"; "new.json"] "") demo_filetypes "" ""
           demo_world [0; 0; 0; 1; 2; 1; 2; 1; 2; 0] Hpre).
Defined.

(** C6. In a push run with prefix [feature-x], the file [copy.json] is
    uploaded to the remote path [/feature-x/copy.json]; and when the
    status of the first locale showed no string awaiting authorization,
    no count line is printed for the file and the goroutine goes on to
    delete that remote path: the delete has been issued once the
    goroutine has finished, as it has when the command has returned, and
    it has succeeded when the goroutine has returned. *)
Theorem push_feature_x_copy_json
    {E : Type} (B : Backend E) (ProjectConfig : Config)
    (FileTypeByExtension : string -> string) (pushPrefix : string)
    (w : World E) (sched : list nat) :
  let P := run_sched B sched
             (init (projectPushCommand ProjectConfig FileTypeByExtension pushPrefix "feature-x") w) in
  forall i remote ft pc r,
    (i, EvUpload "copy.json" remote ft pc r) ∈ trace P ->
    remote = "/feature-x/copy.json" /\
    forall l fs,
      (i, EvStatus remote l (Ok fs)) ∈ trace P ->
      smartling.AwaitingAuthorizationCount fs = 0%Z ->
      (forall s, (i, EvPrint s) ∉ trace P) /\
      (returned P -> exists r', (i, EvDelete "/feature-x/copy.json" r') ∈ trace P) /\
      (current i P = Some Done -> (i, EvDelete "/feature-x/copy.json" (Ok tt)) ∈ trace P).
Proof.
  intros P i remote ft pc r Hup.
  destruct (push_uploader B _ _ _ _ _ _ _ _ _ _ _ _ Hup) as (l0 & ls & c & Hloc & -> & Hth).
  fold P in Hloc, Hth.
  assert (remoteFile (prefixOf pushPrefix "feature-x") "copy.json" = "/feature-x/copy.json")
    as Hrem by (vm_compute; reflexivity).
  assert (prefixOf pushPrefix "feature-x" <> "") as Hpre by (vm_compute; discriminate).
  split; [exact Hrem|].
  intros l fs Hst Hz.
  pose proof (thread_replays B sched _ w _ _ _ Hth) as Hr. fold P in Hr.
  apply elem_of_events_of in Hst.
  assert (finished c ->
          exists r', (i, EvDelete "/feature-x/copy.json" r') ∈ trace P /\
                     (c = Done -> r' = Ok tt)) as Hfin.
  { intros Hc.
    destruct (push_unit_finished _ _ _ _ _ _ _ Hr Hc)
      as [[_ (ft' & fs' & _ & Hes)]|(m & Hm & Hpanic)].
    - exists (Ok tt). split; [|reflexivity].
      unfold push_unit_run in Hes.
      destruct (String.eqb_spec (prefixOf pushPrefix "feature-x") "") as [Hp|_];
        [contradiction|].
      rewrite Hes in Hst. simpl in Hst.
      assert (fs' = fs) as ->.
      { apply elem_of_cons in Hst as [Heq|Hst]; [discriminate|].
        apply elem_of_cons in Hst as [Heq|Hst]; [congruence|].
        destruct (_ =? _)%Z; apply elem_of_cons in Hst as [Heq|Hst];
          try discriminate; inversion Hst. }
      rewrite Hz in Hes. simpl in Hes.
      apply elem_of_events_of. rewrite Hes, Hrem. do 2 right. left.
    - exists (Err m). split; [|intros Hd; rewrite Hd in Hm; discriminate].
      unfold push_unit_panic in Hpanic.
      destruct Hpanic as [[_ Hes]|(ft' & _ & [Hes|[Hes|(fs' & _ & _ & Hes)]])];
        rewrite Hes in Hst.
      + inversion Hst.
      + apply elem_of_cons in Hst as [Heq|Hst]; [discriminate|inversion Hst].
      + apply elem_of_cons in Hst as [Heq|Hst]; [discriminate|].
        apply elem_of_cons in Hst as [Heq|Hst]; [discriminate|inversion Hst].
      + apply elem_of_events_of. rewrite Hes, Hrem. do 2 right. left. }
  split; [|split].
  - intros s Hin. apply elem_of_events_of in Hin.
    destruct (push_unit_print _ _ _ _ _ _ _ _ Hr Hin) as (ft' & fs' & _ & Hp & Hes).
    rewrite Hes in Hst.
    apply elem_of_cons in Hst as [Heq|Hst]; [discriminate|].
    apply elem_of_cons in Hst as [Heq|Hst].
    + injection Heq as _ <-. destruct Hp as [Hp|Hp]; contradiction.
    + apply elem_of_cons in Hst as [Heq|Hst]; [discriminate|inversion Hst].
  - intros Hret.
    pose proof (joining_run B sched _ w (push_main_joins _ _ _ "feature-x") Hret _ _ _ Hth)
      as Hc.
    destruct (Hfin Hc) as (r' & Hdel & _). exists r'. exact Hdel.
  - intros Hdone. unfold current in Hdone. rewrite Hth in Hdone. injection Hdone as Hdone.
    destruct (Hfin (or_introl Hdone)) as (r' & Hdel & Hok).
    rewrite (Hok Hdone) in Hdel. exact Hdel.
Qed.

Lemma push_feature_x_copy_json_witness :
  "/feature-x/copy.json" = "/feature-x/copy.json" /\
  (forall s, (1, EvPrint s) ∉ trace (demo_push "feature-x" [0; 0; 0; 0; 1; 2; 1; 2; 1; 2; 0])) /\
  (1, EvDelete "/feature-x/copy.json" (Ok tt))
    ∈ trace (demo_push "feature-x" [0; 0; 0; 0; 1; 2; 1; 2; 1; 2; 0]).
Proof.
  destruct (push_feature_x_copy_json
              (demo_backend ["fr-FR"; "de-DE"] demo_push_status)
              (demo_config ["copy.json"; "new.json"] "") demo_filetypes ""
              demo_world [0; 0; 0; 0; 1; 2; 1; 2; 1; 2; 0]
              1 "/feature-x/copy.json" "json" [] (Ok tt)) as [Hremote Hdel].
  - apply elem_of_events_of, list_elem_of_In. vm_compute. auto.
  - split; [exact Hremote|].
    destruct (Hdel "fr-FR" (counts 0 0 7)) as (Hnp & _ & Hdone).
    + apply elem_of_events_of, list_elem_of_In. vm_compute. auto.
    + reflexivity.
    + split; [exact Hnp|]. apply Hdone. vm_compute. reflexivity.
Defined.

(** C10. When the service lists no locale, the push command panics on
    [locales[0]]: whatever the schedule, no goroutine is ever started and
    nothing is uploaded, the command never returns normally, and its
    second step at the latest is the index-out-of-range panic. *)
Theorem push_empty_locales_panics
    {E : Type} (B : Backend E) (ProjectConfig : Config)
    (FileTypeByExtension : string -> string) (pushPrefix flag : string)
    (w : World E) (sched : list nat) :
  let main := projectPushCommand ProjectConfig FileTypeByExtension pushPrefix flag in
  let P := run_sched B sched (init main w) in
  (be_locales B (env w)).1 = Ok [] ->
  (forall j child, (j, EvSpawn child) ∉ trace P) /\
  length (threads P) = 1 /\
  (forall j f remote ft pc r, (j, EvUpload f remote ft pc r) ∉ trace P) /\
  ~ returned P /\
  current 0 (run_sched B [0; 0] (init main w))
    = Some (Panic "runtime error: index out of range").
Proof.
  intros main P Hloc.
  set (k := fun prefix : string =>
         Do CLocales (fun r => orPanic r (fun locales =>
           match locales with
           | [] => Panic "runtime error: index out of range"
           | l0 :: _ =>
               spawn_each (Files ProjectConfig)
                 (push_unit ProjectConfig FileTypeByExtension prefix (smartling.Locale l0))
                 (Wait Done)
           end))).
  set (prefix := prefixOf pushPrefix flag).
  assert (main = k prefix \/
          main = Do (CPrint (fmt.Sprintln [fmt.OStr "Using prefix"; fmt.OStr prefix]))
                    (fun _ => k prefix)) as Hmain.
  { unfold main, projectPushCommand, getPrefix. fold prefix.
    destruct (negb _); [right|left]; reflexivity. }
  set (I := fun Q : Pool E =>
         (forall j e, (j, e) ∈ trace Q -> exists s, e = EvPrint s \/ exists r, e = EvLocales r) /\
         exists o c, threads Q = [(o, c)] /\
           (c = Panic "runtime error: index out of range" \/
            (env (world Q) = env w /\ (c = main \/ c = k prefix)))).
  assert (forall Q o, threads Q = [(o, k prefix)] -> env (world Q) = env w ->
          (forall j e, (j, e) ∈ trace Q ->
             exists s, e = EvPrint s \/ exists r, e = EvLocales r) ->
          I (step B 0 Q) /\
          current 0 (step B 0 Q) = Some (Panic "runtime error: index out of range")) as Hstep.
  { intros Q o Hth Henv Htr. unfold step. rewrite Hth. simpl. unfold lift_env. rewrite Henv.
    destruct (be_locales B (env w)) as [a e']. simpl in Hloc. subst a. simpl.
    split; [|reflexivity]. split.
    - intros j e Hin. apply elem_of_app in Hin as [Hin|Hin]; [eapply Htr; eassumption|].
      apply list_elem_of_singleton in Hin. injection Hin as _ ->.
      exists "". right. eauto.
    - eexists _, _. split; [reflexivity|]. left. reflexivity. }
  assert (I P) as [Htr (o & c & Hth & Hc)].
  { apply (run_sched_ind_step B I).
    - intros i Q [Htr (o & c & Hth & Hc)].
      destruct i as [|i].
      2:{ unfold step. rewrite Hth. simpl. split; [exact Htr|]. exists o, c. auto. }
      destruct Hc as [->|[Henv [->| ->]]].
      + unfold step. rewrite Hth. simpl. split; [exact Htr|]. eexists _, _. eauto.
      + destruct Hmain as [Hm|Hm].
        * rewrite Hm in Hth. apply (Hstep Q o); assumption.
        * unfold step. rewrite Hth, Hm. simpl. split.
          -- intros j e Hin. apply elem_of_app in Hin as [Hin|Hin]; [eapply Htr; eassumption|].
             apply list_elem_of_singleton in Hin. injection Hin as _ ->. eauto.
          -- eexists _, _. split; [reflexivity|]. right. split; [exact Henv|]. right. reflexivity.
      + apply (Hstep Q o); assumption.
    - split; [intros j e Hin; inversion Hin|].
      exists main, main. split; [reflexivity|]. right. auto. }
  split; [|split; [|split; [|split]]].
  - intros j child Hin. destruct (Htr _ _ Hin) as [s [H|[r H]]]; discriminate.
  - rewrite Hth. reflexivity.
  - intros j f remote ft pc r Hin. destruct (Htr _ _ Hin) as [s [H|[r' H]]]; discriminate.
  - unfold returned, current. rewrite Hth. simpl. intros Heq. injection Heq as Heq.
    destruct Hc as [->|[_ [->| ->]]]; try discriminate.
    destruct Hmain as [Hm|Hm]; rewrite Hm in Heq; discriminate.
  - simpl. destruct Hmain as [Hm|Hm].
    + destruct (Hstep (init main w) main) as [HI Hcur];
        [simpl; rewrite Hm; reflexivity|reflexivity|intros j e Hin; inversion Hin|].
      unfold current in *. destruct HI as [_ (o' & c' & Hth' & _)].
      rewrite Hth' in Hcur. simpl in Hcur. injection Hcur as ->.
      unfold step at 1. rewrite Hth'. simpl. rewrite Hth'. reflexivity.
    + assert (step B 0 (init main w)
              = {| threads := [(main, k prefix)]; world := w;
                   trace := [(0, EvPrint (fmt.Sprintln [fmt.OStr "Using prefix"; fmt.OStr prefix]))] |})
        as ->.
      { unfold step, init. simpl. rewrite Hm. simpl. reflexivity. }
      eapply proj2. apply (Hstep _ main); [reflexivity|reflexivity|].
      intros j e Hin. apply list_elem_of_singleton in Hin. injection Hin as _ ->. eauto.
Qed.

Lemma push_empty_locales_panics_witness :
  (be_locales no_locales_backend (env demo_world)).1 = Ok [] /\
  (forall j child, (j, EvSpawn child) ∉ trace (no_locales_push [0; 0; 0; 1])) /\
  length (threads (no_locales_push [0; 0; 0; 1])) = 1 /\
  (forall j f remote ft pc r,
     (j, EvUpload f remote ft pc r) ∉ trace (no_locales_push [0; 0; 0; 1])) /\
  ~ returned (no_locales_push [0; 0; 0; 1]) /\
  current 0 (no_locales_push [0; 0])
    = Some (Panic "runtime error: index out of range").
Proof.
  split; [reflexivity|].
  exact (push_empty_locales_panics no_locales_backend
           (demo_config ["copy.json"] "") demo_filetypes "" "feature-x"
           demo_world [0; 0; 0; 1] eq_refl).
Defined.

(** ** [filepath.Clean] on paths in clean form *)

Example plain_path_examples :
  map plain_path ["copy.json"; "a/b.json"; "a/.hidden/..x"; ""; "/a"; "a//b"; "a/./b"; "../a"; "a/"]
  = [true; true; true; false; false; false; false; false; false].
Proof. vm_compute. reflexivity. Qed.

Lemma split_sep_cons p : exists e r, split_sep p = e :: r.
Proof.
  destruct p as [|c p]; simpl; [eauto|].
  destruct (filepath.IsPathSeparator c); [eauto|].
  destruct (split_sep p); eauto.
Qed.

Lemma join_split_sep p : filepath.join_sep (split_sep p) = p.
Proof.
  induction p as [|c p IH]; [reflexivity|]. simpl.
  destruct (split_sep_cons p) as (e & r & Hs). rewrite Hs in *.
  destruct (filepath.IsPathSeparator c) eqn:Hc.
  - apply Ascii.eqb_eq in Hc. subst c.
    change (filepath.join_sep ("" :: e :: r))
      with (String filepath.Separator (filepath.join_sep (e :: r))).
    rewrite IH. reflexivity.
  - destruct r as [|e' r]; simpl in *; rewrite <- IH; reflexivity.
Qed.

Lemma to_list_app a b :
  GoString.to_list (a +:+ b) = GoString.to_list a ++ GoString.to_list b.
Proof. induction a as [|c a IH]; simpl; [reflexivity|]. f_equal. exact IH. Qed.

Lemma append_empty_r s : s +:+ "" = s.
Proof.
  induction s as [|c s IH]; [reflexivity|].
  change (String c (s +:+ "") = String c s). f_equal. exact IH.
Qed.

Lemma of_list_to_list s : GoString.of_list (GoString.to_list s) = s.
Proof. apply string_of_list_ascii_of_string. Qed.

(** Copying the rest of an element. *)
Lemma clean_loop_copy rooted e : forall rest out dd,
  no_sep e = true ->
  filepath.clean_loop rooted (e +:+ rest) out dd true
  = filepath.clean_loop rooted rest (rev (GoString.to_list e) ++ out) dd true.
Proof.
  induction e as [|c e IH]; intros rest out dd Hns; [reflexivity|].
  simpl in Hns. apply andb_true_iff in Hns as [Hc Hns].
  apply negb_true_iff in Hc. simpl. rewrite Hc.
  rewrite IH by exact Hns. rewrite <- app_assoc. reflexivity.
Qed.

(** A plain element is copied to the output, after a separator unless
    the output is just the root. *)
Lemma clean_loop_elem e : forall rest out dd,
  plain_elem e = true ->
  filepath.at_elem_end rest = true ->
  filepath.clean_loop true (e +:+ rest) out dd false
  = filepath.clean_loop true rest (rev (GoString.to_list e) ++ with_sep out) dd true.
Proof.
  intros rest out dd Hp Hend. unfold plain_elem in Hp.
  repeat (apply andb_true_iff in Hp as [Hp ?]).
  destruct e as [|c e]; [discriminate|].
  match goal with H : no_sep _ = true |- _ => simpl in H;
    apply andb_true_iff in H as [Hc Hns] end.
  apply negb_true_iff in Hc.
  assert (forall s, e <> "" -> filepath.at_elem_end (e +:+ s) = false) as Hnot.
  { intros s Hne. destruct e as [|c' e']; [contradiction|]. simpl in Hns |- *.
    apply andb_true_iff in Hns as [Hc' _]. apply negb_true_iff in Hc'. exact Hc'. }
  assert (filepath.clean_loop true (String c e +:+ rest) out dd false
          = filepath.clean_loop true (e +:+ rest) (c :: with_sep out) dd true) as ->.
  { simpl. rewrite Hc.
    destruct (Ascii.eqb c ".") eqn:Hdot; simpl.
    - apply Ascii.eqb_eq in Hdot. subst c.
      rewrite Hnot by (intros ->; discriminate).
      destruct e as [|c2 e2]; [discriminate|]. simpl.
      destruct (Ascii.eqb c2 ".") eqn:Hdot2; simpl.
      + apply Ascii.eqb_eq in Hdot2. subst c2.
        destruct e2 as [|c3 e3]; [discriminate|].
        assert (filepath.IsPathSeparator c3 = false) as Hc3.
        { simpl in Hns. destruct (filepath.IsPathSeparator c3); [|reflexivity].
          simpl in Hns. discriminate. }
        simpl. rewrite Hc3. unfold with_sep.
        destruct (List.length out =? 1)%nat; reflexivity.
      + unfold with_sep. destruct (List.length out =? 1)%nat; reflexivity.
    - unfold with_sep.
      destruct (e +:+ rest); destruct (List.length out =? 1)%nat; reflexivity. }
  rewrite clean_loop_copy by exact Hns. simpl. rewrite <- app_assoc. reflexivity.
Qed.

Lemma clean_loop_elems elems : forall out dd,
  elems <> [] ->
  forallb plain_elem elems = true ->
  exists b, filepath.clean_loop true (filepath.join_sep elems) out dd false
            = filepath.clean_loop true "" (emit elems out) dd b.
Proof.
  induction elems as [|e elems IH]; intros out dd Hne Hall; [contradiction|].
  simpl in Hall. apply andb_true_iff in Hall as [He Hall].
  destruct elems as [|e' elems].
  - exists true. simpl filepath.join_sep.
    rewrite <- (append_empty_r e) at 1. rewrite clean_loop_elem by (exact He || reflexivity).
    reflexivity.
  - change (filepath.join_sep (e :: e' :: elems))
      with (e +:+ String filepath.Separator (filepath.join_sep (e' :: elems))).
    rewrite clean_loop_elem by (exact He || reflexivity).
    simpl filepath.clean_loop at 1.
    destruct (IH (rev (GoString.to_list e) ++ with_sep out) dd ltac:(discriminate) Hall)
      as [b Hb].
    exists b. exact Hb.
Qed.

Lemma plain_elem_nonempty e : plain_elem e = true -> 0 < List.length (GoString.to_list e).
Proof. destruct e; [discriminate|]. simpl. lia. Qed.

Lemma emit_spec elems : forall out,
  forallb plain_elem elems = true ->
  elems <> [] ->
  1 < List.length out ->
  emit elems out
  = rev (GoString.to_list (String filepath.Separator (filepath.join_sep elems))) ++ out.
Proof.
  induction elems as [|e elems IH]; intros out Hall Hne Hlen; [contradiction|].
  simpl in Hall. apply andb_true_iff in Hall as [He Hall].
  assert (with_sep out = filepath.Separator :: out) as Hws.
  { unfold with_sep. destruct (Nat.eqb_spec (List.length out) 1); [lia|reflexivity]. }
  simpl emit. rewrite Hws.
  destruct elems as [|e' elems].
  - simpl. rewrite <- app_assoc. reflexivity.
  - rewrite IH; [|exact Hall|discriminate|rewrite length_app; simpl; lia].
    change (filepath.join_sep (e :: e' :: elems))
      with (e +:+ String filepath.Separator (filepath.join_sep (e' :: elems))).
    change (GoString.to_list (String filepath.Separator ?s))
      with (filepath.Separator :: GoString.to_list s).
    rewrite to_list_app. simpl. rewrite ?rev_app_distr. simpl.
    rewrite <- ?app_assoc. simpl. rewrite <- ?app_assoc. reflexivity.
Qed.

Lemma Clean_rooted s :
  filepath.Clean (String filepath.Separator s)
  = match filepath.clean_loop true s [filepath.Separator] 1 false with
    | [] => "."
    | _ :: _ =>
        GoString.of_list (rev (filepath.clean_loop true s [filepath.Separator] 1 false))
    end.
Proof. reflexivity. Qed.

(** [Clean] leaves a rooted plain path as it is. *)
Lemma Clean_rooted_plain p :
  plain_path p = true -> filepath.Clean ("/" +:+ p) = "/" +:+ p.
Proof.
  unfold plain_path. intros Hall.
  change ("/" +:+ p) with (String filepath.Separator p).
  rewrite Clean_rooted. rewrite <- (join_split_sep p).
  destruct (split_sep_cons p) as (e & elems & Hs). rewrite Hs in *.
  destruct (clean_loop_elems (e :: elems) [filepath.Separator] 1 ltac:(discriminate) Hall)
    as [b ->].
  simpl filepath.clean_loop. simpl emit.
  simpl in Hall. apply andb_true_iff in Hall as [He Hall].
  change (with_sep [filepath.Separator]) with [filepath.Separator].
  assert (emit elems (rev (GoString.to_list e) ++ [filepath.Separator])
          = rev (GoString.to_list (String filepath.Separator (filepath.join_sep (e :: elems)))))
    as ->.
  { destruct elems as [|e' elems]; [reflexivity|].
    rewrite emit_spec; [|exact Hall|discriminate|].
    - change (filepath.join_sep (e :: e' :: elems))
        with (e +:+ String filepath.Separator (filepath.join_sep (e' :: elems))).
      change (GoString.to_list (String filepath.Separator ?s))
        with (filepath.Separator :: GoString.to_list s).
      rewrite to_list_app. simpl. rewrite ?rev_app_distr. simpl.
      rewrite <- ?app_assoc. simpl. rewrite <- ?app_assoc. reflexivity.
    - pose proof (plain_elem_nonempty _ He). rewrite length_app, length_rev. simpl. lia. }
  destruct (rev _) as [|c l] eqn:Hrev.
  - apply (f_equal (@List.length _)) in Hrev. rewrite length_rev in Hrev. discriminate.
  - rewrite <- Hrev, rev_involutive. apply of_list_to_list.
Qed.

(** C5 (as stated) fails: with an empty prefix, [copy.json] is uploaded
    to the remote path [/copy.json], not [copy.json]. *)
Lemma push_without_prefix_remote_path_counterexample :
  prefixOf "" "" = "" /\
  ~ (forall i f remote ft pc r,
       (i, EvUpload f remote ft pc r) ∈ trace (demo_push "" [0; 0; 0; 1]) -> remote = f).
Proof.
  split; [vm_compute; reflexivity|].
  intros H. specialize (H 1 "copy.json" "/copy.json" "json" [] (Ok tt)).
  assert ("/copy.json" = "copy.json") as Heq; [|discriminate Heq].
  apply H. apply elem_of_events_of, list_elem_of_In. vm_compute. auto.
Qed.

(** C5 (amended). With an empty prefix, every file is uploaded to the
    cleaned form of ["/" + path]: the project path under the root [/].
    For a project path in clean relative form that is the path with a
    leading slash. *)
Theorem push_without_prefix_remote_path
    {E : Type} (B : Backend E) (ProjectConfig : Config)
    (FileTypeByExtension : string -> string) (pushPrefix flag : string)
    (w : World E) (sched : list nat) :
  let P := run_sched B sched
             (init (projectPushCommand ProjectConfig FileTypeByExtension pushPrefix flag) w) in
  prefixOf pushPrefix flag = "" ->
  forall i f remote ft pc r,
    (i, EvUpload f remote ft pc r) ∈ trace P ->
    remote = filepath.Clean ("/" +:+ f) /\
    (plain_path f = true -> remote = "/" +:+ f).
Proof.
  intros P Hpre i f remote ft pc r Hup.
  destruct (push_uploader B _ _ _ _ _ _ _ _ _ _ _ _ Hup) as (l0 & ls & c & _ & -> & _).
  rewrite Hpre. unfold remoteFile.
  change ("" +:+ "/" +:+ f) with ("/" +:+ f).
  split; [reflexivity|]. apply Clean_rooted_plain.
Qed.

Lemma push_without_prefix_remote_path_witness :
  "/copy.json" = filepath.Clean ("/" +:+ "copy.json") /\
  (plain_path "copy.json" = true -> "/copy.json" = "/" +:+ "copy.json").
Proof.
  apply (push_without_prefix_remote_path
           (demo_backend ["fr-FR"; "de-DE"] demo_push_status)
           (demo_config ["copy.json"; "new.json"] "") demo_filetypes "" ""
           demo_world [0; 0; 0; 1]
           ltac:(vm_compute; reflexivity)
           1 "copy.json" "/copy.json" "json" [] (Ok tt)).
  apply elem_of_events_of, list_elem_of_In. vm_compute. auto.
Defined.

(** ** pull: the destination path *)

(** C8: evaluation of the code.  When the project configures no pull-path
    template ([PullFilePath] is empty), the template that is rendered is
    the empty one, whatever [defaultPullDestination] is: line 251 tests
    the default instead of the configured template.  The destination is
    then the project root, for every file and every locale. *)
Theorem pull_path_without_template_is_project_root
    (defaultPullDestination : string) (files : list string) (p locale : string) :
  pullTemplate (demo_config files "") defaultPullDestination = ""
  /\ localPullFilePath (demo_config files "") defaultPullDestination p locale = Some (Ok ".")
  /\ localPullFilePath (demo_config files "") defaultPullDestination "a/b.json" "fr-FR"
     <> Some (Ok "a/b.json").
Proof.
  assert (pullTemplate (demo_config files "") defaultPullDestination = "") as Ht.
  { unfold pullTemplate. destruct (String.eqb_spec defaultPullDestination ""); simpl; auto. }
  assert (forall q l,
            localPullFilePath (demo_config files "") defaultPullDestination q l = Some (Ok "."))
    as Hp.
  { intros q l. unfold localPullFilePath. rewrite Ht. reflexivity. }
  split; [exact Ht|]. split; [apply Hp|]. rewrite Hp. discriminate.
Qed.

(** C9. With the configured template [{{.Dir}}/{{.Locale}}/{{.Base}}]
    (and a non-empty default, so that the configured template is used),
    the pull destination of [a/b.json] for [fr-FR] is [a/fr-FR/b.json]
    made relative against the project root; for a project rooted in the
    working directory that is [a/fr-FR/b.json] itself. *)
Theorem pull_path_dir_locale_base
    (ProjectConfig : Config) (defaultPullDestination : string) :
  defaultPullDestination <> "" ->
  PullFilePath (FileConfig ProjectConfig) = "{{.Dir}}/{{.Locale}}/{{.Base}}" ->
  localPullFilePath ProjectConfig defaultPullDestination "a/b.json" "fr-FR"
    = Some (localRelativeFilePath ProjectConfig "a/fr-FR/b.json")
  /\ (path ProjectConfig = "." ->
      localPullFilePath ProjectConfig defaultPullDestination "a/b.json" "fr-FR"
        = Some (Ok "a/fr-FR/b.json")).
Proof.
  intros Hd Ht.
  assert (localPullFilePath ProjectConfig defaultPullDestination "a/b.json" "fr-FR"
          = Some (localRelativeFilePath ProjectConfig "a/fr-FR/b.json")) as Hp.
  { unfold localPullFilePath, pullTemplate. rewrite Ht.
    destruct (String.eqb_spec defaultPullDestination ""); [contradiction|].
    reflexivity. }
  split; [exact Hp|]. intros Hroot. rewrite Hp.
  unfold localRelativeFilePath. rewrite Hroot. reflexivity.
Qed.

Lemma pull_path_dir_locale_base_witness :
  localPullFilePath (demo_config ["a/b.json"] "{{.Dir}}/{{.Locale}}/{{.Base}}")
    "{{.Path}}" "a/b.json" "fr-FR"
    = Some (localRelativeFilePath (demo_config ["a/b.json"] "{{.Dir}}/{{.Locale}}/{{.Base}}")
              "a/fr-FR/b.json")
  /\ localPullFilePath (demo_config ["a/b.json"] "{{.Dir}}/{{.Locale}}/{{.Base}}")
       "{{.Path}}" "a/b.json" "fr-FR"
     = Some (Ok "a/fr-FR/b.json").
Proof.
  destruct (pull_path_dir_locale_base
              (demo_config ["a/b.json"] "{{.Dir}}/{{.Locale}}/{{.Base}}") "{{.Path}}"
              ltac:(discriminate) eq_refl) as [H1 H2].
  split; [exact H1|exact (H2 eq_refl)].
Defined.

(** ** pull: the cache *)

Example demo_pull_twice :
  let '(q1, w1, es1) := demo_pull demo_world in
  let '(q2, w2, es2) := demo_pull w1 in
  (q1, es1, q2, es2)
  = (Done,
     [EvTranslate ("fr-FR", "a/b.json", "json", []) (Ok (false, "fr-FR:a/b.json"));
      EvPrint ("a/fr-FR/b.json " +:+ fmt.newline);
      EvWriteFile "a/fr-FR/b.json" "fr-FR:a/b.json" (Ok tt)],
     Done,
     [EvTranslate ("fr-FR", "a/b.json", "json", []) (Ok (true, "fr-FR:a/b.json"));
      EvPrint ("a/fr-FR/b.json (using cache)" +:+ fmt.newline);
      EvWriteFile "a/fr-FR/b.json" "fr-FR:a/b.json" (Ok tt)]).
Proof. vm_compute. reflexivity. Qed.

Section PullFacts.

Context {E : Type} (B : Backend E).

Variable ProjectConfig : Config.

Variable defaultPullDestination : string.

Variable FileTypeByExtension : string -> string.

Local Abbreviation unit_of :=
  (pull_unit ProjectConfig defaultPullDestination FileTypeByExtension).

(** A hit leaves the world as it is and returns the stored bytes. *)
Lemma translateViaCache_hit key b (w : World E) :
  cache w !! key = Some b -> translateViaCache B key w = (Ok (true, b), w).
Proof. intros H. unfold translateViaCache. rewrite H. reflexivity. Qed.

(** After a successful call the entry of the key holds the returned
    bytes. *)
Lemma translateViaCache_stores key hit b (w w1 : World E) :
  translateViaCache B key w = (Ok (hit, b), w1) -> cache w1 !! key = Some b.
Proof.
  unfold translateViaCache. destruct (cache w !! key) as [b'|] eqn:Hc.
  - intros H. injection H as _ <- <-. exact Hc.
  - destruct (be_fetch B key (env w)) as [[b'|m] e]; intros H; [|discriminate].
    injection H as _ <- <-. simpl. apply lookup_insert_eq.
Qed.

(** The calls after the cache lookup do not touch the cache. *)
Lemma pull_unit_alone locale f (w w1 : World E) es :
  run_alone B (unit_of locale f) w = (Done, w1, es) ->
  exists lp ft hit b fp wc,
    localRelativeFilePath ProjectConfig f = Ok lp /\
    filetypeForProjectFile ProjectConfig FileTypeByExtension f = Ok ft /\
    localPullFilePath ProjectConfig defaultPullDestination f locale = Some (Ok fp) /\
    translateViaCache B (pull_key ProjectConfig locale lp ft) w = (Ok (hit, b), wc) /\
    cache w1 = cache wc /\
    es = pull_unit_run (pull_key ProjectConfig locale lp ft) hit b fp (Ok tt).
Proof.
  unfold pull_unit.
  destruct (localRelativeFilePath ProjectConfig f) as [lp|m]; simpl; [|discriminate].
  destruct (filetypeForProjectFile ProjectConfig FileTypeByExtension f) as [ft|m];
    simpl; [|discriminate].
  destruct (translateViaCache B (pull_key ProjectConfig locale lp ft) w)
    as [[[hit b]|m] wc] eqn:Ht; simpl; [|discriminate].
  destruct (localPullFilePath ProjectConfig defaultPullDestination f locale)
    as [[fp|m]|]; simpl; [|discriminate|discriminate].
  unfold lift_env.
  destruct (be_write_file B fp b (env wc)) as [[[]|m] e] eqn:Hw; simpl; [|discriminate].
  intros H. injection H as <- <-.
  exists lp, ft, hit, b, fp, wc. repeat split; try reflexivity. exact Ht.
Qed.

End PullFacts.

(** C4. Pulling the same (file, locale) pair twice: when the first pull
    has succeeded and every cache entry it left is still there (no
    invalidation in between, whatever else happened to the world), the
    second pull reports a cache hit and writes the same bytes to the same
    destination path as the first. *)
Theorem pull_twice_hits_cache
    {E : Type} (B : Backend E) (ProjectConfig : Config) (defaultPullDestination : string)
    (FileTypeByExtension : string -> string) (locale f : string)
    (w w1 w1' : World E) (es1 : list Event) :
  let unit_ := pull_unit ProjectConfig defaultPullDestination FileTypeByExtension locale f in
  run_alone B unit_ w = (Done, w1, es1) ->
  cache w1 ⊆ cache w1' ->
  exists key hit1 b fp r2,
    es1 = pull_unit_run key hit1 b fp (Ok tt) /\
    (run_alone B unit_ w1').2 = pull_unit_run key true b fp r2 /\
    (run_alone B unit_ w1').1.1 = orPanic r2 (fun _ => Done).
Proof.
  intros unit_ Hrun Hsub.
  destruct (pull_unit_alone B _ _ _ _ _ _ _ _ Hrun)
    as (lp & ft & hit & b & fp & wc & Hlp & Hft & Hfp & Ht & Hc & ->).
  pose proof (translateViaCache_stores B _ _ _ _ _ Ht) as Hstored.
  rewrite <- Hc in Hstored.
  pose proof (lookup_weaken _ _ _ _ Hstored Hsub) as Hkept.
  exists (pull_key ProjectConfig locale lp ft), hit, b, fp,
    (be_write_file B fp b (env w1')).1.
  split; [reflexivity|].
  unfold unit_, pull_unit. rewrite Hlp, Hft. simpl.
  rewrite (translateViaCache_hit B _ _ _ Hkept). simpl. rewrite Hfp. simpl.
  unfold lift_env. destruct (be_write_file B fp b (env w1')) as [[[]|m] e]; simpl;
    split; reflexivity.
Qed.

Lemma pull_twice_hits_cache_witness :
  exists key hit1 b fp r2,
    (demo_pull demo_world).2 = pull_unit_run key hit1 b fp (Ok tt) /\
    (demo_pull (demo_pull demo_world).1.2).2 = pull_unit_run key true b fp r2 /\
    (demo_pull (demo_pull demo_world).1.2).1.1 = orPanic r2 (fun _ => Done).
Proof.
  apply (pull_twice_hits_cache (demo_backend ["fr-FR"] demo_push_status)
           demo_pull_config "{{.Path}}" demo_filetypes "fr-FR" "a/b.json"
           demo_world (demo_pull demo_world).1.2 (demo_pull demo_world).1.2
           (demo_pull demo_world).2).
  - vm_compute. reflexivity.
  - reflexivity.
Defined.

(** ** status *)

Example demo_status_one_by_one :
  let P := demo_status sched_one_by_one in
  (current 0 P, current 1 P, current 2 P) = (Some Done, Some Done, Some Done)
  /\ cell_of (statuses (world P)) "strings.json" "fr-FR" = Some (counts 2 1 5)
  /\ cell_of (statuses (world P)) "strings.json" "de-DE" = Some (counts 0 0 7)
  /\ stdout_of (trace P)
     = fmt.newline +:+ status_legend +:+ fmt.newline +:+ fmt.newline +:+
       "             fr-FR   de-DE" +:+ fmt.newline +:+
       "strings.json 2->1->5 0->0->7" +:+ fmt.newline.
Proof. vm_compute. repeat split; reflexivity. Qed.

Example demo_status_interleaved :
  let P := demo_status sched_interleaved in
  (current 0 P, current 1 P, current 2 P) = (Some Done, Some Done, Some Done)
  /\ events_of 1 (trace P)
     = [EvStatus "/tmp/strings.json" "fr-FR" (Ok (counts 2 1 5));
        EvMapHas "strings.json" false;
        EvMapMake "strings.json";
        EvMapStore "strings.json" "fr-FR" (counts 2 1 5) (Ok tt)]
  /\ events_of 2 (trace P)
     = [EvStatus "/tmp/strings.json" "de-DE" (Ok (counts 0 0 7));
        EvMapHas "strings.json" false;
        EvMapMake "strings.json";
        EvMapStore "strings.json" "de-DE" (counts 0 0 7) (Ok tt)]
  /\ cell_of (statuses (world P)) "strings.json" "fr-FR" = None
  /\ cell_of (statuses (world P)) "strings.json" "de-DE" = Some (counts 0 0 7)
  /\ stdout_of (trace P)
     = fmt.newline +:+ status_legend +:+ fmt.newline +:+ fmt.newline +:+
       "             fr-FR   de-DE" +:+ fmt.newline +:+
       "strings.json 0->0->0 0->0->7" +:+ fmt.newline.
Proof. vm_compute. repeat split; reflexivity. Qed.

(** C3: evaluation of the code.  A status run over the file
    [strings.json] and the locales [fr-FR], [de-DE] in which both
    goroutines find [statuses["strings.json"]] missing before either
    creates it: both status queries succeed, both goroutines store their
    cell and finish, the command returns, and the matrix has no entry for
    ([strings.json], [fr-FR]); the table shows [0->0->0] in its place. *)
Theorem status_matrix_lost_update :
  let P := demo_status sched_interleaved in
  returned P
  /\ EvStatus "/tmp/strings.json" "fr-FR" (Ok (counts 2 1 5)) ∈ events_of 1 (trace P)
  /\ EvMapStore "strings.json" "fr-FR" (counts 2 1 5) (Ok tt) ∈ events_of 1 (trace P)
  /\ (current 1 P, current 2 P) = (Some Done, Some Done)
  /\ cell_of (statuses (world P)) "strings.json" "fr-FR" = None
  /\ cell_of (statuses (world P)) "strings.json" "de-DE" = Some (counts 0 0 7)
  /\ GoString.contains (stdout_of (trace P)) "strings.json 0->0->0 0->0->7" = true.
Proof.
  split; [vm_compute; reflexivity|].
  split; [apply list_elem_of_In; vm_compute; auto|].
  split; [apply list_elem_of_In; vm_compute; auto 6|].
  vm_compute. repeat split; reflexivity.
Qed.

Lemma spawn_each_done {X} (xs : list X) u k : forall es,
  replays (spawn_each xs u k) es Done ->
  exists es0 es', es = es0 ++ es' /\ Forall loop_step es0 /\ replays k es' Done.
Proof.
  induction xs as [|x xs IH]; intros es Hr; simpl in Hr.
  - exists [], es. split; [reflexivity|]. split; [constructor|exact Hr].
  - destruct Hr as [[_ Hd]|(es1 & -> & Hr)]; [discriminate Hd|].
    destruct (IH _ Hr) as (es0 & es' & -> & Hall & Hk).
    exists (EvSpawn (u x) :: es0), es'. split; [reflexivity|].
    split; [constructor; [exact I|exact Hall]|exact Hk].
Qed.

Section StatusFacts.

Variable ProjectConfig : Config.

Variable FileTypeByExtension : string -> string.

Local Abbreviation status := (projectStatusCommand ProjectConfig FileTypeByExtension).

Lemma status_files_done files locales k : forall es,
  replays (status_files ProjectConfig FileTypeByExtension files locales k) es Done ->
  exists es0 es', es = es0 ++ es' /\ Forall loop_step es0 /\ replays k es' Done.
Proof.
  induction files as [|f files IH]; intros es Hr; simpl in Hr.
  - exists [], es. split; [reflexivity|]. split; [constructor|exact Hr].
  - apply replays_orPanic_Done in Hr as (lp & _ & Hr).
    apply replays_orPanic_Done in Hr as (ft & _ & Hr).
    apply replays_Do_Done in Hr as (r & es1 & -> & Hr).
    apply replays_orPanic_Done in Hr as (tmp & -> & Hr).
    apply spawn_each_done in Hr as (esa & esb & -> & Ha & Hr).
    destruct (IH _ Hr) as (es0 & es' & -> & Hall & Hk).
    exists (EvUploadTemp lp ft (ParserConfig (FileConfig ProjectConfig)) (Ok tmp)
            :: esa ++ es0), es'.
    split; [simpl; rewrite <- app_assoc; reflexivity|].
    split; [|exact Hk]. constructor; [exact I|]. apply Forall_app. split; assumption.
Qed.

(** The steps of a status command that has returned: it listed the
    locales, made the map, started the goroutines, joined them, read the
    matrix and printed its table. *)
Lemma status_main_done es :
  replays status es Done ->
  exists locales es0 m,
    es = EvLocales (Ok locales) :: EvMapInit :: es0 ++ status_render_run ProjectConfig m locales /\
    Forall loop_step es0.
Proof.
  unfold projectStatusCommand. intros Hr.
  apply replays_Do_Done in Hr as (r0 & es1 & -> & Hr).
  apply replays_orPanic_Done in Hr as (locales & -> & Hr).
  apply replays_Do_Done in Hr as ([] & es2 & -> & Hr).
  apply status_files_done in Hr as (es0 & es' & -> & Hall & Hr).
  simpl in Hr. destruct Hr as [[_ Hd]|(es4 & -> & Hr)]; [discriminate Hd|].
  unfold status_render in Hr.
  apply replays_Do_Done in Hr as ([] & ? & -> & Hr).
  apply replays_Do_Done in Hr as ([] & ? & -> & Hr).
  apply replays_Do_Done in Hr as ([] & ? & -> & Hr).
  apply replays_Do_Done in Hr as (m & ? & -> & Hr).
  apply replays_Do_Done in Hr as ([] & ? & -> & Hr).
  apply replays_Done in Hr as [-> _].
  exists locales, es0, m. split; [reflexivity|exact Hall].
Qed.

(** The table a returned status command printed is the table of the
    matrix it read, for the locales the service listed. *)
Lemma status_prints_table {E : Type} (B : Backend E) (w : World E) (sched : list nat)
    r m :
  let P := run_sched B sched (init status w) in
  returned P ->
  (0, EvLocales r) ∈ trace P ->
  (0, EvMapRead m) ∈ trace P ->
  exists locales,
    r = Ok locales /\
    (0, EvPrint (tabwriter.Flush (status_table m locales (Files ProjectConfig)))) ∈ trace P.
Proof.
  intros P Hret Hloc Hread.
  destruct (main_thread B sched status w) as [c Hc]. fold P in Hc.
  pose proof (thread_replays B sched _ w _ _ _ Hc) as Hr. fold P in Hr.
  unfold returned, current in Hret. rewrite Hc in Hret. injection Hret as ->.
  apply status_main_done in Hr as (locales & es0 & m0 & Hes & Hall).
  apply elem_of_events_of in Hloc, Hread. rewrite Hes in Hloc, Hread.
  assert (forall e, e ∈ es0 ++ status_render_run ProjectConfig m0 locales ->
            (forall r', e <> EvLocales r') /\ (forall m', e = EvMapRead m' -> m' = m0))
    as Hrest.
  { intros e Hin. apply elem_of_app in Hin as [Hin|Hin].
    - rewrite Forall_forall in Hall. specialize (Hall _ Hin).
      destruct e; try contradiction; split; intros; discriminate.
    - unfold status_render_run in Hin.
      repeat (apply elem_of_cons in Hin as [->|Hin];
              [split; intros; try discriminate; congruence|]).
      inversion Hin. }
  exists locales. split.
  - apply elem_of_cons in Hloc as [Heq|Hloc]; [congruence|].
    apply elem_of_cons in Hloc as [Heq|Hloc]; [discriminate|].
    destruct (Hrest _ Hloc) as [Hno _]. destruct (Hno r eq_refl).
  - apply elem_of_cons in Hread as [Heq|Hread]; [discriminate|].
    apply elem_of_cons in Hread as [Heq|Hread]; [discriminate|].
    destruct (Hrest _ Hread) as [_ Hm]. rewrite (Hm m eq_refl).
    apply elem_of_events_of. rewrite Hes. do 2 right.
    apply elem_of_app. right. unfold status_render_run. do 5 right. left.
Qed.

End StatusFacts.

(** C7 (as stated) fails: in the scenario the table is printed, and no
    cell of it reads [2 -> 1 -> 5] or [0 -> 0 -> 7]; the arrows have no
    blanks around them. *)
Lemma status_row_cells_counterexample :
  let P := demo_status sched_one_by_one in
  returned P
  /\ cell_of (statuses (world P)) "strings.json" "fr-FR" = Some (counts 2 1 5)
  /\ cell_of (statuses (world P)) "strings.json" "de-DE" = Some (counts 0 0 7)
  /\ GoString.contains (stdout_of (trace P)) "strings.json 2->1->5 0->0->7" = true
  /\ GoString.contains (stdout_of (trace P)) "2 -> 1 -> 5" = false
  /\ GoString.contains (stdout_of (trace P)) "0 -> 0 -> 7" = false.
Proof. vm_compute. repeat split; reflexivity. Qed.

(** C7 (amended).  Every cell is written as
    [awaiting->inProgress->completed], with no blanks around the arrows.
    In a status run over [strings.json] that has returned, where the
    service listed [fr-FR] and [de-DE] and the matrix read for the table
    holds the counts (2, 1, 5) for [fr-FR] and (0, 0, 7) for [de-DE], the
    printed table has the row [strings.json 2->1->5 0->0->7], each cell
    under the header of its locale. *)
Theorem status_row_cells
    {E : Type} (B : Backend E) (ProjectConfig : Config)
    (FileTypeByExtension : string -> string) (w : World E) (sched : list nat)
    (m : StatusMatrix) (fr de : smartling.FileStatus) :
  let P := run_sched B sched (init (projectStatusCommand ProjectConfig FileTypeByExtension) w) in
  Files ProjectConfig = ["strings.json"] ->
  returned P ->
  (0, EvLocales (Ok [fr_FR; de_DE])) ∈ trace P ->
  (0, EvMapRead m) ∈ trace P ->
  cell_of m "strings.json" "fr-FR" = Some fr ->
  cell_of m "strings.json" "de-DE" = Some de ->
  (smartling.AwaitingAuthorizationCount fr, smartling.InProgressCount fr,
   smartling.CompletedStringCount fr) = (2, 1, 5)%Z ->
  (smartling.AwaitingAuthorizationCount de, smartling.InProgressCount de,
   smartling.CompletedStringCount de) = (0, 0, 7)%Z ->
  (0, EvPrint scenario_table) ∈ trace P
  /\ forall (m' : StatusMatrix) (f l : string),
       let st := default smartling.zero_status (cell_of m' f l) in
       status_cell m' f l
       = tab +:+ fmt.d (smartling.AwaitingAuthorizationCount st) +:+ "->"
             +:+ fmt.d (smartling.InProgressCount st) +:+ "->"
             +:+ fmt.d (smartling.CompletedStringCount st).
Proof.
  intros P Hfiles Hret Hloc Hread Hfr Hde Hcfr Hcde. split.
  - destruct (status_prints_table ProjectConfig FileTypeByExtension B w sched _ _
                Hret Hloc Hread) as (locales & Heq & Hprint).
    injection Heq as <-. rewrite Hfiles in Hprint.
    replace scenario_table
      with (tabwriter.Flush (status_table m [fr_FR; de_DE] ["strings.json"]));
      [exact Hprint|].
    unfold status_table, status_row, status_cell. simpl map.
    unfold cell_of in Hfr, Hde. rewrite Hfr, Hde. simpl default.
    injection Hcfr as -> -> ->. injection Hcde as -> -> ->.
    vm_compute. reflexivity.
  - intros m' f l st. unfold status_cell, fmt.Sprint. simpl.
    fold (cell_of m' f l). fold st. rewrite append_empty_r. reflexivity.
Qed.

Lemma status_row_cells_witness :
  (0, EvPrint scenario_table) ∈ trace (demo_status sched_one_by_one)
  /\ forall (m' : StatusMatrix) (f l : string),
       let st := default smartling.zero_status (cell_of m' f l) in
       status_cell m' f l
       = tab +:+ fmt.d (smartling.AwaitingAuthorizationCount st) +:+ "->"
             +:+ fmt.d (smartling.InProgressCount st) +:+ "->"
             +:+ fmt.d (smartling.CompletedStringCount st).
Proof.
  apply (status_row_cells (demo_backend ["fr-FR"; "de-DE"] demo_status_of)
           demo_status_config demo_filetypes demo_world sched_one_by_one
           (statuses (world (demo_status sched_one_by_one))) (counts 2 1 5) (counts 0 0 7)).
  - reflexivity.
  - vm_compute. reflexivity.
  - apply list_elem_of_lookup. exists 0. vm_compute. reflexivity.
  - apply list_elem_of_lookup. exists 16. vm_compute. reflexivity.
  - vm_compute. reflexivity.
  - vm_compute. reflexivity.
  - reflexivity.
  - reflexivity.
Defined.

(** * Further properties of the commands *)

(** ** Rooted paths *)

Lemma backtrack_keeps_root l x :
  l <> [] -> exists l', filepath.backtrack (l ++ [x]) 1 = l' ++ [x].
Proof.
  induction l as [|c l IH]; intros Hne; [contradiction|]. simpl.
  destruct l as [|c' l].
  - exists []. reflexivity.
  - destruct (_ && _); [apply IH; discriminate|]. eauto.
Qed.

(** The output of [Clean] on a rooted path keeps its leading slash. *)
Lemma clean_loop_rooted n : forall p out in_elem,
  String.length p <= n ->
  (exists l, out = l ++ [filepath.Separator]) ->
  exists l', filepath.clean_loop true p out 1 in_elem = l' ++ [filepath.Separator].
Proof.
  induction n as [|n IH]; intros p out in_elem Hlen Hout.
  - destruct p; [exact Hout|simpl in Hlen; lia].
  - destruct p as [|c rest]; [exact Hout|]. simpl in Hlen.
    assert (forall x, exists l, x :: out = l ++ [filepath.Separator]) as Hcons.
    { intros x. destruct Hout as [l ->]. exists (x :: l). reflexivity. }
    assert (forall x y, exists l, x :: y :: out = l ++ [filepath.Separator]) as Hcons2.
    { intros x y. destruct Hout as [l ->]. exists (x :: y :: l). reflexivity. }
    simpl.
    destruct (filepath.IsPathSeparator c); [apply IH; [lia|exact Hout]|].
    destruct in_elem; [apply IH; [lia|apply Hcons]|].
    destruct (Ascii.eqb c "." && filepath.at_elem_end rest); [apply IH; [lia|exact Hout]|].
    assert (exists l',
              filepath.clean_loop true rest
                (c :: (if negb (List.length out =? 1)%nat || false
                       then filepath.Separator :: out else out)) 1 true
              = l' ++ [filepath.Separator]) as Hreal.
    { apply IH; [lia|]. destruct (negb _ || false); [apply Hcons2|apply Hcons]. }
    destruct rest as [|c2 rest2]; [exact Hreal|].
    destruct (Ascii.eqb c "." && Ascii.eqb c2 "." && filepath.at_elem_end rest2);
      [|exact Hreal].
    simpl in Hlen.
    destruct (1 <? List.length out)%nat eqn:Hw.
    + apply IH; [lia|]. destruct Hout as [l ->].
      apply backtrack_keeps_root. intros ->. simpl in Hw. discriminate.
    + simpl. apply IH; [lia|exact Hout].
Qed.

Lemma Clean_keeps_root p :
  filepath.starts_with_sep p = true -> filepath.starts_with_sep (filepath.Clean p) = true.
Proof.
  destruct p as [|c rest]; [discriminate|]. simpl filepath.starts_with_sep. intros Hc.
  unfold filepath.Clean. rewrite Hc.
  destruct (clean_loop_rooted (String.length rest) rest [filepath.Separator] false
              ltac:(lia) ltac:(exists []; reflexivity)) as [l' ->].
  destruct (l' ++ [filepath.Separator]) as [|x l] eqn:Hl; [destruct l'; discriminate|].
  rewrite <- Hl, rev_app_distr. reflexivity.
Qed.

Lemma starts_with_sep_app a b :
  filepath.starts_with_sep a = true -> filepath.starts_with_sep (a +:+ b) = true.
Proof. destruct a; [discriminate|]. intros H. exact H. Qed.

(** [cleanPrefix] returns the empty prefix or a rooted path other than
    the root itself. *)
Lemma cleanPrefix_rooted s :
  cleanPrefix s = "" \/
  (filepath.starts_with_sep (cleanPrefix s) = true /\ cleanPrefix s <> "/").
Proof.
  unfold cleanPrefix.
  destruct (String.eqb_spec (filepath.Clean ("/" +:+ s)) "/") as [Heq|Hne]; [left; reflexivity|].
  right. split; [|exact Hne]. apply Clean_keeps_root. reflexivity.
Qed.

Lemma remoteFile_rooted s f :
  filepath.starts_with_sep (remoteFile (cleanPrefix s) f) = true.
Proof.
  unfold remoteFile. apply Clean_keeps_root.
  destruct (cleanPrefix_rooted s) as [-> |[Hr _]]; [reflexivity|].
  apply starts_with_sep_app. exact Hr.
Qed.

Lemma split_sep_app a b :
  split_sep (a +:+ String filepath.Separator b) = split_sep a ++ split_sep b.
Proof.
  induction a as [|c a IH]; [reflexivity|].
  change (String c a +:+ String filepath.Separator b)
    with (String c (a +:+ String filepath.Separator b)).
  simpl. rewrite IH.
  destruct (filepath.IsPathSeparator c); [reflexivity|].
  destruct (split_sep_cons a) as (e & r & ->). reflexivity.
Qed.

Lemma plain_path_join a b :
  plain_path a = true -> plain_path b = true ->
  plain_path (a +:+ String filepath.Separator b) = true.
Proof.
  unfold plain_path. intros Ha Hb. rewrite split_sep_app, forallb_app, Ha, Hb. reflexivity.
Qed.

Lemma plain_path_nonempty p : plain_path p = true -> p <> "".
Proof. intros H ->. discriminate H. Qed.

(** A prefix in clean relative form is used with a leading slash. *)
Lemma cleanPrefix_plain pre : plain_path pre = true -> cleanPrefix pre = "/" +:+ pre.
Proof.
  intros Hp. unfold cleanPrefix. rewrite (Clean_rooted_plain _ Hp).
  destruct pre as [|c pre]; [discriminate Hp|]. reflexivity.
Qed.

Lemma remoteFile_plain pre f :
  plain_path pre = true -> plain_path f = true ->
  remoteFile (cleanPrefix pre) f = "/" +:+ pre +:+ "/" +:+ f.
Proof.
  intros Hpre Hf. rewrite (cleanPrefix_plain _ Hpre). unfold remoteFile.
  change (("/" +:+ pre) +:+ "/" +:+ f) with ("/" +:+ (pre +:+ String filepath.Separator f)).
  apply Clean_rooted_plain, plain_path_join; assumption.
Qed.

Section PushMore.

Context {E : Type} (B : Backend E).
Variable ProjectConfig : Config.
Variable FileTypeByExtension : string -> string.
Variable pushPrefix : string.

Local Abbreviation push := (projectPushCommand ProjectConfig FileTypeByExtension pushPrefix).

(** Every step of a push run is a step of the command or of the
    goroutine of a project file. *)
Lemma push_event flag (w : World E) sched i e :
  let P := run_sched B sched (init (push flag) w) in
  (i, e) ∈ trace P ->
  (i = 0 /\ push_main_step e) \/
  (0 < i /\ exists l0 ls f,
     (0, EvLocales (Ok (l0 :: ls))) ∈ trace P /\ f ∈ Files ProjectConfig /\
     push_unit_step (prefixOf pushPrefix flag) (smartling.Locale l0) f e).
Proof.
  intros P Hin. destruct (trace_thread B sched _ w _ _ Hin) as (o & c & Hth).
  pose proof (thread_replays B sched _ w _ _ _ Hth) as Hr.
  apply elem_of_events_of in Hin.
  destruct i as [|i].
  - left. split; [reflexivity|].
    destruct (main_thread B sched (push flag) w) as [c0 Hc0].
    rewrite Hc0 in Hth. injection Hth as <- <-.
    exact (own_replays _ _ _ _ _ (push_main_own _ _ _ flag) Hr Hin).
  - right. split; [lia|].
    destruct (push_thread B _ _ _ flag w sched (S i) o c ltac:(lia) Hth)
      as (l0 & ls & f & H1 & H2 & ->).
    exists l0, ls, f. split; [exact H1|]. split; [exact H2|].
    exact (own_replays _ _ _ _ _ (push_unit_own _ _ _ _ _) Hr Hin).
Qed.

End PushMore.

(** X1. Every remote path a push run hands to the service (to upload,
    to ask the status of, to delete) begins with a slash, whatever the
    prefix and the project path. *)
Theorem push_remote_paths_are_rooted
    {E : Type} (B : Backend E) (ProjectConfig : Config)
    (FileTypeByExtension : string -> string) (pushPrefix flag : string)
    (w : World E) (sched : list nat) (i : nat) (e : Event) (remote : string) :
  let P := run_sched B sched
             (init (projectPushCommand ProjectConfig FileTypeByExtension pushPrefix flag) w) in
  (i, e) ∈ trace P ->
  (exists f ft pc r, e = EvUpload f remote ft pc r) \/
  (exists l r, e = EvStatus remote l r) \/
  (exists r, e = EvDelete remote r) ->
  filepath.starts_with_sep remote = true.
Proof.
  intros P Hin He.
  destruct (push_event B _ _ _ _ _ _ _ _ Hin) as [[_ Hm]|[_ (l0 & ls & f & _ & _ & Hu)]].
  - destruct He as [(f & ft & pc & r & ->)|[(l & r & ->)|(r & ->)]]; destruct Hm.
  - unfold prefixOf in Hu.
    destruct He as [(f' & ft & pc & r & ->)|[(l & r & ->)|(r & ->)]]; simpl in Hu;
      destruct Hu as [Hu1 Hu2]; subst; apply remoteFile_rooted.
Qed.

Lemma push_remote_paths_are_rooted_witness :
  (1, EvUpload "copy.json" "/copy.json" "json" [] (Ok tt)) ∈ trace (demo_push "" [0; 0; 0; 1]) /\
  filepath.starts_with_sep "/copy.json" = true.
Proof.
  assert ((1, EvUpload "copy.json" "/copy.json" "json" [] (Ok tt))
            ∈ trace (demo_push "" [0; 0; 0; 1])) as Hin.
  { apply elem_of_events_of, list_elem_of_In. vm_compute. auto. }
  split; [exact Hin|].
  apply (push_remote_paths_are_rooted
           (demo_backend ["fr-FR"; "de-DE"] demo_push_status)
           (demo_config ["copy.json"; "new.json"] "") demo_filetypes "" ""
           demo_world [0; 0; 0; 1] 1 _ "/copy.json" Hin).
  left. eauto.
Defined.

(** X2. When the [--prefix] flag and the project path are both in clean
    relative form, the file is uploaded to [/prefix/path]. *)
Theorem push_plain_prefix_remote_path
    {E : Type} (B : Backend E) (ProjectConfig : Config)
    (FileTypeByExtension : string -> string) (pushPrefix flag : string)
    (w : World E) (sched : list nat) (i : nat) (f remote ft : string)
    (pc : ParserConfigT) (r : result unit) :
  let P := run_sched B sched
             (init (projectPushCommand ProjectConfig FileTypeByExtension pushPrefix flag) w) in
  plain_path flag = true ->
  plain_path f = true ->
  (i, EvUpload f remote ft pc r) ∈ trace P ->
  remote = "/" +:+ flag +:+ "/" +:+ f.
Proof.
  intros P Hflag Hf Hin.
  destruct (push_uploader B _ _ _ _ _ _ _ _ _ _ _ _ Hin) as (l0 & ls & c & _ & -> & _).
  unfold prefixOf.
  destruct (String.eqb_spec flag "") as [->|_]; [discriminate Hflag|].
  apply remoteFile_plain; assumption.
Qed.

Lemma push_plain_prefix_remote_path_witness :
  (1, EvUpload "copy.json" "/feature-x/copy.json" "json" [] (Ok tt))
    ∈ trace (demo_push "feature-x" [0; 0; 0; 0; 1]) /\
  "/feature-x/copy.json" = "/" +:+ "feature-x" +:+ "/" +:+ "copy.json".
Proof.
  assert ((1, EvUpload "copy.json" "/feature-x/copy.json" "json" [] (Ok tt))
            ∈ trace (demo_push "feature-x" [0; 0; 0; 0; 1])) as Hin.
  { apply elem_of_events_of, list_elem_of_In. vm_compute. auto. }
  split; [exact Hin|].
  exact (push_plain_prefix_remote_path
           (demo_backend ["fr-FR"; "de-DE"] demo_push_status)
           (demo_config ["copy.json"; "new.json"] "") demo_filetypes "" "feature-x"
           demo_world [0; 0; 0; 0; 1] 1 "copy.json" "/feature-x/copy.json" "json" [] (Ok tt)
           eq_refl eq_refl Hin).
Defined.

(** ** More on the pool of goroutines *)

Section PoolMore.

Context {E : Type} (B : Backend E).

(** Every [go] statement of the trace started a goroutine of the pool. *)
Lemma spawned_run sched main (w : World E) j o :
  let P := run_sched B sched (init main w) in
  (j, EvSpawn o) ∈ trace P ->
  exists i c, 0 < i /\ threads P !! i = Some (o, c).
Proof.
  intros P. unfold P. revert j o.
  apply (run_sched_ind B (fun P => forall j o, (j, EvSpawn o) ∈ trace P ->
           exists i c, 0 < i /\ threads P !! i = Some (o, c))).
  - intros i Q Q' IH HS.
    assert (forall j o, (j, EvSpawn o) ∈ trace Q -> forall x,
              exists i' c, 0 < i' /\ <[i := x]> (threads Q) !! i' = Some (o, c)
                           \/ (i' = i /\ exists c0, threads Q !! i = Some (o, c0))) as Hold.
    { intros j o Hin x. destruct (IH _ _ Hin) as (i' & c & Hpos & Hi').
      exists i', c. destruct (decide (i' = i)) as [->|Hne].
      - right. eauto.
      - left. split; [exact Hpos|]. rewrite list_lookup_insert_ne by congruence. exact Hi'. }
    assert (forall oi ci x, threads Q !! i = Some (oi, ci) ->
            forall j o, (j, EvSpawn o) ∈ trace Q ->
              exists i' c, 0 < i' /\ <[i := (oi, x)]> (threads Q) !! i' = Some (o, c)) as Hins.
    { intros oi ci x Hi j o Hin. destruct (IH _ _ Hin) as (i' & c & Hpos & Hi').
      destruct (decide (i' = i)) as [->|Hne].
      - rewrite Hi in Hi'. injection Hi' as <- <-. exists i, x. split; [exact Hpos|].
        apply list_lookup_insert_eq. eapply lookup_lt_Some; eassumption.
      - exists i', c. split; [exact Hpos|].
        rewrite list_lookup_insert_ne by congruence. exact Hi'. }
    clear Hold.
    destruct HS as [A o c k Hi|o child k Hi|o k Hi Hd]; simpl; intros j o' Hin;
      apply elem_of_app in Hin as [Hin|Hin].
    + eapply Hins; eassumption.
    + apply list_elem_of_singleton in Hin. injection Hin as _ Heq. destruct c; discriminate.
    + destruct (Hins _ _ k Hi _ _ Hin) as (i' & c' & Hpos & Hi').
      exists i', c'. split; [exact Hpos|]. apply lookup_app_l_Some. exact Hi'.
    + apply list_elem_of_singleton in Hin. injection Hin as _ <-.
      exists (length (threads Q)), o'. split; [apply lookup_lt_Some in Hi; lia|].
      rewrite lookup_app_r by (rewrite length_insert; lia).
      rewrite length_insert, Nat.sub_diag. reflexivity.
    + eapply Hins; eassumption.
    + apply list_elem_of_singleton in Hin. discriminate.
  - intros j o Hin. inversion Hin.
Qed.

(** When every step the command may make satisfies [ok], and so does
    every step of every goroutine it may start, every step of the run
    satisfies [ok]. *)
Lemma all_steps ok sched main (w : World E) i e :
  own ok main -> spawns (own ok) main ->
  (i, e) ∈ trace (run_sched B sched (init main w)) -> ok e.
Proof.
  intros Hown Hsp Hin.
  destruct (trace_thread B sched _ w _ _ Hin) as (o & c & Hth).
  pose proof (thread_replays B sched _ w _ _ _ Hth) as Hr.
  apply elem_of_events_of in Hin.
  assert (own ok o) as Ho.
  { destruct i as [|i].
    - destruct (main_thread B sched main w) as [c0 Hc0].
      rewrite Hc0 in Hth. injection Hth as <- _. exact Hown.
    - eapply (spawning_run B (own ok)); [exact Hsp| |exact Hth]. lia. }
  exact (own_replays _ _ _ _ _ Ho Hr Hin).
Qed.

(** Once the command has passed its [Wait], every goroutine has
    finished. *)
Lemma waited_run sched main (w : World E) :
  joins main ->
  let P := run_sched B sched (init main w) in
  (0, EvWait) ∈ trace P ->
  forall i o c, 0 < i -> threads P !! i = Some (o, c) -> finished c.
Proof.
  intros Hmain P Hw.
  assert (exists o c rest,
            threads P = (o, c) :: rest /\
            Forall (fun t => nospawn t.2) rest /\
            ((joins c /\ (0, EvWait) ∉ trace P) \/
             (nospawn c /\ Forall (fun t => finished t.2) rest)))
    as (o0 & c0 & rest & Hts & _ & Hm).
  { unfold P.
    apply (run_sched_ind B (fun P => exists o c rest,
            threads P = (o, c) :: rest /\
            Forall (fun t => nospawn t.2) rest /\
            ((joins c /\ (0, EvWait) ∉ trace P) \/
             (nospawn c /\ Forall (fun t => finished t.2) rest)))).
    - clear. intros i P P' (o0 & c0 & rest & Hts & Hns & Hm) HS.
      destruct HS as [A o c k Hi|o child k Hi|o k Hi Hd]; simpl;
        rewrite Hts in *; destruct i as [|i]; simpl in *.
      + injection Hi as -> ->. eexists _, _, _. split; [reflexivity|]. split; [exact Hns|].
        destruct Hm as [[Hj Hno]|[Hn Hd]]; [left|right; split; [|exact Hd]]; simpl in *; auto.
        split; [apply Hj|]. intros Hin. apply elem_of_app in Hin as [Hin|Hin]; [auto|].
        apply list_elem_of_singleton in Hin. injection Hin as Heq. destruct c; discriminate.
      + eexists _, _, _. split; [reflexivity|].
        destruct Hm as [[Hj Hno]|[Hn Hd]].
        * split.
          -- apply Forall_insert; [exact Hns|].
             simpl. eapply (Forall_lookup_1 _ _ _ _ Hns) in Hi. simpl in Hi. apply Hi.
          -- left. split; [exact Hj|]. intros Hin.
             apply elem_of_app in Hin as [Hin|Hin]; [auto|].
             apply list_elem_of_singleton in Hin. discriminate.
        * eapply (Forall_lookup_1 _ _ _ _ Hd) in Hi. simpl in Hi. destruct Hi as [Hi|[? Hi]]; discriminate.
      + injection Hi as -> ->. eexists _, _, _. split; [reflexivity|].
        destruct Hm as [[Hj Hno]|[Hn Hd]]; simpl in *; [|contradiction].
        destruct Hj as [Hc Hj]. split.
        * apply Forall_app. split; [exact Hns|]. constructor; [exact Hc|constructor].
        * left. split; [exact Hj|]. intros Hin.
          apply elem_of_app in Hin as [Hin|Hin]; [auto|].
          apply list_elem_of_singleton in Hin. discriminate.
      + pose proof (Forall_lookup_1 _ _ _ _ Hns Hi) as Hc. simpl in Hc. contradiction.
      + injection Hi as -> ->. eexists _, _, _. split; [reflexivity|]. split; [exact Hns|].
        right. destruct Hm as [[Hj Hno]|[Hn Hd']]; simpl in *.
        * split; [exact Hj|]. apply forallb_done. exact Hd.
        * split; assumption.
      + eexists _, _, _. split; [reflexivity|].
        destruct Hm as [[Hj Hno]|[Hn Hd']].
        * split.
          -- apply Forall_insert; [exact Hns|].
             simpl. eapply (Forall_lookup_1 _ _ _ _ Hns) in Hi. simpl in Hi. apply Hi.
          -- left. split; [exact Hj|]. intros Hin.
             apply elem_of_app in Hin as [Hin|Hin]; [auto|].
             apply list_elem_of_singleton in Hin. discriminate.
        * eapply (Forall_lookup_1 _ _ _ _ Hd') in Hi. simpl in Hi. destruct Hi as [Hi|[? Hi]]; discriminate.
    - exists main, main, []. split; [reflexivity|]. split; [constructor|].
      left. split; [exact Hmain|]. intros Hin. inversion Hin. }
  destruct Hm as [[_ Hno]|[_ Hd]]; [contradiction|].
  intros [|i] o c Hpos Hi; [lia|]. rewrite Hts in Hi. simpl in Hi.
  apply (Forall_lookup_1 _ _ _ _ Hd Hi).
Qed.

(** A command that, run alone, panics before its first [go] statement:
    whatever the schedule, it stays the only thread, its steps are the
    first steps of that run, and it never returns. *)
Lemma panics_alone sched main (w w' : World E) m es :
  run_alone B main w = (Panic m, w', es) ->
  let P := run_sched B sched (init main w) in
  exists c es1 es2,
    threads P = [(main, c)] /\ es = es1 ++ es2 /\
    trace P = map (pair 0) es1 /\
    run_alone B c (world P) = (Panic m, w', es2).
Proof.
  intros Hrun P. unfold P.
  apply (run_sched_ind_step B (fun P => exists c es1 es2,
            threads P = [(main, c)] /\ es = es1 ++ es2 /\
            trace P = map (pair 0) es1 /\
            run_alone B c (world P) = (Panic m, w', es2))).
  - clear. intros i P (c & es1 & es2 & Hth & Hes & Htr & Hrun).
    unfold step. rewrite Hth. destruct i as [|i]; simpl;
      [|exists c, es1, es2; auto].
    destruct c as [| | |A c k|child k|k]; simpl in Hrun; try discriminate;
      [exists (Panic msg), es1, es2; auto|].
    destruct (exec B c (world P)) as [a w1].
    destruct (run_alone B (k a) w1) as [[q w2] es'] eqn:Hk.
    injection Hrun as -> -> <-.
    exists (k a), (es1 ++ [event_of c a]), es'. simpl.
    split; [reflexivity|]. split; [rewrite <- app_assoc; exact Hes|].
    split; [rewrite map_app, Htr; reflexivity|exact Hk].
  - exists main, [], es. auto.
Qed.

(** Run alone by the schedule that only moves the command, the command
    reaches what [run_alone] computes. *)
Lemma run_alone_sched p : forall o (w : World E) tr q w' es,
  run_alone B p w = (q, w', es) ->
  run_sched B (repeat 0 (length es)) {| threads := [(o, p)]; world := w; trace := tr |}
  = {| threads := [(o, q)]; world := w'; trace := tr ++ map (pair 0) es |}.
Proof.
  induction p as [| | |A c k IH|child _ k _|k _]; intros o w tr q w' es Hrun;
    simpl in Hrun; try (injection Hrun as <- <- <-; simpl; rewrite app_nil_r; reflexivity).
  destruct (exec B c w) as [a w1] eqn:He.
  destruct (run_alone B (k a) w1) as [[q1 w2] es'] eqn:Hk.
  injection Hrun as <- <- <-. simpl. unfold step at 1. simpl. rewrite He.
  rewrite (IH a o w1 _ _ _ _ Hk). rewrite <- app_assoc. reflexivity.
Qed.

End PoolMore.

(** ** The commands when the service cannot list the locales *)

(** X3. When [client.Locales()] fails, each of the three commands panics
    with that error: whatever the schedule, it starts no goroutine, makes
    no other call to the service or the disk (push may have printed its
    prefix), and never returns; its second step at the latest is the
    panic. *)
Theorem locales_failure_panics
    {E : Type} (B : Backend E) (ProjectConfig : Config) (defaultPullDestination : string)
    (FileTypeByExtension : string -> string) (pushPrefix flag : string)
    (w : World E) (sched : list nat) (m : string) (main : Prog) :
  (be_locales B (env w)).1 = Err m ->
  main = projectStatusCommand ProjectConfig FileTypeByExtension \/
  main = projectPullCommand ProjectConfig defaultPullDestination FileTypeByExtension \/
  main = projectPushCommand ProjectConfig FileTypeByExtension pushPrefix flag ->
  let P := run_sched B sched (init main w) in
  length (threads P) = 1 /\
  ~ returned P /\
  (forall i e, (i, e) ∈ trace P -> i = 0 /\ (e = EvLocales (Err m) \/ exists s, e = EvPrint s)) /\
  current 0 (run_sched B [0; 0] (init main w)) = Some (Panic m).
Proof.
  intros Hloc Hmain P.
  assert (exists es w',
            run_alone B main w = (Panic m, w', es) /\
            (forall e, e ∈ es -> e = EvLocales (Err m) \/ exists s, e = EvPrint s) /\
            current 0 (run_sched B [0; 0] (init main w)) = Some (Panic m))
    as (es & w' & Hrun & Hes & Hcur).
  { destruct (be_locales B (env w)) as [r e1] eqn:Hb. simpl in Hloc. subst r.
    assert (forall e : Event, e ∈ [EvLocales (Err m)] ->
              e = EvLocales (Err m) \/ exists s, e = EvPrint s) as H1.
    { intros e He. apply list_elem_of_singleton in He. auto. }
    destruct Hmain as [->|[->| ->]].
    - exists [EvLocales (Err m)], (with_env w e1). unfold projectStatusCommand.
      split; [simpl; unfold lift_env; rewrite Hb; reflexivity|]. split; [exact H1|].
      simpl. unfold step at 2. simpl. unfold lift_env. rewrite Hb. reflexivity.
    - exists [EvLocales (Err m)], (with_env w e1). unfold projectPullCommand.
      split; [simpl; unfold lift_env; rewrite Hb; reflexivity|]. split; [exact H1|].
      simpl. unfold step at 2. simpl. unfold lift_env. rewrite Hb. reflexivity.
    - unfold projectPushCommand, getPrefix. destruct (negb _).
      + eexists [EvPrint _; EvLocales (Err m)], (with_env w e1).
        split; [simpl; unfold lift_env; rewrite Hb; reflexivity|]. split.
        * intros e He. apply elem_of_cons in He as [->|He]; [right; eauto|apply H1, He].
        * simpl. unfold step at 2. simpl. unfold step. simpl. unfold lift_env.
          rewrite Hb. reflexivity.
      + exists [EvLocales (Err m)], (with_env w e1).
        split; [simpl; unfold lift_env; rewrite Hb; reflexivity|]. split; [exact H1|].
        simpl. unfold step at 2. simpl. unfold lift_env. rewrite Hb. reflexivity. }
  destruct (panics_alone B sched main w w' m es Hrun)
    as (c & es1 & es2 & Hth & Happ & Htr & Hc). fold P in Hth, Htr, Hc.
  split; [rewrite Hth; reflexivity|]. split; [|split; [|exact Hcur]].
  - unfold returned, current. rewrite Hth. simpl. intros Heq. injection Heq as ->.
    simpl in Hc. discriminate.
  - intros i e Hin. rewrite Htr in Hin. apply list_elem_of_fmap in Hin as (e0 & Heq & Hin).
    injection Heq as -> ->. split; [reflexivity|]. apply Hes. rewrite Happ.
    apply elem_of_app. left. exact Hin.
Qed.

Lemma locales_failure_panics_witness :
  (be_locales offline_backend (env demo_world)).1 = Err "connection refused" /\
  current 0 (run_sched offline_backend [0; 0]
               (init (projectStatusCommand demo_status_config demo_filetypes) demo_world))
    = Some (Panic "connection refused").
Proof.
  split; [reflexivity|].
  apply (locales_failure_panics offline_backend demo_status_config "" demo_filetypes "" ""
           demo_world [] "connection refused" _ eq_refl (or_introl eq_refl)).
Defined.

(** ** The goroutines of status and pull *)

Lemma elem_of_pairs_of files locales f l :
  (f, l) ∈ pairs_of files locales <->
  f ∈ files /\ exists li, li ∈ locales /\ l = smartling.Locale li.
Proof.
  unfold pairs_of. rewrite list_elem_of_In, in_flat_map. split.
  - intros (f' & Hf & Hin). apply in_map_iff in Hin as (li & Heq & Hli).
    injection Heq as -> <-. split; [apply list_elem_of_In; exact Hf|].
    exists li. split; [apply list_elem_of_In; exact Hli|reflexivity].
  - intros (Hf & li & Hli & ->). exists f. split; [apply list_elem_of_In; exact Hf|].
    apply in_map_iff. exists li. split; [reflexivity|apply list_elem_of_In; exact Hli].
Qed.

Section StatusMore.

Variable ProjectConfig : Config.

Variable FileTypeByExtension : string -> string.

Local Abbreviation status := (projectStatusCommand ProjectConfig FileTypeByExtension).

Local Abbreviation files_loop := (status_files ProjectConfig FileTypeByExtension).

Local Abbreviation parserConfig := (ParserConfig (FileConfig ProjectConfig)).

Lemma status_unit_nospawn tmpfile locale f : nospawn (status_unit tmpfile locale f).
Proof. unfold status_unit. prog_cases; exact I. Qed.

Lemma status_unit_own tmpfile locale f :
  own (status_unit_step tmpfile locale f) (status_unit tmpfile locale f).
Proof. unfold status_unit. prog_cases; auto. Qed.

Lemma status_render_nospawn locales : nospawn (status_render ProjectConfig locales).
Proof. unfold status_render. simpl. auto. Qed.

Lemma status_files_own files locales k :
  own status_main_step k -> own status_main_step (files_loop files locales k).
Proof.
  intros Hk. induction files as [|f files IH]; simpl; [exact Hk|].
  apply own_orPanic. intros lp. apply own_orPanic. intros ft. simpl. intros r.
  split; [exact I|]. apply own_orPanic. intros tmp.
  apply spawn_each_own; [intros; exact I|exact IH].
Qed.

Lemma status_main_own : own status_main_step status.
Proof.
  unfold projectStatusCommand. simpl. intros r. split; [exact I|].
  apply own_orPanic. intros locales. simpl. intros _. split; [exact I|].
  apply status_files_own. unfold status_render. simpl. auto 10.
Qed.

Lemma status_files_spawns (Q : Prog -> Prop) files locales k :
  (forall tmpfile locale f, Q (status_unit tmpfile locale f)) ->
  spawns Q k -> spawns Q (files_loop files locales k).
Proof.
  intros HQ Hk. induction files as [|f files IH]; simpl; [exact Hk|].
  destruct (localRelativeFilePath ProjectConfig f); simpl; [|exact I].
  destruct (filetypeForProjectFile ProjectConfig FileTypeByExtension f); simpl; [|exact I].
  intros [tmp|m]; simpl; [|exact I].
  apply spawn_each_spawns; [|exact IH].
  intros l _. split; [apply HQ|apply status_unit_nospawn].
Qed.

Lemma status_main_spawns (Q : Prog -> Prop) :
  (forall tmpfile locale f, Q (status_unit tmpfile locale f)) -> spawns Q status.
Proof.
  intros HQ. unfold projectStatusCommand. simpl. intros [locales|m]; simpl; [|exact I].
  intros _. apply status_files_spawns; [exact HQ|].
  apply nospawn_spawns. exact (status_render_nospawn locales).
Qed.

Lemma status_files_joins files locales k :
  joins k -> joins (files_loop files locales k).
Proof.
  intros Hk. induction files as [|f files IH]; simpl; [exact Hk|].
  destruct (localRelativeFilePath ProjectConfig f); simpl; [|exact I].
  destruct (filetypeForProjectFile ProjectConfig FileTypeByExtension f); simpl; [|exact I].
  intros [tmp|m]; simpl; [|exact I].
  apply spawn_each_joins; [|exact IH]. intros l _. apply status_unit_nospawn.
Qed.

Lemma status_main_joins : joins status.
Proof.
  unfold projectStatusCommand. simpl. intros [locales|m]; simpl; [|exact I].
  intros _. apply status_files_joins. exact (status_render_nospawn locales).
Qed.

(** The goroutines the loop over the files starts: one per file and
    locale, for the temporary file the command uploaded for that file. *)
Lemma status_files_replays files locales k : forall es q child,
  replays (files_loop files locales k) es q -> EvSpawn child ∈ es ->
  (exists f l lp ft tmpfile,
     f ∈ files /\ l ∈ locales /\
     localRelativeFilePath ProjectConfig f = Ok lp /\
     filetypeForProjectFile ProjectConfig FileTypeByExtension f = Ok ft /\
     EvUploadTemp lp ft parserConfig (Ok tmpfile) ∈ es /\
     child = status_unit tmpfile (smartling.Locale l) f) \/
  (exists es0 es', es = es0 ++ es' /\ replays k es' q /\ EvSpawn child ∈ es').
Proof.
  induction files as [|f files IH]; intros es q child Hr Hin; simpl in Hr.
  - right. exists [], es. split; [reflexivity|]. split; assumption.
  - apply (replays_orPanic_elem _ _ _ _ _) with (1 := Hr) in Hin as Hr1.
    destruct Hr1 as (lp & Hlp & Hr1).
    apply (replays_orPanic_elem _ _ _ _ _) with (1 := Hr1) in Hin as Hr2.
    destruct Hr2 as (ft & Hft & Hr2).
    destruct (replays_Do_elem _ _ _ _ _ Hr2 Hin) as (r & es1 & -> & Hr3).
    apply elem_of_cons in Hin as [Heq|Hin]; [discriminate|].
    destruct (replays_orPanic_elem _ _ _ _ _ Hr3 Hin) as (tmp & -> & Hr4).
    assert (forall l, l ∈ locales ->
              exists f0 l0 lp0 ft0 tmp0,
                f0 ∈ f :: files /\ l0 ∈ locales /\
                localRelativeFilePath ProjectConfig f0 = Ok lp0 /\
                filetypeForProjectFile ProjectConfig FileTypeByExtension f0 = Ok ft0 /\
                EvUploadTemp lp0 ft0 parserConfig (Ok tmp0)
                  ∈ EvUploadTemp lp ft parserConfig (Ok tmp) :: es1 /\
                status_unit tmp (smartling.Locale l) f
                = status_unit tmp0 (smartling.Locale l0) f0) as Hhere.
    { intros l Hl. exists f, l, lp, ft, tmp. repeat split; auto; left. }
    destruct (spawn_each_partial _ _ _ _ _ Hr4) as [(xs1 & xs2 & Hxs & ->)|(es' & -> & Hk)].
    + left. apply list_elem_of_fmap in Hin as (l & Heq & Hl). injection Heq as ->.
      apply Hhere. rewrite Hxs. apply elem_of_app. left. exact Hl.
    + apply elem_of_app in Hin as [Hin|Hin].
      * left. apply list_elem_of_fmap in Hin as (l & Heq & Hl). injection Heq as ->.
        apply Hhere. exact Hl.
      * destruct (IH _ _ _ Hk Hin)
          as [(f0 & l0 & lp0 & ft0 & tmp0 & H1 & H2 & H3 & H4 & H5 & H6)
             |(es0 & es'' & -> & Hk' & Hin')].
        -- left. exists f0, l0, lp0, ft0, tmp0.
           split; [right; exact H1|]. split; [exact H2|]. split; [exact H3|].
           split; [exact H4|]. split; [|exact H6].
           right. apply elem_of_app. right. exact H5.
        -- right. eexists (_ :: _ ++ es0), es''. split; [|split; eassumption].
           simpl. rewrite <- app_assoc. reflexivity.
Qed.

Lemma status_main_replays es q child :
  replays status es q -> EvSpawn child ∈ es ->
  exists locales f l lp ft tmpfile,
    EvLocales (Ok locales) ∈ es /\ f ∈ Files ProjectConfig /\ l ∈ locales /\
    localRelativeFilePath ProjectConfig f = Ok lp /\
    filetypeForProjectFile ProjectConfig FileTypeByExtension f = Ok ft /\
    EvUploadTemp lp ft parserConfig (Ok tmpfile) ∈ es /\
    child = status_unit tmpfile (smartling.Locale l) f.
Proof.
  unfold projectStatusCommand. intros Hr Hin.
  destruct (replays_Do_elem _ _ _ _ _ Hr Hin) as (r & es1 & -> & Hr1).
  apply elem_of_cons in Hin as [Heq|Hin]; [discriminate|].
  destruct (replays_orPanic_elem _ _ _ _ _ Hr1 Hin) as (locales & -> & Hr2).
  destruct (replays_Do_elem _ _ _ _ _ Hr2 Hin) as ([] & es2 & -> & Hr3).
  apply elem_of_cons in Hin as [Heq|Hin]; [discriminate|].
  destruct (status_files_replays _ _ _ _ _ _ Hr3 Hin)
    as [(f0 & l0 & lp0 & ft0 & tmp0 & H1 & H2 & H3 & H4 & H5 & H6)
       |(es0 & es' & -> & Hk & Hin')].
  - exists locales, f0, l0, lp0, ft0, tmp0. split; [left|]. repeat split; auto.
    do 2 right. exact H5.
  - assert (nospawn (Wait (status_render ProjectConfig locales))) as Hn
      by exact (status_render_nospawn locales).
    destruct (nospawn_replays _ _ _ _ Hn Hk Hin').
Qed.

Context {E : Type} (B : Backend E).

(** Every goroutine of a status run is the unit of a project file and a
    listed locale, for the temporary file uploaded for that file. *)
Lemma status_thread (w : World E) sched i o c :
  let P := run_sched B sched (init status w) in
  0 < i -> threads P !! i = Some (o, c) ->
  exists locales f l lp ft tmpfile,
    (0, EvLocales (Ok locales)) ∈ trace P /\ f ∈ Files ProjectConfig /\ l ∈ locales /\
    localRelativeFilePath ProjectConfig f = Ok lp /\
    filetypeForProjectFile ProjectConfig FileTypeByExtension f = Ok ft /\
    (0, EvUploadTemp lp ft parserConfig (Ok tmpfile)) ∈ trace P /\
    o = status_unit tmpfile (smartling.Locale l) f.
Proof.
  intros P Hi Hth.
  destruct (child_of_main B sched _ w i o c
              (status_main_spawns nospawn status_unit_nospawn) Hi Hth) as [_ Hin].
  destruct (main_thread B sched status w) as [c0 Hc0].
  pose proof (thread_replays B sched _ w 0 _ _ Hc0) as Hr.
  destruct (status_main_replays _ _ _ Hr Hin)
    as (locales & f & l & lp & ft & tmp & H1 & H2 & H3 & H4 & H5 & H6 & H7).
  exists locales, f, l, lp, ft, tmp.
  split; [apply elem_of_events_of; exact H1|]. repeat split; auto.
  apply elem_of_events_of; exact H6.
Qed.

(** Every step of a status run is a step of the command or of the
    goroutine of a project file and a listed locale. *)
Lemma status_event (w : World E) sched i e :
  let P := run_sched B sched (init status w) in
  (i, e) ∈ trace P ->
  (i = 0 /\ status_main_step e) \/
  (0 < i /\ exists locales f l lp ft tmpfile c,
     (0, EvLocales (Ok locales)) ∈ trace P /\ f ∈ Files ProjectConfig /\ l ∈ locales /\
     localRelativeFilePath ProjectConfig f = Ok lp /\
     filetypeForProjectFile ProjectConfig FileTypeByExtension f = Ok ft /\
     (0, EvUploadTemp lp ft parserConfig (Ok tmpfile)) ∈ trace P /\
     threads P !! i = Some (status_unit tmpfile (smartling.Locale l) f, c) /\
     status_unit_step tmpfile (smartling.Locale l) f e).
Proof.
  intros P Hin. destruct (trace_thread B sched _ w _ _ Hin) as (o & c & Hth).
  pose proof (thread_replays B sched _ w _ _ _ Hth) as Hr.
  apply elem_of_events_of in Hin.
  destruct i as [|i].
  - left. split; [reflexivity|].
    destruct (main_thread B sched status w) as [c0 Hc0].
    rewrite Hc0 in Hth. injection Hth as <- <-.
    exact (own_replays _ _ _ _ _ status_main_own Hr Hin).
  - right. split; [lia|].
    destruct (status_thread w sched (S i) o c ltac:(lia) Hth)
      as (locales & f & l & lp & ft & tmp & H1 & H2 & H3 & H4 & H5 & H6 & ->).
    exists locales, f, l, lp, ft, tmp, c. repeat split; auto.
    exact (own_replays _ _ _ _ _ (status_unit_own _ _ _) Hr Hin).
Qed.

End StatusMore.

Section PullMore.

Variable ProjectConfig : Config.

Variable defaultPullDestination : string.

Variable FileTypeByExtension : string -> string.

Local Abbreviation pull :=
  (projectPullCommand ProjectConfig defaultPullDestination FileTypeByExtension).

Local Abbreviation unit_of :=
  (pull_unit ProjectConfig defaultPullDestination FileTypeByExtension).

Lemma pull_unit_nospawn locale f : nospawn (unit_of locale f).
Proof.
  unfold pull_unit.
  destruct (localRelativeFilePath ProjectConfig f); simpl; [|exact I].
  destruct (filetypeForProjectFile ProjectConfig FileTypeByExtension f); simpl; [|exact I].
  intros [[hit b]|m]; simpl; [|exact I].
  destruct (localPullFilePath ProjectConfig defaultPullDestination f locale) as [[fp|m]|];
    simpl; try exact I.
  intros _ [[]|m]; exact I.
Qed.

Lemma pull_unit_own locale f : own pull_unit_step (unit_of locale f).
Proof.
  unfold pull_unit.
  destruct (localRelativeFilePath ProjectConfig f); simpl; [|exact I].
  destruct (filetypeForProjectFile ProjectConfig FileTypeByExtension f); simpl; [|exact I].
  intros r. split; [exact I|]. destruct r as [[hit b]|m]; simpl; [|exact I].
  destruct (localPullFilePath ProjectConfig defaultPullDestination f locale) as [[fp|m]|];
    simpl; try exact I.
  intros _. split; [exact I|]. intros r. split; [exact I|]. destruct r as [[]|m]; exact I.
Qed.

(** A pull goroutine that has written a file has first asked the cache
    for the translation of its pair and printed its destination; what
    it wrote are the bytes the cache returned. *)
Lemma pull_unit_write locale f es q fp b r :
  replays (unit_of locale f) es q -> EvWriteFile fp b r ∈ es ->
  exists lp ft hit,
    localRelativeFilePath ProjectConfig f = Ok lp /\
    filetypeForProjectFile ProjectConfig FileTypeByExtension f = Ok ft /\
    localPullFilePath ProjectConfig defaultPullDestination f locale = Some (Ok fp) /\
    es = pull_unit_run (pull_key ProjectConfig locale lp ft) hit b fp r.
Proof.
  unfold pull_unit. intros Hr Hin.
  destruct (replays_orPanic_elem _ _ _ _ _ Hr Hin) as (lp & Hlp & Hr1).
  destruct (replays_orPanic_elem _ _ _ _ _ Hr1 Hin) as (ft & Hft & Hr2).
  destruct (replays_Do_elem _ _ _ _ _ Hr2 Hin) as (r0 & es1 & -> & Hr3).
  apply elem_of_cons in Hin as [Heq|Hin]; [discriminate|].
  destruct (replays_orPanic_elem _ _ _ _ _ Hr3 Hin) as ([hit b0] & -> & Hr4).
  destruct (localPullFilePath ProjectConfig defaultPullDestination f locale) as [[fp0|m]|];
    simpl in Hr4; try (destruct Hr4 as [[-> _]|[]]; inversion Hin; fail).
  destruct Hr4 as [[-> _]|([] & es2 & -> & Hr5)]; [inversion Hin|].
  apply elem_of_cons in Hin as [Heq|Hin]; [discriminate|].
  destruct Hr5 as [[-> _]|(r1 & es3 & -> & Hr6)]; [inversion Hin|].
  assert (es3 = []) as ->.
  { destruct r1 as [[]|m]; simpl in Hr6; destruct Hr6 as [[-> _]|[]]; reflexivity. }
  apply list_elem_of_singleton in Hin. injection Hin as <- <- <-.
  exists lp, ft, hit. repeat split; auto.
Qed.

(** The steps of a pull goroutine that has finished. *)
Lemma pull_unit_done locale f es :
  replays (unit_of locale f) es Done ->
  exists lp ft hit b fp,
    localRelativeFilePath ProjectConfig f = Ok lp /\
    filetypeForProjectFile ProjectConfig FileTypeByExtension f = Ok ft /\
    localPullFilePath ProjectConfig defaultPullDestination f locale = Some (Ok fp) /\
    es = pull_unit_run (pull_key ProjectConfig locale lp ft) hit b fp (Ok tt).
Proof.
  unfold pull_unit. intros H.
  apply replays_orPanic_Done in H as (lp & Hlp & H).
  apply replays_orPanic_Done in H as (ft & Hft & H).
  apply replays_Do_Done in H as (r & es1 & -> & H).
  apply replays_orPanic_Done in H as ([hit b] & -> & H).
  destruct (localPullFilePath ProjectConfig defaultPullDestination f locale) as [[fp|m]|];
    simpl in H; try (destruct H as [[_ H]|[]]; discriminate H).
  apply replays_Do_Done in H as ([] & es2 & -> & H).
  apply replays_Do_Done in H as (r & es3 & -> & H).
  apply replays_orPanic_Done in H as ([] & -> & H).
  apply replays_Done in H as [-> _].
  exists lp, ft, hit, b, fp. repeat split; auto.
Qed.

(** How a pull goroutine that has finished got there. *)
Lemma pull_unit_finished locale f es c :
  replays (unit_of locale f) es c -> finished c ->
  (c = Done /\
   exists lp ft hit b fp,
     localRelativeFilePath ProjectConfig f = Ok lp /\
     filetypeForProjectFile ProjectConfig FileTypeByExtension f = Ok ft /\
     localPullFilePath ProjectConfig defaultPullDestination f locale = Some (Ok fp) /\
     es = pull_unit_run (pull_key ProjectConfig locale lp ft) hit b fp (Ok tt)) \/
  (exists m, c = Panic m /\
     pull_unit_panic ProjectConfig defaultPullDestination FileTypeByExtension locale f m es).
Proof.
  intros Hr [->|[m ->]].
  - left. split; [reflexivity|]. apply pull_unit_done. exact Hr.
  - right. exists m. split; [reflexivity|]. unfold pull_unit in Hr. unfold pull_unit_panic.
    apply replays_orPanic_Panic in Hr as [[Hlp ->]|(lp & Hlp & Hr)]; [left; auto|right].
    exists lp. split; [exact Hlp|].
    apply replays_orPanic_Panic in Hr as [[Hft ->]|(ft & Hft & Hr)]; [left; auto|right].
    exists ft. split; [exact Hft|]. cbv zeta.
    apply replays_Do_Panic in Hr as (r & es1 & -> & Hr).
    apply replays_orPanic_Panic in Hr as [[-> ->]|([hit b] & -> & Hr)];
      [left; reflexivity|right].
    exists hit, b.
    destruct (localPullFilePath ProjectConfig defaultPullDestination f locale)
      as [[fp|m']|].
    + right. exists fp. split; [reflexivity|]. simpl in Hr.
      apply replays_Do_Panic in Hr as ([] & es2 & -> & Hr).
      apply replays_Do_Panic in Hr as (r & es3 & -> & Hr).
      apply replays_orPanic_Panic in Hr as [[-> ->]|([] & -> & Hr)]; [reflexivity|].
      apply replays_Done in Hr as [_ Hr]. discriminate.
    + left. simpl in Hr. apply replays_Panic in Hr as [-> Heq]. injection Heq as ->.
      split; reflexivity.
    + simpl in Hr. destruct Hr as [[_ Hr]|[]]. discriminate.
Qed.

Lemma pull_main_own : own pull_main_step pull.
Proof.
  unfold projectPullCommand. simpl. intros r. split; [exact I|].
  apply own_orPanic. intros locales. apply spawn_each_own; simpl; auto.
Qed.

Lemma pull_main_spawns (Q : Prog -> Prop) :
  (forall locale f, Q (unit_of locale f)) -> spawns Q pull.
Proof.
  intros HQ. unfold projectPullCommand. simpl. intros [locales|m]; simpl; [|exact I].
  apply spawn_each_spawns; [|exact I].
  intros [f l] _. split; [apply HQ|apply pull_unit_nospawn].
Qed.

Lemma pull_main_joins : joins pull.
Proof.
  unfold projectPullCommand. simpl. intros [locales|m]; simpl; [|exact I].
  apply spawn_each_joins; [|exact I]. intros [f l] _. apply pull_unit_nospawn.
Qed.

(** The goroutines the command starts: one per project file and listed
    locale. *)
Lemma pull_main_replays es q child :
  replays pull es q -> EvSpawn child ∈ es ->
  exists locales f l,
    EvLocales (Ok locales) ∈ es /\ f ∈ Files ProjectConfig /\ l ∈ locales /\
    child = unit_of (smartling.Locale l) f.
Proof.
  unfold projectPullCommand. intros Hr Hin.
  destruct (replays_Do_elem _ _ _ _ _ Hr Hin) as (r & es1 & -> & Hr1).
  apply elem_of_cons in Hin as [Heq|Hin]; [discriminate|].
  destruct (replays_orPanic_elem _ _ _ _ _ Hr1 Hin) as (locales & -> & Hr2).
  destruct (spawn_each_replays _ _ _ _ _ _ Hr2 Hin) as [([f l] & Hfl & ->)|(es' & Hk & Hin')].
  - apply elem_of_pairs_of in Hfl as (Hf & li & Hli & ->).
    exists locales, f, li. split; [left|]. repeat split; auto.
  - assert (nospawn (Wait Done)) as Hn by exact I.
    destruct (nospawn_replays _ _ _ _ Hn Hk Hin').
Qed.

Context {E : Type} (B : Backend E).

(** Every goroutine of a pull run is the unit of a project file and a
    listed locale. *)
Lemma pull_thread (w : World E) sched i o c :
  let P := run_sched B sched (init pull w) in
  0 < i -> threads P !! i = Some (o, c) ->
  exists locales f l,
    (0, EvLocales (Ok locales)) ∈ trace P /\ f ∈ Files ProjectConfig /\ l ∈ locales /\
    o = unit_of (smartling.Locale l) f.
Proof.
  intros P Hi Hth.
  destruct (child_of_main B sched _ w i o c
              (pull_main_spawns nospawn pull_unit_nospawn) Hi Hth) as [_ Hin].
  destruct (main_thread B sched pull w) as [c0 Hc0].
  pose proof (thread_replays B sched _ w 0 _ _ Hc0) as Hr.
  destruct (pull_main_replays _ _ _ Hr Hin) as (locales & f & l & H1 & H2 & H3 & H4).
  exists locales, f, l. split; [apply elem_of_events_of; exact H1|]. repeat split; auto.
Qed.

End PullMore.

(** ** What the commands call *)

Example demo_pull_run_trace :
  let tr := trace (demo_pull_run [0; 0; 0; 0; 1; 2; 1; 2; 1; 2; 0]) in
  map fst tr = [0; 0; 0; 1; 2; 1; 2; 1; 2; 0]
  /\ events_of 1 tr
     = [EvTranslate ("fr-FR", "a/b.json", "json", []) (Ok (false, "fr-FR:a/b.json"));
        EvPrint ("a/fr-FR/b.json " +:+ fmt.newline);
        EvWriteFile "a/fr-FR/b.json" "fr-FR:a/b.json" (Ok tt)]
  /\ events_of 2 tr
     = [EvTranslate ("de-DE", "a/b.json", "json", []) (Ok (false, "de-DE:a/b.json"));
        EvPrint ("a/de-DE/b.json " +:+ fmt.newline);
        EvWriteFile "a/de-DE/b.json" "de-DE:a/b.json" (Ok tt)].
Proof. vm_compute. repeat split; reflexivity. Qed.

(** X4. A push run never uploads a temporary file, never uses the
    translation cache, never writes a local file and never touches the
    status map; and the command itself neither uploads, asks for a status
    nor deletes: only the goroutines of the files do. *)
Theorem push_calls
    {E : Type} (B : Backend E) (ProjectConfig : Config)
    (FileTypeByExtension : string -> string) (pushPrefix flag : string)
    (w : World E) (sched : list nat) (i : nat) (e : Event) :
  let P := run_sched B sched
             (init (projectPushCommand ProjectConfig FileTypeByExtension pushPrefix flag) w) in
  (i, e) ∈ trace P ->
  match e with
  | EvUploadTemp _ _ _ _ | EvTranslate _ _ | EvWriteFile _ _ _
  | EvMapInit | EvMapHas _ _ | EvMapMake _ | EvMapStore _ _ _ _ | EvMapRead _ => False
  | EvUpload _ _ _ _ _ | EvStatus _ _ _ | EvDelete _ _ => 0 < i
  | EvLocales _ | EvSpawn _ | EvWait => i = 0
  | EvPrint _ => True
  end.
Proof.
  intros P Hin.
  destruct (push_event B _ _ _ _ _ _ _ _ Hin) as [[-> Hm]|[Hi (l0 & ls & f & _ & _ & Hu)]].
  - destruct e; simpl in Hm; try contradiction; auto.
  - destruct e; simpl in Hu; try contradiction; auto.
Qed.

Lemma push_calls_witness :
  (1, EvUpload "copy.json" "/copy.json" "json" [] (Ok tt)) ∈ trace (demo_push "" [0; 0; 0; 1]) /\
  0 < 1.
Proof.
  assert ((1, EvUpload "copy.json" "/copy.json" "json" [] (Ok tt))
            ∈ trace (demo_push "" [0; 0; 0; 1])) as Hin.
  { apply elem_of_events_of, list_elem_of_In. vm_compute. auto. }
  split; [exact Hin|].
  exact (push_calls (demo_backend ["fr-FR"; "de-DE"] demo_push_status)
           (demo_config ["copy.json"; "new.json"] "") demo_filetypes "" ""
           demo_world [0; 0; 0; 1] 1 _ Hin).
Defined.

(** X5. A pull run never uploads, never deletes and never asks the
    service for a status, and never touches the status map: beyond
    listing the locales, all it calls is [translateViaCache],
    [ioutil.WriteFile] and the printing of the destination, and those
    only from the goroutines of the (file, locale) pairs. *)
Theorem pull_calls
    {E : Type} (B : Backend E) (ProjectConfig : Config) (defaultPullDestination : string)
    (FileTypeByExtension : string -> string)
    (w : World E) (sched : list nat) (i : nat) (e : Event) :
  let P := run_sched B sched
             (init (projectPullCommand ProjectConfig defaultPullDestination
                      FileTypeByExtension) w) in
  (i, e) ∈ trace P ->
  match e with
  | EvUpload _ _ _ _ _ | EvUploadTemp _ _ _ _ | EvDelete _ _ | EvStatus _ _ _
  | EvMapInit | EvMapHas _ _ | EvMapMake _ | EvMapStore _ _ _ _ | EvMapRead _ => False
  | EvTranslate _ _ | EvWriteFile _ _ _ | EvPrint _ => 0 < i
  | EvLocales _ | EvSpawn _ | EvWait => i = 0
  end.
Proof.
  intros P Hin. destruct (trace_thread B sched _ w _ _ Hin) as (o & c & Hth).
  pose proof (thread_replays B sched _ w _ _ _ Hth) as Hr.
  apply elem_of_events_of in Hin.
  destruct i as [|i].
  - destruct (main_thread B sched
                (projectPullCommand ProjectConfig defaultPullDestination FileTypeByExtension) w)
      as [c0 Hc0].
    rewrite Hc0 in Hth. injection Hth as <- <-.
    pose proof (own_replays _ _ _ _ _ (pull_main_own _ _ _) Hr Hin) as Hm.
    destruct e; simpl in Hm; try contradiction; auto.
  - destruct (pull_thread _ _ _ B w sched (S i) o c ltac:(lia) Hth)
      as (locales & f & l & _ & _ & _ & ->).
    pose proof (own_replays _ _ _ _ _ (pull_unit_own _ _ _ _ _) Hr Hin) as Hu.
    destruct e; simpl in Hu; try contradiction; lia.
Qed.

Lemma pull_calls_witness :
  (1, EvWriteFile "a/fr-FR/b.json" "fr-FR:a/b.json" (Ok tt))
    ∈ trace (demo_pull_run [0; 0; 0; 0; 1; 2; 1; 2; 1; 2; 0]) /\
  0 < 1.
Proof.
  unfold demo_pull_run.
  match goal with |- ?A /\ _ => assert A as Hin end.
  { apply elem_of_events_of, list_elem_of_In. vm_compute. auto. }
  split; [exact Hin|].
  exact (pull_calls (demo_backend ["fr-FR"; "de-DE"] demo_push_status)
           demo_pull_config "{{.Path}}" demo_filetypes
           demo_world [0; 0; 0; 0; 1; 2; 1; 2; 1; 2; 0] 1 _ Hin).
Defined.

(** X6. A status run changes nothing that lasts: it never uploads a
    file under its remote path, never deletes, never writes a local file
    and never uses the translation cache.  The temporary uploads and all
    printing are the command's own; the status queries and the stores
    into the map are the goroutines'. *)
Theorem status_calls
    {E : Type} (B : Backend E) (ProjectConfig : Config)
    (FileTypeByExtension : string -> string)
    (w : World E) (sched : list nat) (i : nat) (e : Event) :
  let P := run_sched B sched
             (init (projectStatusCommand ProjectConfig FileTypeByExtension) w) in
  (i, e) ∈ trace P ->
  match e with
  | EvUpload _ _ _ _ _ | EvDelete _ _ | EvWriteFile _ _ _ | EvTranslate _ _ => False
  | EvStatus _ _ _ | EvMapHas _ _ | EvMapMake _ | EvMapStore _ _ _ _ => 0 < i
  | EvLocales _ | EvMapInit | EvUploadTemp _ _ _ _ | EvSpawn _ | EvWait
  | EvPrint _ | EvMapRead _ => i = 0
  end.
Proof.
  intros P Hin.
  destruct (status_event _ _ B _ _ _ _ Hin)
    as [[-> Hm]|[Hi (locales & f & l & lp & ft & tmp & c & _ & _ & _ & _ & _ & _ & _ & Hu)]].
  - destruct e; simpl in Hm; try contradiction; auto.
  - destruct e; simpl in Hu; try contradiction; auto.
Qed.

Lemma status_calls_witness :
  (1, EvStatus "/tmp/strings.json" "fr-FR" (Ok (counts 2 1 5)))
    ∈ trace (demo_status sched_one_by_one) /\
  0 < 1.
Proof.
  unfold demo_status.
  match goal with |- ?A /\ _ => assert A as Hin end.
  { apply elem_of_events_of, list_elem_of_In. vm_compute. auto. }
  split; [exact Hin|].
  exact (status_calls (demo_backend ["fr-FR"; "de-DE"] demo_status_of)
           demo_status_config demo_filetypes demo_world sched_one_by_one 1 _ Hin).
Defined.

(** ** A command that has returned *)

(** A goroutine the command started has finished once the command has
    returned, and its steps replay it to where it ended. *)
Lemma returned_child {E : Type} (B : Backend E) sched main (w : World E) o :
  joins main ->
  let P := run_sched B sched (init main w) in
  returned P ->
  (0, EvSpawn o) ∈ trace P ->
  exists i c,
    0 < i /\ current i P = Some c /\ finished c /\ replays o (events_of i (trace P)) c.
Proof.
  intros Hj P Hret Hin.
  destruct (spawned_run B sched main w _ _ Hin) as (i & c & Hi & Hth). fold P in Hth.
  pose proof (joining_run B sched main w Hj Hret _ _ _ Hth) as Hfin.
  exists i, c. split; [exact Hi|]. split; [unfold current; fold P; rewrite Hth; reflexivity|].
  split; [exact Hfin|]. exact (thread_replays B sched main w _ _ _ Hth).
Qed.


(** A file type that was determined is not empty; it is the type of the
    extension when the table knows the extension, the configured type
    otherwise. *)
Lemma filetypeForProjectFile_Ok ProjectConfig FileTypeByExtension f ft :
  filetypeForProjectFile ProjectConfig FileTypeByExtension f = Ok ft ->
  ft <> "" /\
  (ft = FileTypeByExtension (filepath.Ext f) \/
   (FileTypeByExtension (filepath.Ext f) = "" /\ ft = FileType (FileConfig ProjectConfig))).
Proof.
  unfold filetypeForProjectFile.
  destruct (String.eqb_spec (FileTypeByExtension (filepath.Ext f)) "") as [He|He].
  - destruct (String.eqb_spec (FileType (FileConfig ProjectConfig)) "") as [Hc|Hc];
      [discriminate|].
    intros H. injection H as <-. split; [exact Hc|]. right. split; [exact He|reflexivity].
  - destruct (String.eqb_spec (FileTypeByExtension (filepath.Ext f)) "") as [He'|_];
      [contradiction|].
    intros H. injection H as <-. split; [exact He|]. left. reflexivity.
Qed.

(** ** push: more on what a run does *)

(** X7. When the push command has returned, the service had listed at
    least one locale and the goroutine of every project file has
    finished.  It has either returned, and then the file went all the way
    through (its file type was determined, its upload and the status
    query for the first locale succeeded, and it was then deleted or its
    count line printed); or it has panicked, and then its steps stop at
    the failure: the file type that could not be determined, or the
    upload, the status query or the delete that failed.  ([wg.Wait()]
    also lets the command go on after a goroutine has panicked.) *)
Theorem push_returned_all_files
    {E : Type} (B : Backend E) (ProjectConfig : Config)
    (FileTypeByExtension : string -> string) (pushPrefix flag : string)
    (w : World E) (sched : list nat) :
  let prefix := prefixOf pushPrefix flag in
  let P := run_sched B sched
             (init (projectPushCommand ProjectConfig FileTypeByExtension pushPrefix flag) w) in
  returned P ->
  exists l0 ls,
    (0, EvLocales (Ok (l0 :: ls))) ∈ trace P /\
    forall f, f ∈ Files ProjectConfig ->
      exists i,
        0 < i /\
        ((current i P = Some Done /\
          exists ft fs,
            filetypeForProjectFile ProjectConfig FileTypeByExtension f = Ok ft /\
            events_of i (trace P)
            = push_unit_run ProjectConfig prefix (smartling.Locale l0) f ft fs) \/
         (exists m,
            current i P = Some (Panic m) /\
            push_unit_panic ProjectConfig FileTypeByExtension prefix (smartling.Locale l0) f m
              (events_of i (trace P)))).
Proof.
  intros prefix P Hret.
  destruct (main_thread B sched
              (projectPushCommand ProjectConfig FileTypeByExtension pushPrefix flag) w)
    as [c Hc]. fold P in Hc.
  pose proof (thread_replays B sched _ w _ _ _ Hc) as Hr. fold P in Hr.
  pose proof Hret as Hret'. unfold returned, current in Hret'. rewrite Hc in Hret'.
  injection Hret' as ->.
  destruct (push_main_done _ _ _ _ _ Hr) as (l0 & ls & Hloc & Hall).
  exists l0, ls. split; [apply elem_of_events_of; exact Hloc|].
  intros f Hf. specialize (Hall f Hf). apply elem_of_events_of in Hall.
  destruct (returned_child B sched _ w _ (push_main_joins _ _ _ flag) Hret Hall)
    as (i & ci & Hi & Hcur & Hfin & Hri).
  exists i. split; [exact Hi|].
  destruct (push_unit_finished _ _ _ _ _ _ _ Hri Hfin) as [[-> Hdone]|(m & -> & Hpanic)].
  - left. split; [exact Hcur|exact Hdone].
  - right. exists m. split; [exact Hcur|exact Hpanic].
Qed.

Lemma push_returned_all_files_witness :
  returned (demo_push "feature-x" [0; 0; 0; 0; 1; 2; 1; 2; 1; 2; 0]) /\
  exists l0 ls,
    (0, EvLocales (Ok (l0 :: ls)))
      ∈ trace (demo_push "feature-x" [0; 0; 0; 0; 1; 2; 1; 2; 1; 2; 0]).
Proof.
  unfold demo_push.
  match goal with |- ?A /\ _ => assert A as Hret by (vm_compute; reflexivity) end.
  split; [exact Hret|].
  destruct (push_returned_all_files (demo_backend ["fr-FR"; "de-DE"] demo_push_status)
              (demo_config ["copy.json"; "new.json"] "") demo_filetypes "" "feature-x"
              demo_world [0; 0; 0; 0; 1; 2; 1; 2; 1; 2; 0] Hret) as (l0 & ls & Hloc & _).
  exists l0, ls. exact Hloc.
Defined.

(** X8. A push run deletes nothing but what it has just uploaded itself:
    whoever issues a delete is the goroutine of a project file, there is
    a prefix, and the goroutine's steps up to then are the successful
    upload of the file to the deleted path, the status of that path for
    the first locale with no string awaiting authorization, and the
    delete. *)
Theorem push_deletes_only_own_upload
    {E : Type} (B : Backend E) (ProjectConfig : Config)
    (FileTypeByExtension : string -> string) (pushPrefix flag : string)
    (w : World E) (sched : list nat) (i : nat) (remote : string) (r : result unit) :
  let prefix := prefixOf pushPrefix flag in
  let P := run_sched B sched
             (init (projectPushCommand ProjectConfig FileTypeByExtension pushPrefix flag) w) in
  (i, EvDelete remote r) ∈ trace P ->
  prefix <> "" /\
  exists l0 ls f ft fs,
    (0, EvLocales (Ok (l0 :: ls))) ∈ trace P /\
    f ∈ Files ProjectConfig /\
    remote = remoteFile prefix f /\
    smartling.AwaitingAuthorizationCount fs = 0%Z /\
    events_of i (trace P)
    = [EvUpload f remote ft (ParserConfig (FileConfig ProjectConfig)) (Ok tt);
       EvStatus remote (smartling.Locale l0) (Ok fs);
       EvDelete remote r].
Proof.
  intros prefix P Hin.
  destruct (push_event B _ _ _ _ _ _ _ _ Hin) as [[_ []]|[Hi _]].
  destruct (trace_thread B sched _ w _ _ Hin) as (o & c & Hth). fold P in Hth.
  pose proof (thread_replays B sched _ w _ _ _ Hth) as Hr. fold P in Hr.
  destruct (push_thread B _ _ _ flag w sched i o c Hi Hth) as (l0 & ls & f & H1 & H2 & ->).
  apply elem_of_events_of in Hin.
  destruct (push_unit_delete _ _ _ _ _ _ _ _ _ Hr Hin) as (ft & fs & Hrem & Hp & Hz & Hes).
  split; [exact Hp|]. exists l0, ls, f, ft, fs. auto.
Qed.

Lemma push_deletes_only_own_upload_witness :
  (1, EvDelete "/feature-x/copy.json" (Ok tt))
    ∈ trace (demo_push "feature-x" [0; 0; 0; 0; 1; 2; 1; 2; 1; 2; 0]) /\
  prefixOf "" "feature-x" <> "".
Proof.
  unfold demo_push.
  match goal with |- ?A /\ _ => assert A as Hin end.
  { apply elem_of_events_of, list_elem_of_In. vm_compute. auto. }
  split; [exact Hin|].
  apply (push_deletes_only_own_upload (demo_backend ["fr-FR"; "de-DE"] demo_push_status)
           (demo_config ["copy.json"; "new.json"] "") demo_filetypes "" "feature-x"
           demo_world [0; 0; 0; 0; 1; 2; 1; 2; 1; 2; 0] 1 _ _ Hin).
Defined.

(** X9. Every line a goroutine of a push run prints is the count line
    of its file, [%3d unauthorised strings in <remote path>], for the
    count of the status it got after its successful upload; with a prefix
    no line is printed for a count of zero. *)
Theorem push_count_lines
    {E : Type} (B : Backend E) (ProjectConfig : Config)
    (FileTypeByExtension : string -> string) (pushPrefix flag : string)
    (w : World E) (sched : list nat) (i : nat) (s : string) :
  let prefix := prefixOf pushPrefix flag in
  let P := run_sched B sched
             (init (projectPushCommand ProjectConfig FileTypeByExtension pushPrefix flag) w) in
  0 < i ->
  (i, EvPrint s) ∈ trace P ->
  exists l0 ls f ft fs,
    (0, EvLocales (Ok (l0 :: ls))) ∈ trace P /\
    f ∈ Files ProjectConfig /\
    s = fmt.d3 (smartling.AwaitingAuthorizationCount fs)
        +:+ " unauthorised strings in " +:+ remoteFile prefix f +:+ fmt.newline /\
    (prefix = "" \/ smartling.AwaitingAuthorizationCount fs <> 0%Z) /\
    events_of i (trace P)
    = [EvUpload f (remoteFile prefix f) ft (ParserConfig (FileConfig ProjectConfig)) (Ok tt);
       EvStatus (remoteFile prefix f) (smartling.Locale l0) (Ok fs);
       EvPrint s].
Proof.
  intros prefix P Hi Hin.
  destruct (trace_thread B sched _ w _ _ Hin) as (o & c & Hth). fold P in Hth.
  pose proof (thread_replays B sched _ w _ _ _ Hth) as Hr. fold P in Hr.
  destruct (push_thread B _ _ _ flag w sched i o c Hi Hth) as (l0 & ls & f & H1 & H2 & ->).
  apply elem_of_events_of in Hin.
  destruct (push_unit_print _ _ _ _ _ _ _ _ Hr Hin) as (ft & fs & Hs & Hp & Hes).
  exists l0, ls, f, ft, fs. auto.
Qed.

Lemma push_count_lines_witness :
  0 < 2 /\
  (2, EvPrint ("  2 unauthorised strings in /feature-x/new.json" +:+ fmt.newline))
    ∈ trace (demo_push "feature-x" [0; 0; 0; 0; 1; 2; 1; 2; 1; 2; 0]) /\
  exists l0 ls f ft fs,
    (0, EvLocales (Ok (l0 :: ls)))
      ∈ trace (demo_push "feature-x" [0; 0; 0; 0; 1; 2; 1; 2; 1; 2; 0]) /\
    f ∈ ["copy.json"; "new.json"] /\
    "  2 unauthorised strings in /feature-x/new.json" +:+ fmt.newline
    = fmt.d3 (smartling.AwaitingAuthorizationCount fs)
      +:+ " unauthorised strings in " +:+ remoteFile (prefixOf "" "feature-x") f
      +:+ fmt.newline /\
    (prefixOf "" "feature-x" = "" \/ smartling.AwaitingAuthorizationCount fs <> 0%Z) /\
    events_of 2 (trace (demo_push "feature-x" [0; 0; 0; 0; 1; 2; 1; 2; 1; 2; 0]))
    = [EvUpload f (remoteFile (prefixOf "" "feature-x") f) ft [] (Ok tt);
       EvStatus (remoteFile (prefixOf "" "feature-x") f) (smartling.Locale l0) (Ok fs);
       EvPrint ("  2 unauthorised strings in /feature-x/new.json" +:+ fmt.newline)].
Proof.
  unfold demo_push.
  split; [lia|].
  match goal with |- ?A /\ _ => assert A as Hin end.
  { apply elem_of_events_of, list_elem_of_In. vm_compute. auto. }
  split; [exact Hin|].
  exact (push_count_lines (demo_backend ["fr-FR"; "de-DE"] demo_push_status)
           (demo_config ["copy.json"; "new.json"] "") demo_filetypes "" "feature-x"
           demo_world [0; 0; 0; 0; 1; 2; 1; 2; 1; 2; 0] 2 _ ltac:(lia) Hin).
Defined.

(** X10. Every file a push run uploads is a project file, and the
    upload carries the file type determined for it, never an empty one
    (the type of its extension when the client library knows the
    extension, the type configured for the project otherwise), and the
    parser configuration of the project. *)
Theorem push_upload_file_type
    {E : Type} (B : Backend E) (ProjectConfig : Config)
    (FileTypeByExtension : string -> string) (pushPrefix flag : string)
    (w : World E) (sched : list nat) (i : nat) (f remote ft : string)
    (pc : ParserConfigT) (r : result unit) :
  let P := run_sched B sched
             (init (projectPushCommand ProjectConfig FileTypeByExtension pushPrefix flag) w) in
  (i, EvUpload f remote ft pc r) ∈ trace P ->
  f ∈ Files ProjectConfig /\
  filetypeForProjectFile ProjectConfig FileTypeByExtension f = Ok ft /\
  ft <> "" /\
  (ft = FileTypeByExtension (filepath.Ext f) \/
   (FileTypeByExtension (filepath.Ext f) = "" /\ ft = FileType (FileConfig ProjectConfig))) /\
  pc = ParserConfig (FileConfig ProjectConfig).
Proof.
  intros P Hin.
  destruct (push_event B _ _ _ _ _ _ _ _ Hin) as [[_ []]|[Hi (l0' & ls' & f' & _ & Hf' & Hu)]].
  destruct Hu as [<- _].
  destruct (push_uploader B _ _ _ _ _ _ _ _ _ _ _ _ Hin) as (l0 & ls & c & _ & _ & Hth).
  fold P in Hth.
  pose proof (thread_replays B sched _ w _ _ _ Hth) as Hr. fold P in Hr.
  apply elem_of_events_of in Hin.
  destruct (own_replays _ _ _ _ _ (push_unit_upload _ _ _ _ _) Hr Hin) as [Hft ->].
  destruct (filetypeForProjectFile_Ok _ _ _ _ Hft) as [Hne Hor].
  auto.
Qed.

Lemma push_upload_file_type_witness :
  (1, EvUpload "copy.json" "/copy.json" "json" [] (Ok tt)) ∈ trace (demo_push "" [0; 0; 0; 1]) /\
  "copy.json" ∈ ["copy.json"; "new.json"] /\
  filetypeForProjectFile (demo_config ["copy.json"; "new.json"] "") demo_filetypes "copy.json"
  = Ok "json".
Proof.
  unfold demo_push.
  match goal with |- ?A /\ _ => assert A as Hin end.
  { apply elem_of_events_of, list_elem_of_In. vm_compute. auto. }
  split; [exact Hin|].
  destruct (push_upload_file_type (demo_backend ["fr-FR"; "de-DE"] demo_push_status)
              (demo_config ["copy.json"; "new.json"] "") demo_filetypes "" ""
              demo_world [0; 0; 0; 1] 1 _ _ _ _ _ Hin) as (H1 & H2 & _).
  split; [exact H1|exact H2].
Defined.

(** X11. The push command announces its prefix before anything else:
    the command itself prints a line exactly when the normalized prefix
    is not empty; the line is [Using prefix <prefix>], and it is there as
    soon as the run has made any step. *)
Theorem push_announces_prefix
    {E : Type} (B : Backend E) (ProjectConfig : Config)
    (FileTypeByExtension : string -> string) (pushPrefix flag : string)
    (w : World E) (sched : list nat) (s : string) :
  let prefix := prefixOf pushPrefix flag in
  let P := run_sched B sched
             (init (projectPushCommand ProjectConfig FileTypeByExtension pushPrefix flag) w) in
  (0, EvPrint s) ∈ trace P <->
  prefix <> "" /\ s = "Using prefix " +:+ prefix +:+ fmt.newline /\ trace P <> [].
Proof.
  intros prefix P.
  set (main := projectPushCommand ProjectConfig FileTypeByExtension pushPrefix flag).
  set (line := "Using prefix " +:+ prefix +:+ fmt.newline).
  set (k := Do CLocales (fun r => orPanic r (fun locales =>
           match locales with
           | [] => Panic "runtime error: index out of range"
           | l0 :: _ =>
               spawn_each (Files ProjectConfig)
                 (push_unit ProjectConfig FileTypeByExtension prefix (smartling.Locale l0))
                 (Wait Done)
           end))).
  assert (own (fun e => match e with EvPrint _ => False | _ => True end) k) as Hk.
  { unfold k. simpl. intros r. split; [exact I|]. apply own_orPanic.
    intros [|l0 ls]; simpl; [exact I|]. apply spawn_each_own; simpl; auto. }
  assert ((prefix = "" /\ main = k) \/
          (prefix <> "" /\ main = Do (CPrint line) (fun _ => k))) as Hmain.
  { unfold main, projectPushCommand, getPrefix. fold prefix.
    destruct (String.eqb_spec prefix "") as [Hp|Hp]; [left|right]; split; auto. }
  split.
  - intros Hin.
    destruct (main_thread B sched main w) as [c Hc].
    pose proof (thread_replays B sched _ w _ _ _ Hc) as Hr.
    apply elem_of_events_of in Hin.
    assert (trace P <> []) as Hne.
    { intros Hnil. rewrite Hnil in Hin. inversion Hin. }
    destruct Hmain as [[_ Hm]|[Hp Hm]].
    + assert (replays k (events_of 0 (trace P)) c) as Hr' by (rewrite <- Hm; exact Hr).
      destruct (own_replays _ _ _ _ _ Hk Hr' Hin).
    + assert (replays (Do (CPrint line) (fun _ => k)) (events_of 0 (trace P)) c) as Hr'
        by (rewrite <- Hm; exact Hr).
      split; [exact Hp|]. split; [|exact Hne].
      simpl in Hr'. destruct Hr' as [[Hnil _]|([] & es' & Hes & Hr')].
      * rewrite Hnil in Hin. inversion Hin.
      * rewrite Hes in Hin. apply elem_of_cons in Hin as [Heq|Hin].
        -- injection Heq as ->. reflexivity.
        -- destruct (own_replays _ _ _ _ _ Hk Hr' Hin).
  - intros (Hp & -> & Hne).
    destruct Hmain as [[Hp' _]|[_ Hm]]; [contradiction|].
    assert ((trace P = [] -> length (threads P) = 1) /\
            (trace P <> [] -> exists e, (0, e) ∈ trace P)) as [_ H].
    { unfold P.
      apply (run_sched_ind B (fun P =>
               (trace P = [] -> length (threads P) = 1) /\
               (trace P <> [] -> exists e, (0, e) ∈ trace P))).
      - clear Hne. intros i Q Q' [H1 H2] HS.
        assert (forall e, trace Q ++ [e] <> []) as Hne.
        { intros e Heq. apply app_eq_nil in Heq as [_ Heq]. discriminate. }
        assert (forall e, threads Q !! i = Some e -> forall e',
                  exists e0, (0, e0) ∈ trace Q ++ [(i, e')]) as Hnew.
        { intros e Hi e'.
          assert (trace Q = [] \/ trace Q <> []) as [Htr|Htr]
            by (destruct (trace Q); [left|right]; congruence).
          - apply lookup_lt_Some in Hi. rewrite (H1 Htr) in Hi.
            assert (i = 0) as -> by lia. exists e'. apply elem_of_app. right. left.
          - destruct (H2 Htr) as [e0 He0]. exists e0. apply elem_of_app. left. exact He0. }
        destruct HS as [A o c k' Hi|o child k' Hi|o k' Hi Hd]; simpl;
          (split; [intros Heq; destruct (Hne _ Heq)|intros _]);
          eapply Hnew; eassumption.
      - split; [reflexivity|]. intros H. destruct (H eq_refl). }
    destruct (H Hne) as [e He].
    destruct (main_thread B sched main w) as [c Hc].
    pose proof (thread_replays B sched _ w _ _ _ Hc) as Hr.
    assert (replays (Do (CPrint line) (fun _ => k)) (events_of 0 (trace P)) c) as Hr'
      by (rewrite <- Hm; exact Hr).
    apply elem_of_events_of in He. apply elem_of_events_of.
    simpl in Hr'. destruct Hr' as [[Hnil _]|([] & es' & Hes & Hr')].
    + rewrite Hnil in He. inversion He.
    + rewrite Hes. left.
Qed.

Lemma push_announces_prefix_witness :
  (0, EvPrint ("Using prefix /feature-x" +:+ fmt.newline)) ∈ trace (demo_push "feature-x" [0]).
Proof.
  unfold demo_push.
  apply (push_announces_prefix (demo_backend ["fr-FR"; "de-DE"] demo_push_status)
           (demo_config ["copy.json"; "new.json"] "") demo_filetypes "" "feature-x"
           demo_world [0]).
  split; [vm_compute; discriminate|]. split; [vm_compute; reflexivity|].
  vm_compute. discriminate.
Defined.

(** ** status: more on what a run does *)

Section StatusDone.

Variable ProjectConfig : Config.

Variable FileTypeByExtension : string -> string.

Local Abbreviation status := (projectStatusCommand ProjectConfig FileTypeByExtension).

Local Abbreviation files_loop := (status_files ProjectConfig FileTypeByExtension).

Local Abbreviation parserConfig := (ParserConfig (FileConfig ProjectConfig)).

(** How far the loop over the files has come. *)
Lemma status_files_partial files locales k : forall es q,
  replays (files_loop files locales k) es q ->
  Forall loop_step es \/
  (exists es0 es', es = es0 ++ es' /\ Forall loop_step es0 /\ replays k es' q).
Proof.
  induction files as [|f files IH]; intros es q Hr; simpl in Hr.
  - right. exists [], es. split; [reflexivity|]. split; [constructor|exact Hr].
  - destruct es as [|e0 es0]; [left; constructor|].
    assert (e0 ∈ e0 :: es0) as Hin by left.
    destruct (replays_orPanic_elem _ _ _ _ _ Hr Hin) as (lp & _ & Hr1).
    destruct (replays_orPanic_elem _ _ _ _ _ Hr1 Hin) as (ft & _ & Hr2).
    destruct (replays_Do_elem _ _ _ _ _ Hr2 Hin) as (r & es1 & Heq & Hr3).
    injection Heq as -> ->.
    destruct es1 as [|e1 es1]; [left; repeat constructor|].
    assert (e1 ∈ e1 :: es1) as Hin1 by left.
    destruct (replays_orPanic_elem _ _ _ _ _ Hr3 Hin1) as (tmp & -> & Hr4).
    assert (forall xs : list smartling.LocaleInfo,
              Forall loop_step
                (map (fun l => EvSpawn (status_unit tmp (smartling.Locale l) f)) xs)) as Hsp.
    { intros xs. apply Forall_forall. intros e He.
      apply list_elem_of_fmap in He as (l & -> & _). exact I. }
    destruct (spawn_each_partial _ _ _ _ _ Hr4) as [(xs1 & xs2 & _ & Heq)|(es' & Heq & Hk)];
      rewrite Heq.
    + left. constructor; [exact I|apply Hsp].
    + destruct (IH _ _ Hk) as [Hall|(esa & esb & -> & Hall & Hkb)].
      * left. constructor; [exact I|]. apply Forall_app. split; [apply Hsp|exact Hall].
      * right. eexists (_ :: _ ++ esa), esb.
        split; [simpl; rewrite <- app_assoc; reflexivity|]. split; [|exact Hkb].
        constructor; [exact I|]. apply Forall_app. split; [apply Hsp|exact Hall].
Qed.

(** The command reads the map and prints only after its [Wait]. *)
Lemma status_main_after_wait es q e :
  replays status es q -> e ∈ es ->
  (exists s, e = EvPrint s) \/ (exists m, e = EvMapRead m) ->
  EvWait ∈ es.
Proof.
  unfold projectStatusCommand. intros Hr Hin He.
  destruct (replays_Do_elem _ _ _ _ _ Hr Hin) as (r & es1 & -> & Hr1).
  apply elem_of_cons in Hin as [->|Hin]; [destruct He as [[? He]|[? He]]; discriminate|].
  destruct (replays_orPanic_elem _ _ _ _ _ Hr1 Hin) as (locales & -> & Hr2).
  destruct (replays_Do_elem _ _ _ _ _ Hr2 Hin) as ([] & es2 & -> & Hr3).
  apply elem_of_cons in Hin as [->|Hin]; [destruct He as [[? He]|[? He]]; discriminate|].
  assert (forall l, Forall loop_step l -> e ∈ l -> False) as Hno.
  { intros l Hall Hl. rewrite Forall_forall in Hall. specialize (Hall _ Hl).
    destruct He as [[? ->]|[? ->]]; exact Hall. }
  do 2 right.
  destruct (status_files_partial _ _ _ _ _ Hr3) as [Hall|(es0 & es' & -> & Hall & Hk)].
  - destruct (Hno _ Hall Hin).
  - apply elem_of_app in Hin as [Hin|Hin]; [destruct (Hno _ Hall Hin)|].
    apply elem_of_app. right.
    simpl in Hk. destruct Hk as [[-> _]|(es'' & -> & _)]; [inversion Hin|left].
Qed.

(** The steps of a status goroutine that has finished. *)
Lemma status_unit_done tmpfile locale f es :
  replays (status_unit tmpfile locale f) es Done ->
  exists fs made, es = status_unit_run tmpfile locale f fs made.
Proof.
  unfold status_unit, status_unit_run. intros H.
  apply replays_Do_Done in H as (r & es1 & -> & H).
  apply replays_orPanic_Done in H as (fs & -> & H).
  apply replays_Do_Done in H as (ok & es2 & -> & H).
  exists fs, (negb ok). destruct ok; simpl.
  - apply replays_Do_Done in H as (r & es3 & -> & H).
    apply replays_orPanic_Done in H as ([] & -> & H).
    apply replays_Done in H as [-> _]. reflexivity.
  - apply replays_Do_Done in H as ([] & es3 & -> & H).
    apply replays_Do_Done in H as (r & es4 & -> & H).
    apply replays_orPanic_Done in H as ([] & -> & H).
    apply replays_Done in H as [-> _]. reflexivity.
Qed.

(** How a status goroutine that has finished got there. *)
Lemma status_unit_finished tmpfile locale f es c :
  replays (status_unit tmpfile locale f) es c -> finished c ->
  (c = Done /\ exists fs made, es = status_unit_run tmpfile locale f fs made) \/
  (exists m, c = Panic m /\ status_unit_panic tmpfile locale f m es).
Proof.
  intros Hr [->|[m ->]].
  - left. split; [reflexivity|]. apply status_unit_done. exact Hr.
  - right. exists m. split; [reflexivity|]. unfold status_unit in Hr.
    unfold status_unit_panic.
    apply replays_Do_Panic in Hr as (r & es1 & -> & Hr).
    apply replays_orPanic_Panic in Hr as [[-> ->]|(fs & -> & Hr)]; [left; reflexivity|right].
    apply replays_Do_Panic in Hr as (ok & es2 & -> & Hr).
    assert (forall es,
              replays (Do (CMapStore f locale fs) (fun r => orPanic r (fun _ => Done)))
                es (Panic m) ->
              es = [EvMapStore f locale fs (Err m)]) as Hst.
    { intros es0 H. apply replays_Do_Panic in H as (r & es3 & -> & H).
      apply replays_orPanic_Panic in H as [[-> ->]|([] & -> & H)]; [reflexivity|].
      apply replays_Done in H as [_ H]. discriminate. }
    exists fs, (negb ok). destruct ok; simpl.
    + rewrite (Hst _ Hr). reflexivity.
    + apply replays_Do_Panic in Hr as ([] & es3 & -> & Hr).
      rewrite (Hst _ Hr). reflexivity.
Qed.

(** What a status goroutine stores is the status it got. *)
Lemma status_unit_store tmpfile locale f es q f' l' fs r :
  replays (status_unit tmpfile locale f) es q -> EvMapStore f' l' fs r ∈ es ->
  f' = f /\ l' = locale /\ EvStatus tmpfile locale (Ok fs) ∈ es.
Proof.
  unfold status_unit. intros Hr Hin.
  destruct (replays_Do_elem _ _ _ _ _ Hr Hin) as (r0 & es1 & -> & Hr1).
  apply elem_of_cons in Hin as [Heq|Hin]; [discriminate|].
  destruct (replays_orPanic_elem _ _ _ _ _ Hr1 Hin) as (fs0 & -> & Hr2).
  destruct (replays_Do_elem _ _ _ _ _ Hr2 Hin) as (ok & es2 & -> & Hr3).
  apply elem_of_cons in Hin as [Heq|Hin]; [discriminate|].
  assert (forall es q,
            replays (Do (CMapStore f locale fs0) (fun r => orPanic r (fun _ => Done))) es q ->
            EvMapStore f' l' fs r ∈ es -> f' = f /\ l' = locale /\ fs = fs0) as Hst.
  { intros es0 q0 H0 Hin0.
    destruct (replays_Do_elem _ _ _ _ _ H0 Hin0) as (r1 & es3 & -> & H1).
    apply elem_of_cons in Hin0 as [Heq|Hin0].
    - injection Heq as -> -> -> _. auto.
    - destruct r1 as [[]|m]; simpl in H1; destruct H1 as [[-> _]|[]]; inversion Hin0. }
  assert (f' = f /\ l' = locale /\ fs = fs0) as (-> & -> & ->).
  { destruct ok.
    - exact (Hst _ _ Hr3 Hin).
    - destruct (replays_Do_elem _ _ _ _ _ Hr3 Hin) as ([] & es3 & -> & Hr4).
      apply elem_of_cons in Hin as [Heq|Hin]; [discriminate|].
      exact (Hst _ _ Hr4 Hin). }
  repeat split. left.
Qed.

(** A loop over the files that has come to its end has uploaded a
    temporary file for every file and started a goroutine for every
    file and locale. *)
Lemma status_files_done_exact files locales k : forall es,
  replays (files_loop files locales k) es Done ->
  forall f l, f ∈ files -> l ∈ locales ->
    exists lp ft tmpfile,
      localRelativeFilePath ProjectConfig f = Ok lp /\
      filetypeForProjectFile ProjectConfig FileTypeByExtension f = Ok ft /\
      EvUploadTemp lp ft parserConfig (Ok tmpfile) ∈ es /\
      EvSpawn (status_unit tmpfile (smartling.Locale l) f) ∈ es.
Proof.
  induction files as [|f0 files IH]; intros es Hr f l Hf Hl; [inversion Hf|].
  simpl in Hr.
  apply replays_orPanic_Done in Hr as (lp & Hlp & Hr).
  apply replays_orPanic_Done in Hr as (ft & Hft & Hr).
  apply replays_Do_Done in Hr as (r & es1 & -> & Hr).
  apply replays_orPanic_Done in Hr as (tmp & -> & Hr).
  apply spawn_each_done_exact in Hr as (es' & -> & Hr).
  apply elem_of_cons in Hf as [->|Hf].
  - exists lp, ft, tmp. split; [exact Hlp|]. split; [exact Hft|]. split; [left|].
    right. apply elem_of_app. left. apply list_elem_of_fmap. exists l. auto.
  - destruct (IH _ Hr f l Hf Hl) as (lp' & ft' & tmp' & H1 & H2 & H3 & H4).
    exists lp', ft', tmp'. split; [exact H1|]. split; [exact H2|].
    split; right; apply elem_of_app; right; assumption.
Qed.

Lemma status_main_done_exact es :
  replays status es Done ->
  exists locales,
    EvLocales (Ok locales) ∈ es /\
    forall f l, f ∈ Files ProjectConfig -> l ∈ locales ->
      exists lp ft tmpfile,
        localRelativeFilePath ProjectConfig f = Ok lp /\
        filetypeForProjectFile ProjectConfig FileTypeByExtension f = Ok ft /\
        EvUploadTemp lp ft parserConfig (Ok tmpfile) ∈ es /\
        EvSpawn (status_unit tmpfile (smartling.Locale l) f) ∈ es.
Proof.
  unfold projectStatusCommand. intros Hr.
  apply replays_Do_Done in Hr as (r0 & es1 & -> & Hr).
  apply replays_orPanic_Done in Hr as (locales & -> & Hr).
  apply replays_Do_Done in Hr as ([] & es2 & -> & Hr).
  exists locales. split; [left|]. intros f l Hf Hl.
  destruct (status_files_done_exact _ _ _ _ Hr f l Hf Hl) as (lp & ft & tmp & H1 & H2 & H3 & H4).
  exists lp, ft, tmp. split; [exact H1|]. split; [exact H2|].
  split; do 2 right; assumption.
Qed.

End StatusDone.

(** A goroutine that has panicked has run its deferred [wg.Done()]: the
    command passes its [Wait] and prints the table, with [0->0->0] for
    the pair whose goroutine panicked. *)
Example demo_status_after_panic :
  let P := demo_status_panic sched_after_panic in
  (current 0 P, current 1 P, current 2 P)
  = (Some Done, Some (Panic "no status for fr-FR"), Some Done)
  /\ events_of 1 (trace P) = [EvStatus "/tmp/strings.json" "fr-FR" (Err "no status for fr-FR")]
  /\ stdout_of (trace P)
     = fmt.newline +:+ status_legend +:+ fmt.newline +:+ fmt.newline +:+
       "             fr-FR   de-DE" +:+ fmt.newline +:+
       "strings.json 0->0->0 0->0->7" +:+ fmt.newline.
Proof. vm_compute. repeat split; reflexivity. Qed.

(** X12. The status command reads the status map and prints (the
    legend and the table) only after [wg.Wait()]: whenever a run shows a
    print or the read of the map, the command itself made it, it has
    passed its [Wait], and every goroutine it started has finished: it
    has returned, or it has panicked (its deferred [wg.Done()] has run
    either way).  No goroutine prints or reads the map itself. *)
Theorem status_prints_after_join
    {E : Type} (B : Backend E) (ProjectConfig : Config)
    (FileTypeByExtension : string -> string)
    (w : World E) (sched : list nat) (i : nat) (e : Event) :
  let P := run_sched B sched
             (init (projectStatusCommand ProjectConfig FileTypeByExtension) w) in
  (i, e) ∈ trace P ->
  (exists s, e = EvPrint s) \/ (exists m, e = EvMapRead m) ->
  i = 0 /\
  (0, EvWait) ∈ trace P /\
  forall j c, 0 < j -> current j P = Some c -> c = Done \/ exists m, c = Panic m.
Proof.
  intros P Hin He.
  assert (i = 0) as ->.
  { destruct (status_event _ _ B _ _ _ _ Hin)
      as [[-> _]|[_ (? & ? & ? & ? & ? & ? & ? & _ & _ & _ & _ & _ & _ & _ & Hu)]];
      [reflexivity|].
    destruct He as [[? ->]|[? ->]]; destruct Hu. }
  destruct (main_thread B sched (projectStatusCommand ProjectConfig FileTypeByExtension) w)
    as [c0 Hc0].
  pose proof (thread_replays B sched _ w _ _ _ Hc0) as Hr.
  apply elem_of_events_of in Hin.
  pose proof (status_main_after_wait _ _ _ _ _ Hr Hin He) as Hw.
  apply elem_of_events_of in Hw.
  split; [reflexivity|]. split; [exact Hw|].
  intros j c Hj Hc. unfold current in Hc.
  destruct (threads P !! j) as [[o c']|] eqn:Hth; [|discriminate].
  injection Hc as <-.
  exact (waited_run B sched _ w (status_main_joins _ _) Hw _ _ _ Hj Hth).
Qed.

Lemma status_prints_after_join_witness :
  (0, EvPrint scenario_table) ∈ trace (demo_status sched_one_by_one) /\
  (0, EvWait) ∈ trace (demo_status sched_one_by_one).
Proof.
  unfold demo_status.
  match goal with |- ?A /\ _ => assert A as Hin end.
  { apply list_elem_of_lookup. exists 17. vm_compute. reflexivity. }
  split; [exact Hin|].
  apply (status_prints_after_join (demo_backend ["fr-FR"; "de-DE"] demo_status_of)
           demo_status_config demo_filetypes demo_world sched_one_by_one 0 _ Hin
           (or_introl (ex_intro _ _ eq_refl))).
Defined.

(** X13. A status goroutine that runs without another goroutine in
    between, and whose status query succeeds, always finishes: it leaves
    the status it got in the cell of its (file, locale) pair, creating
    the row of the file when it is missing, and leaves every other cell
    of the map as it was. *)
Theorem status_unit_alone_stores
    {E : Type} (B : Backend E) (tmpfile locale f : string) (w : World E)
    (fs : smartling.FileStatus) :
  (be_status B tmpfile locale (env w)).1 = Ok fs ->
  exists w1 es,
    run_alone B (status_unit tmpfile locale f) w = (Done, w1, es) /\
    env w1 = (be_status B tmpfile locale (env w)).2 /\
    cell_of (statuses w1) f locale = Some fs /\
    forall f' l', (f', l') <> (f, locale) ->
      cell_of (statuses w1) f' l' = cell_of (statuses w) f' l'.
Proof.
  intros Hst. unfold status_unit. simpl. unfold lift_env.
  destruct (be_status B tmpfile locale (env w)) as [r e1]. simpl in Hst. subst r. simpl.
  destruct (statuses w !! f) as [mm|] eqn:Hf.
  - rewrite bool_decide_true by eauto. simpl. rewrite Hf. simpl.
    eexists _, _. split; [reflexivity|]. split; [reflexivity|]. unfold cell_of. simpl. split.
    + rewrite lookup_insert_eq. simpl. apply lookup_insert_eq.
    + intros f' l' Hne. destruct (decide (f' = f)) as [->|Hf'].
      * rewrite lookup_insert_eq, Hf. simpl. apply lookup_insert_ne. congruence.
      * rewrite lookup_insert_ne by congruence. reflexivity.
  - rewrite bool_decide_false by (intros [x Hx]; discriminate). simpl.
    rewrite lookup_insert_eq. simpl.
    eexists _, _. split; [reflexivity|]. split; [reflexivity|]. unfold cell_of. simpl. split.
    + rewrite lookup_insert_eq. simpl. apply lookup_insert_eq.
    + intros f' l' Hne. destruct (decide (f' = f)) as [->|Hf'].
      * rewrite lookup_insert_eq, Hf. simpl. rewrite lookup_insert_ne by congruence.
        apply lookup_empty.
      * rewrite !lookup_insert_ne by congruence. reflexivity.
Qed.

Lemma status_unit_alone_stores_witness :
  exists w1 es,
    run_alone (demo_backend ["fr-FR"; "de-DE"] demo_status_of)
      (status_unit "/tmp/strings.json" "fr-FR" "strings.json")
      (with_env demo_world {| demo_remote := ["/tmp/strings.json"]; demo_disk := [] |})
    = (Done, w1, es) /\
    cell_of (statuses w1) "strings.json" "fr-FR" = Some (counts 2 1 5).
Proof.
  destruct (status_unit_alone_stores (demo_backend ["fr-FR"; "de-DE"] demo_status_of)
              "/tmp/strings.json" "fr-FR" "strings.json"
              (with_env demo_world {| demo_remote := ["/tmp/strings.json"]; demo_disk := [] |})
              (counts 2 1 5) eq_refl) as (w1 & es & H1 & _ & H2 & _).
  exists w1, es. split; [exact H1|exact H2].
Defined.

(** X14. A status run asks for the status of nothing but its own
    temporary uploads: every status query is made by a goroutine, for a
    locale the service listed and for the identifier the temporary upload
    of a project file returned, the upload having been made from the
    file's local path with its file type and the project's parser
    configuration. *)
Theorem status_queries_temp_files
    {E : Type} (B : Backend E) (ProjectConfig : Config)
    (FileTypeByExtension : string -> string)
    (w : World E) (sched : list nat) (i : nat) (remote locale : string)
    (r : result smartling.FileStatus) :
  let P := run_sched B sched
             (init (projectStatusCommand ProjectConfig FileTypeByExtension) w) in
  (i, EvStatus remote locale r) ∈ trace P ->
  0 < i /\
  exists locales f l lp ft,
    (0, EvLocales (Ok locales)) ∈ trace P /\
    f ∈ Files ProjectConfig /\ l ∈ locales /\ locale = smartling.Locale l /\
    localRelativeFilePath ProjectConfig f = Ok lp /\
    filetypeForProjectFile ProjectConfig FileTypeByExtension f = Ok ft /\
    (0, EvUploadTemp lp ft (ParserConfig (FileConfig ProjectConfig)) (Ok remote)) ∈ trace P.
Proof.
  intros P Hin.
  destruct (status_event _ _ B _ _ _ _ Hin)
    as [[_ []]|[Hi (locales & f & l & lp & ft & tmp & c & H1 & H2 & H3 & H4 & H5 & H6 & _ & Hu)]].
  destruct Hu as [-> ->]. split; [exact Hi|].
  exists locales, f, l, lp, ft. repeat split; auto.
Qed.

Lemma status_queries_temp_files_witness :
  (1, EvStatus "/tmp/strings.json" "fr-FR" (Ok (counts 2 1 5)))
    ∈ trace (demo_status sched_one_by_one) /\
  0 < 1.
Proof.
  unfold demo_status.
  match goal with |- ?A /\ _ => assert A as Hin end.
  { apply elem_of_events_of, list_elem_of_In. vm_compute. auto. }
  split; [exact Hin|].
  apply (status_queries_temp_files (demo_backend ["fr-FR"; "de-DE"] demo_status_of)
           demo_status_config demo_filetypes demo_world sched_one_by_one 1 _ _ _ Hin).
Defined.

(** X15. Every status a status run stores in its map is one the service
    returned: whoever stores a cell is the goroutine of that project file
    and that listed locale, and it stores the status its own query for
    the file's temporary upload and that locale returned. *)
Theorem status_stores_what_it_got
    {E : Type} (B : Backend E) (ProjectConfig : Config)
    (FileTypeByExtension : string -> string)
    (w : World E) (sched : list nat) (i : nat) (f locale : string)
    (fs : smartling.FileStatus) (r : result unit) :
  let P := run_sched B sched
             (init (projectStatusCommand ProjectConfig FileTypeByExtension) w) in
  (i, EvMapStore f locale fs r) ∈ trace P ->
  0 < i /\
  exists locales l lp ft tmpfile,
    (0, EvLocales (Ok locales)) ∈ trace P /\
    f ∈ Files ProjectConfig /\ l ∈ locales /\ locale = smartling.Locale l /\
    localRelativeFilePath ProjectConfig f = Ok lp /\
    filetypeForProjectFile ProjectConfig FileTypeByExtension f = Ok ft /\
    (0, EvUploadTemp lp ft (ParserConfig (FileConfig ProjectConfig)) (Ok tmpfile)) ∈ trace P /\
    (i, EvStatus tmpfile locale (Ok fs)) ∈ trace P.
Proof.
  intros P Hin.
  destruct (status_event _ _ B _ _ _ _ Hin)
    as [[_ []]|[Hi (locales & f0 & l & lp & ft & tmp & c & H1 & H2 & H3 & H4 & H5 & H6 & Hth & Hu)]].
  fold P in Hth.
  pose proof (thread_replays B sched _ w _ _ _ Hth) as Hr. fold P in Hr.
  apply elem_of_events_of in Hin.
  destruct (status_unit_store _ _ _ _ _ _ _ _ _ Hr Hin) as (-> & -> & Hst).
  split; [exact Hi|].
  exists locales, l, lp, ft, tmp. repeat split; auto.
  apply elem_of_events_of. exact Hst.
Qed.

Lemma status_stores_what_it_got_witness :
  (2, EvMapStore "strings.json" "de-DE" (counts 0 0 7) (Ok tt))
    ∈ trace (demo_status sched_interleaved) /\
  0 < 2.
Proof.
  unfold demo_status.
  match goal with |- ?A /\ _ => assert A as Hin end.
  { apply elem_of_events_of, list_elem_of_In. vm_compute. auto 6. }
  split; [exact Hin|].
  apply (status_stores_what_it_got (demo_backend ["fr-FR"; "de-DE"] demo_status_of)
           demo_status_config demo_filetypes demo_world sched_interleaved 2 _ _ _ _ Hin).
Defined.

(** X16. When the status command has returned, for every project file
    and every listed locale the file's local path and type were
    determined and its temporary upload succeeded, and the goroutine of
    the pair has finished.  It has either returned, having got the status
    of that upload for the locale and stored it with success; or it has
    panicked, and then its steps stop at the status query or at the
    store that failed.  ([wg.Wait()] also lets the command go on, and
    print its table, after a goroutine has panicked.) *)
Theorem status_returned_all_pairs
    {E : Type} (B : Backend E) (ProjectConfig : Config)
    (FileTypeByExtension : string -> string)
    (w : World E) (sched : list nat) :
  let P := run_sched B sched
             (init (projectStatusCommand ProjectConfig FileTypeByExtension) w) in
  returned P ->
  exists locales,
    (0, EvLocales (Ok locales)) ∈ trace P /\
    forall f l, f ∈ Files ProjectConfig -> l ∈ locales ->
      exists i lp ft tmpfile,
        0 < i /\
        localRelativeFilePath ProjectConfig f = Ok lp /\
        filetypeForProjectFile ProjectConfig FileTypeByExtension f = Ok ft /\
        (0, EvUploadTemp lp ft (ParserConfig (FileConfig ProjectConfig)) (Ok tmpfile))
          ∈ trace P /\
        ((current i P = Some Done /\
          exists fs made,
            events_of i (trace P) = status_unit_run tmpfile (smartling.Locale l) f fs made) \/
         (exists m,
            current i P = Some (Panic m) /\
            status_unit_panic tmpfile (smartling.Locale l) f m (events_of i (trace P)))).
Proof.
  intros P Hret.
  destruct (main_thread B sched (projectStatusCommand ProjectConfig FileTypeByExtension) w)
    as [c Hc]. fold P in Hc.
  pose proof (thread_replays B sched _ w _ _ _ Hc) as Hr. fold P in Hr.
  pose proof Hret as Hret'. unfold returned, current in Hret'. rewrite Hc in Hret'.
  injection Hret' as ->.
  destruct (status_main_done_exact _ _ _ Hr) as (locales & Hloc & Hall).
  exists locales. split; [apply elem_of_events_of; exact Hloc|].
  intros f l Hf Hl. destruct (Hall f l Hf Hl) as (lp & ft & tmp & H1 & H2 & H3 & H4).
  apply elem_of_events_of in H4.
  destruct (returned_child B sched _ w _ (status_main_joins _ _) Hret H4)
    as (i & ci & Hi & Hcur & Hfin & Hri).
  exists i, lp, ft, tmp. split; [exact Hi|]. split; [exact H1|]. split; [exact H2|].
  split; [apply elem_of_events_of; exact H3|].
  destruct (status_unit_finished _ _ _ _ _ Hri Hfin) as [[-> Hdone]|(m & -> & Hpanic)].
  - left. split; [exact Hcur|exact Hdone].
  - right. exists m. split; [exact Hcur|exact Hpanic].
Qed.

Lemma status_returned_all_pairs_witness :
  returned (demo_status sched_interleaved) /\
  exists locales, (0, EvLocales (Ok locales)) ∈ trace (demo_status sched_interleaved).
Proof.
  unfold demo_status.
  match goal with |- ?A /\ _ => assert A as Hret by (vm_compute; reflexivity) end.
  split; [exact Hret|].
  destruct (status_returned_all_pairs (demo_backend ["fr-FR"; "de-DE"] demo_status_of)
              demo_status_config demo_filetypes demo_world sched_interleaved Hret)
    as (locales & Hloc & _).
  exists locales. exact Hloc.
Defined.

(** ** pull: more on what a run does *)

(** A pull command that has returned has listed the locales and started
    the goroutine of every project file and listed locale. *)
Lemma pull_main_done ProjectConfig defaultPullDestination FileTypeByExtension es :
  replays (projectPullCommand ProjectConfig defaultPullDestination FileTypeByExtension)
    es Done ->
  exists locales,
    EvLocales (Ok locales) ∈ es /\
    forall f l, f ∈ Files ProjectConfig -> l ∈ locales ->
      EvSpawn (pull_unit ProjectConfig defaultPullDestination FileTypeByExtension
                 (smartling.Locale l) f) ∈ es.
Proof.
  unfold projectPullCommand. intros Hr.
  apply replays_Do_Done in Hr as (r & es1 & -> & Hr).
  apply replays_orPanic_Done in Hr as (locales & -> & Hr).
  apply spawn_each_done_exact in Hr as (es' & -> & _).
  exists locales. split; [left|]. intros f l Hf Hl. right. apply elem_of_app. left.
  apply list_elem_of_fmap. exists (f, smartling.Locale l). split; [reflexivity|].
  apply elem_of_pairs_of. split; [exact Hf|]. exists l. auto.
Qed.

(** X17. A pull run writes nothing but translations to their
    destinations: whoever writes a file is the goroutine of a project
    file and a listed locale; the path written is the pull destination of
    that pair; and before the write the goroutine asked
    [translateViaCache] for the pair (local path, file type and parser
    configuration of the file), got the bytes it writes, and printed the
    destination, marked [(using cache)] exactly on a hit. *)
Theorem pull_writes_translation
    {E : Type} (B : Backend E) (ProjectConfig : Config) (defaultPullDestination : string)
    (FileTypeByExtension : string -> string)
    (w : World E) (sched : list nat) (i : nat) (fp b : string) (r : result unit) :
  let P := run_sched B sched
             (init (projectPullCommand ProjectConfig defaultPullDestination
                      FileTypeByExtension) w) in
  (i, EvWriteFile fp b r) ∈ trace P ->
  0 < i /\
  exists locales f l lp ft hit,
    (0, EvLocales (Ok locales)) ∈ trace P /\
    f ∈ Files ProjectConfig /\ l ∈ locales /\
    localRelativeFilePath ProjectConfig f = Ok lp /\
    filetypeForProjectFile ProjectConfig FileTypeByExtension f = Ok ft /\
    localPullFilePath ProjectConfig defaultPullDestination f (smartling.Locale l)
    = Some (Ok fp) /\
    events_of i (trace P)
    = [EvTranslate (smartling.Locale l, lp, ft, ParserConfig (FileConfig ProjectConfig))
         (Ok (hit, b));
       EvPrint (fmt.Sprintln [fmt.OStr fp; fmt.OStr (if hit then "(using cache)" else "")]);
       EvWriteFile fp b r].
Proof.
  intros P Hin. destruct (trace_thread B sched _ w _ _ Hin) as (o & c & Hth). fold P in Hth.
  pose proof (thread_replays B sched _ w _ _ _ Hth) as Hr. fold P in Hr.
  apply elem_of_events_of in Hin.
  destruct i as [|i].
  - destruct (main_thread B sched
                (projectPullCommand ProjectConfig defaultPullDestination FileTypeByExtension) w)
      as [c0 Hc0]. fold P in Hc0.
    rewrite Hc0 in Hth. injection Hth as <- <-.
    destruct (own_replays _ _ _ _ _ (pull_main_own _ _ _) Hr Hin).
  - split; [lia|].
    destruct (pull_thread _ _ _ B w sched (S i) o c ltac:(lia) Hth)
      as (locales & f & l & H1 & H2 & H3 & ->).
    destruct (pull_unit_write _ _ _ _ _ _ _ _ _ _ Hr Hin) as (lp & ft & hit & H4 & H5 & H6 & H7).
    exists locales, f, l, lp, ft, hit. repeat split; auto.
Qed.

Lemma pull_writes_translation_witness :
  (1, EvWriteFile "a/fr-FR/b.json" "fr-FR:a/b.json" (Ok tt))
    ∈ trace (demo_pull_run [0; 0; 0; 0; 1; 2; 1; 2; 1; 2; 0]) /\
  0 < 1.
Proof.
  unfold demo_pull_run.
  match goal with |- ?A /\ _ => assert A as Hin end.
  { apply elem_of_events_of, list_elem_of_In. vm_compute. auto. }
  split; [exact Hin|].
  apply (pull_writes_translation (demo_backend ["fr-FR"; "de-DE"] demo_push_status)
           demo_pull_config "{{.Path}}" demo_filetypes
           demo_world [0; 0; 0; 0; 1; 2; 1; 2; 1; 2; 0] 1 _ _ _ Hin).
Defined.

(** X18. When the pull command has returned, the goroutine of every
    project file and listed locale has finished.  It has either returned,
    having got the translation from [translateViaCache], printed the pull
    destination of the pair and written the translation there with
    success; or it has panicked, and then its steps stop at the failure:
    the local path or the file type that could not be determined, the
    translation that failed, the destination that could not be computed,
    or the write that failed.  ([wg.Wait()] also lets the command go on
    after a goroutine has panicked.) *)
Theorem pull_returned_all_pairs
    {E : Type} (B : Backend E) (ProjectConfig : Config) (defaultPullDestination : string)
    (FileTypeByExtension : string -> string)
    (w : World E) (sched : list nat) :
  let P := run_sched B sched
             (init (projectPullCommand ProjectConfig defaultPullDestination
                      FileTypeByExtension) w) in
  returned P ->
  exists locales,
    (0, EvLocales (Ok locales)) ∈ trace P /\
    forall f l, f ∈ Files ProjectConfig -> l ∈ locales ->
      exists i,
        0 < i /\
        ((current i P = Some Done /\
          exists lp ft hit b fp,
            localRelativeFilePath ProjectConfig f = Ok lp /\
            filetypeForProjectFile ProjectConfig FileTypeByExtension f = Ok ft /\
            localPullFilePath ProjectConfig defaultPullDestination f (smartling.Locale l)
            = Some (Ok fp) /\
            events_of i (trace P)
            = pull_unit_run (pull_key ProjectConfig (smartling.Locale l) lp ft) hit b fp
                (Ok tt)) \/
         (exists m,
            current i P = Some (Panic m) /\
            pull_unit_panic ProjectConfig defaultPullDestination FileTypeByExtension
              (smartling.Locale l) f m (events_of i (trace P)))).
Proof.
  intros P Hret.
  destruct (main_thread B sched
              (projectPullCommand ProjectConfig defaultPullDestination FileTypeByExtension) w)
    as [c Hc]. fold P in Hc.
  pose proof (thread_replays B sched _ w _ _ _ Hc) as Hr. fold P in Hr.
  pose proof Hret as Hret'. unfold returned, current in Hret'. rewrite Hc in Hret'.
  injection Hret' as ->.
  destruct (pull_main_done _ _ _ _ Hr) as (locales & Hloc & Hall).
  exists locales. split; [apply elem_of_events_of; exact Hloc|].
  intros f l Hf Hl. specialize (Hall f l Hf Hl). apply elem_of_events_of in Hall.
  destruct (returned_child B sched _ w _ (pull_main_joins _ _ _) Hret Hall)
    as (i & ci & Hi & Hcur & Hfin & Hri).
  exists i. split; [exact Hi|].
  destruct (pull_unit_finished _ _ _ _ _ _ _ Hri Hfin) as [[-> Hdone]|(m & -> & Hpanic)].
  - left. split; [exact Hcur|exact Hdone].
  - right. exists m. split; [exact Hcur|exact Hpanic].
Qed.

Lemma pull_returned_all_pairs_witness :
  returned (demo_pull_run [0; 0; 0; 0; 1; 2; 1; 2; 1; 2; 0]) /\
  exists locales,
    (0, EvLocales (Ok locales)) ∈ trace (demo_pull_run [0; 0; 0; 0; 1; 2; 1; 2; 1; 2; 0]).
Proof.
  unfold demo_pull_run.
  match goal with |- ?A /\ _ => assert A as Hret by (vm_compute; reflexivity) end.
  split; [exact Hret|].
  destruct (pull_returned_all_pairs (demo_backend ["fr-FR"; "de-DE"] demo_push_status)
              demo_pull_config "{{.Path}}" demo_filetypes
              demo_world [0; 0; 0; 0; 1; 2; 1; 2; 1; 2; 0] Hret) as (locales & Hloc & _).
  exists locales. exact Hloc.
Defined.

(** ** Local paths *)

(** A plain element of a relative path is copied to the output, after a
    separator unless the output is still empty. *)
Lemma clean_loop_elem_rel e : forall rest out dd,
  plain_elem e = true ->
  filepath.at_elem_end rest = true ->
  filepath.clean_loop false (e +:+ rest) out dd false
  = filepath.clean_loop false rest
      (rev (GoString.to_list e)
       ++ (if (List.length out =? 0)%nat then out else filepath.Separator :: out)) dd true.
Proof.
  intros rest out dd Hp Hend. unfold plain_elem in Hp.
  repeat (apply andb_true_iff in Hp as [Hp ?]).
  destruct e as [|c e]; [discriminate|].
  match goal with H : no_sep _ = true |- _ => simpl in H;
    apply andb_true_iff in H as [Hc Hns] end.
  apply negb_true_iff in Hc.
  assert (forall s, e <> "" -> filepath.at_elem_end (e +:+ s) = false) as Hnot.
  { intros s Hne. destruct e as [|c' e']; [contradiction|]. simpl in Hns |- *.
    apply andb_true_iff in Hns as [Hc' _]. apply negb_true_iff in Hc'. exact Hc'. }
  assert (filepath.clean_loop false (String c e +:+ rest) out dd false
          = filepath.clean_loop false (e +:+ rest)
              (c :: (if (List.length out =? 0)%nat then out else filepath.Separator :: out))
              dd true) as ->.
  { simpl. rewrite Hc.
    destruct (Ascii.eqb c ".") eqn:Hdot; simpl.
    - apply Ascii.eqb_eq in Hdot. subst c.
      rewrite Hnot by (intros ->; discriminate).
      destruct e as [|c2 e2]; [discriminate|]. simpl.
      destruct (Ascii.eqb c2 ".") eqn:Hdot2; simpl.
      + apply Ascii.eqb_eq in Hdot2. subst c2.
        destruct e2 as [|c3 e3]; [discriminate|].
        assert (filepath.IsPathSeparator c3 = false) as Hc3.
        { simpl in Hns. destruct (filepath.IsPathSeparator c3); [|reflexivity].
          simpl in Hns. discriminate. }
        simpl. rewrite Hc3.
        destruct (List.length out =? 0)%nat; reflexivity.
      + destruct (List.length out =? 0)%nat; reflexivity.
    - destruct (e +:+ rest); destruct (List.length out =? 0)%nat; reflexivity. }
  rewrite clean_loop_copy by exact Hns. simpl. rewrite <- app_assoc. reflexivity.
Qed.

Lemma clean_loop_elems_rel elems : forall out dd,
  elems <> [] ->
  forallb plain_elem elems = true ->
  exists b, filepath.clean_loop false (filepath.join_sep elems) out dd false
            = filepath.clean_loop false ""
                (rev (GoString.to_list (filepath.join_sep elems))
                 ++ (if (List.length out =? 0)%nat then out else filepath.Separator :: out))
                dd b.
Proof.
  induction elems as [|e elems IH]; intros out dd Hne Hall; [contradiction|].
  simpl in Hall. apply andb_true_iff in Hall as [He Hall].
  destruct elems as [|e' elems].
  - exists true. simpl filepath.join_sep.
    rewrite <- (append_empty_r e) at 1.
    rewrite clean_loop_elem_rel by (exact He || reflexivity). reflexivity.
  - change (filepath.join_sep (e :: e' :: elems))
      with (e +:+ String filepath.Separator (filepath.join_sep (e' :: elems))).
    rewrite clean_loop_elem_rel by (exact He || reflexivity).
    simpl filepath.clean_loop at 1.
    destruct (IH (rev (GoString.to_list e)
                  ++ (if (List.length out =? 0)%nat then out else filepath.Separator :: out))
                dd ltac:(discriminate) Hall) as [b Hb].
    exists b. etransitivity; [exact Hb|]. f_equal.
    pose proof (plain_elem_nonempty _ He) as Hlen.
    destruct (Nat.eqb_spec (List.length
                (rev (GoString.to_list e)
                 ++ (if (List.length out =? 0)%nat then out else filepath.Separator :: out))) 0)
      as [H0|_]; [rewrite length_app, length_rev in H0; lia|].
    rewrite to_list_app. simpl. rewrite rev_app_distr. simpl.
    rewrite <- ?app_assoc. reflexivity.
Qed.

Lemma plain_path_not_rooted p :
  plain_path p = true -> filepath.starts_with_sep p = false /\ p <> "" /\ p <> ".".
Proof.
  intros Hp. split; [|split]; [|intros ->; discriminate Hp|intros ->; discriminate Hp].
  destruct p as [|c p]; [reflexivity|]. simpl. unfold plain_path in Hp. simpl in Hp.
  destruct (filepath.IsPathSeparator c); [discriminate Hp|reflexivity].
Qed.

Lemma clean_loop_plain p out :
  plain_path p = true ->
  exists b, filepath.clean_loop false p out 0 false
            = filepath.clean_loop false ""
                (rev (GoString.to_list p)
                 ++ (if (List.length out =? 0)%nat then out else filepath.Separator :: out))
                0 b.
Proof.
  unfold plain_path. intros Hall.
  destruct (split_sep_cons p) as (e & elems & Hs).
  rewrite <- (join_split_sep p). rewrite Hs in *.
  apply clean_loop_elems_rel; [discriminate|exact Hall].
Qed.

(** [Clean] leaves a plain path as it is. *)
Lemma Clean_plain p : plain_path p = true -> filepath.Clean p = p.
Proof.
  intros Hp. destruct (plain_path_not_rooted _ Hp) as (Hr & Hne & _).
  destruct p as [|c rest]; [contradiction|]. unfold filepath.Clean.
  simpl in Hr. rewrite Hr.
  destruct (clean_loop_plain (String c rest) [] Hp) as [b ->].
  cbn [filepath.clean_loop]. rewrite app_nil_r.
  destruct (rev (GoString.to_list (String c rest))) as [|c' l] eqn:Hrev.
  - apply (f_equal (@List.length _)) in Hrev. rewrite length_rev in Hrev. discriminate.
  - rewrite <- Hrev, rev_involutive. apply of_list_to_list.
Qed.

(** [Clean] drops a leading [./] from a plain path. *)
Lemma Clean_dot_plain p : plain_path p = true -> filepath.Clean ("./" +:+ p) = p.
Proof.
  intros Hp. rewrite <- (Clean_plain p Hp) at 2.
  destruct (plain_path_not_rooted _ Hp) as (Hr & Hne & _).
  destruct p as [|c rest]; [contradiction|]. simpl in Hr.
  unfold filepath.Clean. change ("./" +:+ String c rest) with (String "." (String "/" (String c rest))).
  rewrite Hr. reflexivity.
Qed.

(** [filepath.Rel(".", p)] fails on a rooted path and returns no rooted
    path. *)
Lemma Rel_dot_rooted p :
  filepath.starts_with_sep p = true -> exists m, filepath.Rel_dot p = Err m.
Proof.
  intros Hp. unfold filepath.Rel_dot.
  pose proof (Clean_keeps_root _ Hp) as Hc.
  destruct (String.eqb_spec (filepath.Clean p) ".") as [Heq|_].
  - rewrite Heq in Hc. discriminate.
  - rewrite Hc. eauto.
Qed.

Lemma Rel_dot_Ok p fp :
  filepath.Rel_dot p = Ok fp -> filepath.starts_with_sep fp = false.
Proof.
  unfold filepath.Rel_dot. destruct (String.eqb (filepath.Clean p) ".").
  - intros H. injection H as <-. reflexivity.
  - destruct (filepath.starts_with_sep (filepath.Clean p)) eqn:Hs; [discriminate|].
    intros H. injection H as <-. exact Hs.
Qed.

Lemma Rel_dot_plain p : plain_path p = true -> filepath.Rel_dot p = Ok p.
Proof.
  intros Hp. unfold filepath.Rel_dot. rewrite (Clean_plain p Hp).
  destruct (plain_path_not_rooted _ Hp) as (Hr & _ & Hdot).
  destruct (String.eqb_spec p ".") as [Heq|_]; [contradiction|].
  rewrite Hr. reflexivity.
Qed.

Lemma Join_rooted a b :
  filepath.starts_with_sep a = true ->
  filepath.starts_with_sep (filepath.Join [a; b]) = true.
Proof.
  intros Ha. destruct a as [|c a]; [discriminate|].
  change (filepath.Join [String c a; b])
    with (filepath.Clean (String c a +:+ String filepath.Separator b)).
  apply Clean_keeps_root. apply starts_with_sep_app. exact Ha.
Qed.

(** X19. The local paths project.go computes are relative to the
    working directory: neither [localRelativeFilePath] nor
    [localPullFilePath] ever returns a path that begins with a slash. *)
Theorem local_path_is_relative
    (ProjectConfig : Config) (defaultPullDestination p locale fp : string) :
  localRelativeFilePath ProjectConfig p = Ok fp \/
  localPullFilePath ProjectConfig defaultPullDestination p locale = Some (Ok fp) ->
  filepath.starts_with_sep fp = false.
Proof.
  intros [H|H].
  - exact (Rel_dot_Ok _ _ H).
  - unfold localPullFilePath in H.
    destruct (template.Parse _) as [tmpl|]; [|discriminate].
    destruct (Execute tmpl _) as [out|m]; [|discriminate].
    injection H as H. exact (Rel_dot_Ok _ _ H).
Qed.

Lemma local_path_is_relative_witness :
  localPullFilePath demo_pull_config "{{.Path}}" "a/b.json" "fr-FR" = Some (Ok "a/fr-FR/b.json") /\
  filepath.starts_with_sep "a/fr-FR/b.json" = false.
Proof.
  assert (localPullFilePath demo_pull_config "{{.Path}}" "a/b.json" "fr-FR"
          = Some (Ok "a/fr-FR/b.json")) as H by (vm_compute; reflexivity).
  split; [exact H|].
  exact (local_path_is_relative demo_pull_config "{{.Path}}" "a/b.json" "fr-FR" _
           (or_intror H)).
Defined.

(** X20. A project whose path is absolute has no local paths: for every
    file [localRelativeFilePath] fails ([filepath.Rel] cannot make a
    rooted path relative to the working directory, and [panicIfErr]
    panics), and so [localPullFilePath] returns no path either, whatever
    the template. *)
Theorem rooted_project_has_no_local_path
    (ProjectConfig : Config) (defaultPullDestination p locale : string) :
  filepath.starts_with_sep (path ProjectConfig) = true ->
  (exists m, localRelativeFilePath ProjectConfig p = Err m) /\
  forall fp, localPullFilePath ProjectConfig defaultPullDestination p locale <> Some (Ok fp).
Proof.
  intros Hroot.
  assert (forall q, exists m, localRelativeFilePath ProjectConfig q = Err m) as Hall.
  { intros q. unfold localRelativeFilePath. apply Rel_dot_rooted, Join_rooted, Hroot. }
  split; [apply Hall|].
  intros fp H. unfold localPullFilePath in H.
  destruct (template.Parse _) as [tmpl|]; [|discriminate].
  destruct (Execute tmpl _) as [out|m]; [|discriminate].
  destruct (Hall out) as [m Hm]. rewrite Hm in H. discriminate.
Qed.

Lemma rooted_project_has_no_local_path_witness :
  filepath.starts_with_sep (path rooted_config) = true /\
  exists m, localRelativeFilePath rooted_config "a/b.json" = Err m.
Proof.
  split; [reflexivity|].
  apply (rooted_project_has_no_local_path rooted_config "{{.Path}}" "a/b.json" "fr-FR" eq_refl).
Defined.

(** X21. For a project path in clean relative form, not climbing out
    of the project, the local path of a project file is the project path
    followed by the file's path; for a project in the working directory
    ([.], or no path at all) it is the file's path itself. *)
Theorem localRelativeFilePath_plain (ProjectConfig : Config) (p : string) :
  plain_path p = true ->
  (path ProjectConfig = "" \/ path ProjectConfig = "." ->
   localRelativeFilePath ProjectConfig p = Ok p) /\
  (plain_path (path ProjectConfig) = true ->
   localRelativeFilePath ProjectConfig p = Ok (path ProjectConfig +:+ "/" +:+ p)).
Proof.
  intros Hp. unfold localRelativeFilePath.
  destruct (plain_path_not_rooted _ Hp) as (_ & Hne & _).
  split.
  - intros [-> | ->].
    + destruct p as [|c p]; [contradiction|].
      change (filepath.Join [""; String c p]) with (filepath.Clean (String c p)).
      rewrite (Clean_plain _ Hp). apply Rel_dot_plain, Hp.
    + change (filepath.Join ["."; p]) with (filepath.Clean ("./" +:+ p)).
      rewrite (Clean_dot_plain _ Hp). apply Rel_dot_plain, Hp.
  - intros Hroot. destruct (plain_path_not_rooted _ Hroot) as (_ & Hrne & _).
    destruct (path ProjectConfig) as [|c root] eqn:Hpath; [contradiction|].
    change (filepath.Join [String c root; p])
      with (filepath.Clean (String c root +:+ String filepath.Separator p)).
    pose proof (plain_path_join _ _ Hroot Hp) as Hj.
    rewrite (Clean_plain _ Hj). apply Rel_dot_plain, Hj.
Qed.

Lemma localRelativeFilePath_plain_witness :
  plain_path "a/b.json" = true /\
  localRelativeFilePath demo_pull_config "a/b.json" = Ok "a/b.json".
Proof.
  split; [reflexivity|].
  apply (localRelativeFilePath_plain demo_pull_config "a/b.json" eq_refl).
  right. reflexivity.
Defined.

(** X22. The prefix a push uses, whether it comes from the [--prefix]
    flag or from [pushPrefix()], is normalized: it is either empty or
    begins with a slash and is not the bare root [/].  A prefix that
    cleans to the root is no prefix. *)
Theorem push_prefix_is_normalized (pushPrefix flag : string) :
  prefixOf pushPrefix flag = "" \/
  (filepath.starts_with_sep (prefixOf pushPrefix flag) = true /\
   prefixOf pushPrefix flag <> "/").
Proof.
  unfold prefixOf, cleanPrefix.
  set (s := if String.eqb flag "" then pushPrefix else flag).
  destruct (String.eqb_spec (filepath.Clean ("/" +:+ s)) "/") as [Heq|Hne].
  - left. reflexivity.
  - right. split; [|exact Hne]. apply Clean_keeps_root. reflexivity.
Qed.
